(** * Facial-recognition attendance system: gallery, ledger, camera worker

    A shallow embedding of [gui_attendance_system.py]:
    - [FaceDataManager] (gallery of known faces, daily attendance ledger),
    - [CameraThread] (device initialisation, capture/recognition loop,
      one-slot frame queue),
    - [RegistrationWindow.process_capture] (name validation).

    Python text is modelled by [string]; a character stands for the code
    point of the same number (0..255), and the character classes below are
    Python's [str] classifications on that range.  The vision and capture
    libraries are external: images, face regions and embeddings are abstract
    types, and the library calls are section variables.

    The UI thread and the camera worker share one state.  A function is the
    sequence of the steps of the thread that runs it, and what the other
    thread does in between is an argument: a schedule of [tick]s for the
    worker's loop, [worker_steps] for the window.  The two assignments that
    replace the gallery lists are two steps. *)

From Stdlib Require Import ZArith QArith Qabs String Ascii List Lia DecimalString
  DecimalNat.
From stdpp Require Import base gmap sets list strings.

Close Scope Q_scope.
Local Open Scope string_scope.
Local Open Scope list_scope.

(** ** Python string operations used by the program *)

Module PyStr.

Definition ord (c : ascii) : N := N_of_ascii c.

Definition between (lo hi n : N) : bool := ((lo <=? n) && (n <=? hi))%N.

(** [str.isspace] on one character. *)
Definition isspace_char (c : ascii) : bool :=
  let n := ord c in
  between 9 13 n || between 28 32 n || (n =? 133)%N || (n =? 160)%N.

(** [str.isalpha] on one character. *)
Definition isalpha_char (c : ascii) : bool :=
  let n := ord c in
  between 65 90 n || between 97 122 n
  || (n =? 170)%N || (n =? 181)%N || (n =? 186)%N
  || between 192 214 n || between 216 246 n || between 248 255 n.

(** [str.isdigit] on one character. *)
Definition isdigit_char (c : ascii) : bool :=
  let n := ord c in
  between 48 57 n || (n =? 178)%N || (n =? 179)%N || (n =? 185)%N.

Definition lower_char (c : ascii) : ascii :=
  let n := ord c in
  if between 65 90 n || between 192 214 n || between 216 222 n
  then ascii_of_N (n + 32) else c.

Fixpoint lower (s : string) : string :=
  match s with
  | EmptyString => EmptyString
  | String c s' => String (lower_char c) (lower s')
  end.

(** [s.isdigit()]: at least one character, all of them digits. *)
Fixpoint all_digits (s : string) : bool :=
  match s with
  | EmptyString => true
  | String c s' => isdigit_char c && all_digits s'
  end.

Definition isdigit (s : string) : bool :=
  match s with
  | EmptyString => false
  | _ => all_digits s
  end.

(** [c in s] for a one-character [c]. *)
Fixpoint contains (c : ascii) (s : string) : bool :=
  match s with
  | EmptyString => false
  | String a s' => Ascii.eqb a c || contains c s'
  end.

(** [s.replace(old, new)] for one-character [old] and [new]. *)
Fixpoint replace (old new : ascii) (s : string) : string :=
  match s with
  | EmptyString => EmptyString
  | String a s' =>
      String (if Ascii.eqb a old then new else a) (replace old new s')
  end.

(** [s.split(sep)] for a one-character [sep]; the result is never empty. *)
Fixpoint split (sep : ascii) (s : string) : list string :=
  match s with
  | EmptyString => [EmptyString]
  | String a s' =>
      if Ascii.eqb a sep then EmptyString :: split sep s'
      else match split sep s' with
           | h :: t => String a h :: t
           | [] => [String a EmptyString]
           end
  end.

(** [sep.join(parts)]. *)
Fixpoint join (sep : string) (parts : list string) : string :=
  match parts with
  | [] => EmptyString
  | [p] => p
  | p :: rest => p +:+ sep +:+ join sep rest
  end.

Definition endswith (s suffix : string) : bool :=
  let n := String.length s in
  let m := String.length suffix in
  (m <=? n)%nat && String.eqb (substring (n - m) m s) suffix.

Definition startswith (s pre : string) : bool := String.prefix pre s.

Fixpoint lstrip (s : string) : string :=
  match s with
  | EmptyString => EmptyString
  | String c s' => if isspace_char c then lstrip s' else s
  end.

Fixpoint rstrip (s : string) : string :=
  match s with
  | EmptyString => EmptyString
  | String c s' =>
      match rstrip s' with
      | EmptyString => if isspace_char c then EmptyString else String c EmptyString
      | r => String c r
      end
  end.

Definition strip (s : string) : string := rstrip (lstrip s).

(** [s.rfind(c)]: index of the last occurrence, [-1] when there is none. *)
Fixpoint rfind_from (c : ascii) (s : string) (i acc : Z) : Z :=
  match s with
  | EmptyString => acc
  | String a s' => rfind_from c s' (i + 1) (if Ascii.eqb a c then i else acc)
  end.

Definition rfind (c : ascii) (s : string) : Z := rfind_from c s 0 (-1).

(** The loop of [genericpath._splitext]: [steps] bounds the iterations of
    [while filenameIndex < dotIndex]. *)
Fixpoint splitext_scan (p : string) (dotIndex filenameIndex steps : nat)
  : string * string :=
  match steps with
  | O => (p, EmptyString)
  | S k =>
      if negb (String.eqb (substring filenameIndex 1 p) ".")
      then (substring 0 dotIndex p,
            substring dotIndex (String.length p - dotIndex) p)
      else splitext_scan p dotIndex (S filenameIndex) k
  end.

(** [os.path.splitext] ([posixpath]: separator [/], no alternative
    separator). *)
Definition splitext (p : string) : string * string :=
  let sepIndex := rfind "/" p in
  let dotIndex := rfind "." p in
  if (sepIndex <? dotIndex)%Z then
    let filenameIndex := Z.to_nat (sepIndex + 1) in
    splitext_scan p (Z.to_nat dotIndex) filenameIndex
      (Z.to_nat dotIndex - filenameIndex)
  else (p, EmptyString).

(** [str(n)] for a natural number. *)
Definition str_of_nat (n : nat) : string :=
  DecimalString.NilZero.string_of_uint (Nat.to_uint n).

End PyStr.

(** ** Outcomes of calls, printed messages, clock *)

Inductive exn : Type :=
| ValueError   (* [raise ValueError("No frames to save!")] *)
| OSError      (* a failing [open] or [write] on the ledger file *)
| IndexError.  (* a list subscript out of range *)

(** A call returns a value, raises, or never returns because it waits in a
    blocking library call ([queue.Queue.put] on a full queue). *)
Inductive result (A : Type) : Type :=
| Ok (a : A)
| Raise (e : exn)
| Blocked.
Arguments Ok {A} a.
Arguments Raise {A} e.
Arguments Blocked {A}.

(** The lines the program prints; the text of a caught exception is left
    out. *)
Inductive message : Type :=
| StatusLoading                    (* STATUS: Loading known faces... *)
| InfoFolderMissing                (* INFO: KnownFaces folder missing, ... *)
| WarningNoFace (fname : string)   (* WARNING: No face found in fname *)
| InfoLoaded (name : string)       (* INFO: Loaded name *)
| ErrorCouldNotLoad (fname : string)
| LogErrorRead                     (* LOG ERROR: Couldn't read attendance CSV *)
| InfoCameraOpened (idx : nat)     (* INFO: Camera idx opened *)
| FatalNoCamera                    (* FATAL: No camera detected *)
| InfoStoppingCamera.              (* INFO: Stopping camera thread... *)

(** [datetime.now()] as the program uses it. *)
Record datetime : Type := mkDatetime {
  year : nat; month : nat; day : nat;
  hour : nat; minute : nat; second : nat
}.

Definition pad2 (n : nat) : string :=
  if (n <? 10)%nat then "0" +:+ PyStr.str_of_nat n else PyStr.str_of_nat n.

Definition pad4 (n : nat) : string :=
  if (n <? 10)%nat then "000" +:+ PyStr.str_of_nat n
  else if (n <? 100)%nat then "00" +:+ PyStr.str_of_nat n
  else if (n <? 1000)%nat then "0" +:+ PyStr.str_of_nat n
  else PyStr.str_of_nat n.

(** [strftime("%Y-%m-%d")] *)
Definition strftime_date (t : datetime) : string :=
  pad4 (year t) +:+ "-" +:+ pad2 (month t) +:+ "-" +:+ pad2 (day t).

(** [strftime("%Y-%m-%d %H:%M:%S")] *)
Definition strftime_timestamp (t : datetime) : string :=
  strftime_date t +:+ " " +:+ pad2 (hour t) +:+ ":" +:+ pad2 (minute t)
  +:+ ":" +:+ pad2 (second t).

(** ** Constants *)

Definition RECOGNITION_TOLERANCE : Q := 6 # 10.
Definition TOTAL_PHOTOS_REQUIRED : nat := 3.
Definition newline : string := String (ascii_of_nat 10) EmptyString.
Definition LEDGER_HEADER : string := "Name,Timestamp" +:+ newline.

(** Faults of the ledger file during one [mark_attendance] call: none, the
    [open] raises, or the [k]-th [write] (counted from 0) raises. *)
Inductive fault : Type :=
| NoFault
| OpenFails
| WriteFails (k : nat).

(** Faults of the ledger file during one [load_today_log] call: none, the
    [open] raises, or the file stops being readable (an input or a decoding
    error) at the [k]-th line asked for (counted from 0, the header), after
    the [k] lines before it were delivered.  A file that ends before its
    [k]-th line is read through. *)
Inductive read_fault : Type :=
| NoReadFault
| ReadOpenFails
| ReadFails (k : nat).

(** ** State-and-exception monad *)

Definition M (S A : Type) : Type := S -> result A * S.

Definition ret {S A} (a : A) : M S A := fun s => (Ok a, s).

Definition bind {S A B} (m : M S A) (k : A -> M S B) : M S B :=
  fun s =>
    match m s with
    | (Ok a, s') => k a s'
    | (Raise e, s') => (Raise e, s')
    | (Blocked, s') => (Blocked, s')
    end.

Definition raise {S A} (e : exn) : M S A := fun s => (Raise e, s).
Definition get {S} : M S S := fun s => (Ok s, s).
Definition modify {S} (f : S -> S) : M S unit := fun s => (Ok tt, f s).

Notation "'let!' x ':=' m 'in' k" := (bind m (fun x => k))
  (at level 10, x name, m at level 100, k at level 200).
Notation "m ';;' k" := (bind m (fun _ => k))
  (at level 100, k at level 200, right associativity).

(** ** The application *)

Section App.

(** The external vision and codec capabilities. *)
Variables file image region encoding : Type.
(** [face_recognition.load_image_file]; [None] when it raises. *)
Variable load_image_file : file -> option image.
(** [face_recognition.face_locations(img, model="hog")] *)
Variable face_locations : image -> list region.
(** [face_recognition.face_encodings(img, known_face_locations)] *)
Variable face_encodings : image -> option (list region) -> list encoding.
(** The Euclidean distance between two embeddings
    ([np.linalg.norm(a - b)]), as a rational number. *)
Variable embedding_distance : encoding -> encoding -> Q.
(** The bytes [cv2.imwrite] stores for an image. *)
Variable imencode : image -> file.
Variable cvtColor_RGB2BGR cvtColor_BGR2RGB : image -> image.
(** [cv2.resize(frame, (0, 0), fx=FRAME_RESIZE_FACTOR, fy=FRAME_RESIZE_FACTOR)] *)
Variable resize : image -> image.
(** The rectangles and the label drawn for one face. *)
Variable draw_box : image -> region -> string -> image.

(** *** State *)

Record FaceDataManager : Type := mkFaceDataManager {
  known_encodings : list encoding;
  known_names : list string;
  logged_people : gset string
}.

(** [KnownFaces/] ([None]: the directory does not exist; the entries are in
    [os.listdir] order) and [Attendance.csv] ([None]: no such file). *)
Record FileSystem : Type := mkFileSystem {
  known_faces_dir : option (list (string * file));
  attendance_log : option string
}.

(** A [cv2.VideoCapture] object. *)
Record VideoCapture : Type := mkVideoCapture {
  device : nat;
  isOpened : bool
}.

Record CameraThread : Type := mkCameraThread {
  running : bool;
  cap : option VideoCapture;
  latest_frame : option image
}.

(** [queue.Queue(maxsize)] *)
Record Queue : Type := mkQueue {
  maxsize : nat;
  items : list image
}.

Record State : Type := mkState {
  data_manager : FaceDataManager;
  disk : FileSystem;
  stdout : list message;
  camera_thread : CameraThread;
  frame_queue : Queue;
  (** the capture devices this process holds open *)
  held_devices : list nat;
  (** the indices passed to [cv2.VideoCapture], in call order *)
  open_calls : list nat
}.

Definition with_data_manager (d : FaceDataManager) (s : State) : State :=
  mkState d (disk s) (stdout s) (camera_thread s) (frame_queue s)
          (held_devices s) (open_calls s).
Definition with_disk (f : FileSystem) (s : State) : State :=
  mkState (data_manager s) f (stdout s) (camera_thread s) (frame_queue s)
          (held_devices s) (open_calls s).
Definition with_stdout (o : list message) (s : State) : State :=
  mkState (data_manager s) (disk s) o (camera_thread s) (frame_queue s)
          (held_devices s) (open_calls s).
Definition with_camera_thread (c : CameraThread) (s : State) : State :=
  mkState (data_manager s) (disk s) (stdout s) c (frame_queue s)
          (held_devices s) (open_calls s).
Definition with_frame_queue (q : Queue) (s : State) : State :=
  mkState (data_manager s) (disk s) (stdout s) (camera_thread s) q
          (held_devices s) (open_calls s).
Definition with_devices (held calls : list nat) (s : State) : State :=
  mkState (data_manager s) (disk s) (stdout s) (camera_thread s)
          (frame_queue s) held calls.

Definition print (m : message) : M State unit :=
  modify (fun s => with_stdout (stdout s ++ [m]) s).

(** Line 79: [self.known_encodings = temp_encodings]. *)
Definition assign_known_encodings (encs : list encoding) : M State unit :=
  modify (fun s =>
    with_data_manager
      (mkFaceDataManager encs (known_names (data_manager s))
                         (logged_people (data_manager s))) s).

(** Line 80: [self.known_names = temp_names]. *)
Definition assign_known_names (names : list string) : M State unit :=
  modify (fun s =>
    with_data_manager
      (mkFaceDataManager (known_encodings (data_manager s)) names
                         (logged_people (data_manager s))) s).

Definition set_logged (l : gset string) : M State unit :=
  modify (fun s =>
    with_data_manager
      (mkFaceDataManager (known_encodings (data_manager s))
                         (known_names (data_manager s)) l) s).

Definition set_known_faces_dir (d : option (list (string * file)))
  : M State unit :=
  modify (fun s => with_disk (mkFileSystem d (attendance_log (disk s))) s).

Definition set_attendance_log (c : option string) : M State unit :=
  modify (fun s => with_disk (mkFileSystem (known_faces_dir (disk s)) c) s).

(** *** FaceDataManager.load_known_faces *)

(** Lines 60-62: the display name computed from a file name. *)
Definition name_of_fname (fname : string) : string :=
  let name := PyStr.replace "_" " " (fst (PyStr.splitext fname)) in
  if PyStr.contains "_" name
     && PyStr.isdigit (List.last (PyStr.split "_" name) EmptyString)
  then PyStr.join "_" (List.removelast (PyStr.split "_" name))
  else name.

Definition is_image_fname (fname : string) : bool :=
  let l := PyStr.lower fname in
  PyStr.endswith l ".jpg" || PyStr.endswith l ".jpeg"
  || PyStr.endswith l ".png".

(** One iteration of [for fname in os.listdir(KNOWN_FACES_DIR)]; the
    accumulator holds [temp_encodings] and [temp_names]. *)
Definition load_one (entry : string * file)
    (acc : list encoding * list string)
  : M State (list encoding * list string) :=
  let (fname, content) := entry in
  if negb (is_image_fname fname) then ret acc
  else
    let name := name_of_fname fname in
    match load_image_file content with
    | None => print (ErrorCouldNotLoad fname) ;; ret acc
    | Some img =>
        match face_encodings img None with
        | [] => print (WarningNoFace fname) ;; ret acc
        | enc0 :: _ =>
            print (InfoLoaded name) ;;
            ret (fst acc ++ [enc0], snd acc ++ [name])
        end
    end.

Fixpoint load_entries (entries : list (string * file))
    (acc : list encoding * list string)
  : M State (list encoding * list string) :=
  match entries with
  | [] => ret acc
  | e :: rest => let! acc' := load_one e acc in load_entries rest acc'
  end.

(** Lines 46-78: the status line, the directory test and the scan of the
    directory into [temp_encodings] and [temp_names]; [None] when the
    directory was missing and line 53 returns. *)
Definition scan_known_faces
  : M State (option (list encoding * list string)) :=
  print StatusLoading ;;
  let! s := get in
  match known_faces_dir (disk s) with
  | None =>
      print InfoFolderMissing ;;
      set_known_faces_dir (Some []) ;;
      ret None
  | Some entries =>
      let! temp := load_entries entries ([], []) in
      ret (Some temp)
  end.

(** The two lists are replaced one after the other, by the two assignments
    of lines 79 and 80. *)
Definition load_known_faces : M State unit :=
  let! scanned := scan_known_faces in
  match scanned with
  | None => ret tt
  | Some temp =>
      assign_known_encodings (fst temp) ;;
      assign_known_names (snd temp)
  end.

(** *** FaceDataManager.load_today_log *)

(** [for line in f] on a file opened in text mode: each line keeps its
    terminator, and the terminators CR LF and CR are read as LF. *)
Fixpoint file_lines (s : string) : list string :=
  match s with
  | EmptyString => []
  | String c s' =>
      if Ascii.eqb c (ascii_of_nat 10) then newline :: file_lines s'
      else if Ascii.eqb c (ascii_of_nat 13) then
        match s' with
        | String c' s'' =>
            if Ascii.eqb c' (ascii_of_nat 10) then newline :: file_lines s''
            else newline :: file_lines s'
        | EmptyString => [newline]
        end
      else
        match file_lines s' with
        | [] => [String c EmptyString]
        | l :: rest => String c l :: rest
        end
  end.

(** Lines 97-99: the name a ledger row contributes for [today_str]. *)
Definition row_name_today (today_str line : string) : option string :=
  match PyStr.split "," (PyStr.strip line) with
  | p0 :: p1 :: _ =>
      if PyStr.startswith p1 today_str then Some p0 else None
  | _ => None
  end.

Definition add_row_name (today_str : string) (acc : gset string)
    (line : string) : gset string :=
  match row_name_today today_str line with
  | Some n => acc ∪ {[ n ]}
  | None => acc
  end.

(** Lines 92-99 on the lines the file delivers: the first one is the
    header ([not header]: return), each later one may add a name. *)
Definition read_rows (today_str : string) (lines : list string)
  : M State unit :=
  match lines with
  | [] => ret tt
  | _ :: rows => set_logged (fold_left (add_row_name today_str) rows ∅)
  end.

(** The [try] of lines 90-101 spans the [open] and the whole loop: when the
    [open] raises nothing was read; when a later read raises, the names of
    the lines delivered before it stay in the set.  Either way the [except]
    clause prints the error line and the call returns. *)
Definition load_today_log (now : datetime) (rf : read_fault)
  : M State unit :=
  set_logged ∅ ;;
  let today_str := strftime_date now in
  let! s := get in
  match attendance_log (disk s) with
  | None => ret tt
  | Some content =>
      let lines := file_lines content in
      match rf with
      | NoReadFault => read_rows today_str lines
      | ReadOpenFails => print LogErrorRead
      | ReadFails k =>
          if (k <=? length lines)%nat
          then read_rows today_str (take k lines) ;; print LogErrorRead
          else read_rows today_str lines
      end
  end.

(** *** FaceDataManager.mark_attendance *)

(** [open(ATTENDANCE_LOG_FILE, mode)]: mode [w] creates or truncates. *)
Definition open_log (flt : fault) (mode_w : bool) : M State unit :=
  match flt with
  | OpenFails => raise OSError
  | _ => if mode_w then set_attendance_log (Some EmptyString) else ret tt
  end.

Definition append_log (text : string) : M State unit :=
  let! s := get in
  match attendance_log (disk s) with
  | Some content => set_attendance_log (Some (content +:+ text))
  | None => set_attendance_log (Some text)
  end.

(** The [k]-th [f.write(text)] of the call. *)
Definition write_log (flt : fault) (k : nat) (text : string)
  : M State unit :=
  match flt with
  | WriteFails j => if (j =? k)%nat then raise OSError else append_log text
  | _ => append_log text
  end.

Definition ledger_row (name : string) (now : datetime) : string :=
  name +:+ "," +:+ strftime_timestamp now +:+ newline.

Definition mark_attendance (flt : fault) (now : datetime) (name : string)
  : M State bool :=
  let! s := get in
  if bool_decide (name ∈ logged_people (data_manager s)) then ret false
  else
    let mode_w :=
      match attendance_log (disk s) with Some _ => false | None => true end in
    open_log flt mode_w ;;
    (if mode_w then write_log flt 0 LEDGER_HEADER else ret tt) ;;
    write_log flt (if mode_w then 1 else 0) (ledger_row name now) ;;
    let! s' := get in
    set_logged (logged_people (data_manager s') ∪ {[ name ]}) ;;
    ret true.

(** *** FaceDataManager.save_new_face *)

Fixpoint put_file (fname : string) (content : file)
    (entries : list (string * file)) : list (string * file) :=
  match entries with
  | [] => [(fname, content)]
  | (n, c) :: rest =>
      if String.eqb n fname then (n, content) :: rest
      else (n, c) :: put_file fname content rest
  end.

(** [cv2.imwrite(path, img)] for the path of [fname] under the directory.
    [accepted] tells whether the file system takes the file; it refuses, for
    instance, a name longer than it allows.  A write that is refused, or
    whose directory is missing, stores nothing and raises nothing: [imwrite]
    returns [False], and line 125 ignores what it returns.  A [fname] that
    holds a [/] is no entry name: its path leads below or out of the
    directory, and no entry of the directory is stored for it. *)
Definition imwrite (accepted : bool) (fname : string) (img : image)
  : M State unit :=
  let! s := get in
  match known_faces_dir (disk s) with
  | None => ret tt
  | Some entries =>
      if accepted && negb (PyStr.contains "/" fname)
      then set_known_faces_dir (Some (put_file fname (imencode img) entries))
      else ret tt
  end.

(** [for i, frm in enumerate(frames)], from index [i]; [accepted i] is the
    outcome of the write of the frame of index [i]. *)
Fixpoint save_frames (accepted : nat -> bool) (name : string) (i : nat)
    (frames : list image) : M State unit :=
  match frames with
  | [] => ret tt
  | frm :: rest =>
      let fname := name +:+ "_" +:+ PyStr.str_of_nat (i + 1) +:+ ".jpg" in
      imwrite (accepted i) fname (cvtColor_RGB2BGR frm) ;;
      save_frames accepted name (S i) rest
  end.

Definition save_new_face (accepted : nat -> bool) (name : string)
    (frames : list image) : M State unit :=
  match frames with
  | [] => raise ValueError
  | _ => save_frames accepted name 0 frames ;; load_known_faces
  end.

(** [FaceDataManager.__init__] *)
Definition FaceDataManager_init (now : datetime) (rf : read_fault)
  : M State unit :=
  modify (with_data_manager (mkFaceDataManager [] [] ∅)) ;;
  load_today_log now rf ;;
  load_known_faces.

(** *** The frame queue: [queue.Queue(maxsize=1)] *)

Definition full (q : Queue) : bool :=
  (0 <? maxsize q)%nat && (maxsize q <=? length (items q))%nat.

(** [q.put(x)], the blocking put: on a full queue it waits for a consumer. *)
Definition put (q : Queue) (x : image) : result Queue :=
  if full q then Blocked else Ok (mkQueue (maxsize q) (items q ++ [x])).

(** [q.get_nowait()]; [None] stands for [queue.Empty]. *)
Definition get_nowait (q : Queue) : option image * Queue :=
  match items q with
  | [] => (None, q)
  | x :: rest => (Some x, mkQueue (maxsize q) rest)
  end.

(** Lines 196-197: [if not q.full(): q.put(frame)]. *)
Definition publish (q : Queue) (frame : image) : result Queue :=
  if negb (full q) then put q frame else Ok q.

(** [publish] for each frame in turn, with no consumer in between. *)
Fixpoint publish_all (q : Queue) (frames : list image) : result Queue :=
  match frames with
  | [] => Ok q
  | f :: rest =>
      match publish q f with
      | Ok q' => publish_all q' rest
      | Raise e => Raise e
      | Blocked => Blocked
      end
  end.

Definition publish_frame (frame : image) : M State unit :=
  fun s =>
    match publish (frame_queue s) frame with
    | Ok q => (Ok tt, with_frame_queue q s)
    | Raise e => (Raise e, s)
    | Blocked => (Blocked, s)
    end.

(** *** Matching *)

(** [face_recognition.face_distance(known, enc)] *)
Definition face_distance (known : list encoding) (enc : encoding) : list Q :=
  List.map (fun k => embedding_distance k enc) known.

(** [face_recognition.compare_faces(known, enc, tolerance)], which the
    library defines as [list(face_distance(known, enc) <= tolerance)]. *)
Definition compare_faces (known : list encoding) (enc : encoding)
    (tolerance : Q) : list bool :=
  List.map (fun d => Qle_bool d tolerance) (face_distance known enc).

(** [np.argmin]: the index of the first occurrence of the minimum. *)
Fixpoint argmin_from (l : list Q) (i best_idx : nat) (best : Q) : nat :=
  match l with
  | [] => best_idx
  | d :: l' =>
      if negb (Qle_bool best d) then argmin_from l' (S i) i d
      else argmin_from l' (S i) best_idx best
  end.

Definition argmin (l : list Q) : nat :=
  match l with
  | [] => 0%nat  (* [np.argmin] raises here; the call is guarded by [len(distances) > 0] *)
  | d :: l' => argmin_from l' 1 0 d
  end.

Definition Unknown : string := "Unknown".

(** Lines 177-185, for one probe embedding. *)
Definition recognise (flt : fault) (now : datetime) (enc : encoding)
  : M State string :=
  let! s := get in
  match known_encodings (data_manager s) with
  | [] => ret Unknown
  | _ :: _ =>
      let known := known_encodings (data_manager s) in
      let matches := compare_faces known enc RECOGNITION_TOLERANCE in
      let distances := face_distance known enc in
      if (0 <? length distances)%nat then
        let best_idx := argmin distances in
        match matches !! best_idx with
        | None => raise IndexError
        | Some false => ret Unknown
        | Some true =>
            match known_names (data_manager s) !! best_idx with
            | None => raise IndexError
            | Some name => mark_attendance flt now name ;; ret name
            end
        end
      else ret Unknown
  end.

(** [for enc in encodings: ... names.append(name)] *)
Fixpoint recognise_all (flt : fault) (now : datetime)
    (encodings : list encoding) : M State (list string) :=
  match encodings with
  | [] => ret []
  | enc :: rest =>
      let! name := recognise flt now enc in
      let! names := recognise_all flt now rest in
      ret (name :: names)
  end.

(** *** CameraThread *)

Definition set_camera (f : CameraThread -> CameraThread) : M State unit :=
  modify (fun s => with_camera_thread (f (camera_thread s)) s).

(** [if self.cap: self.cap.release()]: a [VideoCapture] object is truthy;
    releasing one that is not opened does nothing. *)
Definition release_cap : M State unit :=
  let! s := get in
  match cap (camera_thread s) with
  | None => ret tt
  | Some c =>
      if isOpened c then
        modify (fun s =>
          with_devices (List.remove Nat.eq_dec (device c) (held_devices s))
                       (open_calls s) s) ;;
        set_camera (fun t =>
          mkCameraThread (running t)
                         (Some (mkVideoCapture (device c) false))
                         (latest_frame t))
      else ret tt
  end.

Section Devices.

(** Whether the capture device with a given index can be opened. *)
Variable openable : nat -> bool.

(** [cv2.VideoCapture(idx)] *)
Definition VideoCapture_new (idx : nat) : M State VideoCapture :=
  fun s =>
    (Ok (mkVideoCapture idx (openable idx)),
     with_devices
       (if openable idx then held_devices s ++ [idx] else held_devices s)
       (open_calls s ++ [idx]) s).

(** [for idx in idxs: ...] of [init_camera]; [true] when it returned from
    inside the loop. *)
Fixpoint try_open (idxs : list nat) : M State bool :=
  match idxs with
  | [] => ret false
  | idx :: rest =>
      let! c := VideoCapture_new idx in
      set_camera (fun t =>
        mkCameraThread (running t) (Some c) (latest_frame t)) ;;
      if isOpened c then print (InfoCameraOpened idx) ;; ret true
      else try_open rest
  end.

Definition init_camera : M State bool :=
  release_cap ;;
  let! opened := try_open [0; 1]%nat in
  if opened then ret true
  else
    print FatalNoCamera ;;
    set_camera (fun t => mkCameraThread false (cap t) (latest_frame t)) ;;
    ret false.

(** What the rest of the system does to the worker during one pass of
    the [while] loop, and what the device and the clock deliver. *)
Record tick : Type := mkTick {
  (** the UI thread called [stop()] before the loop test *)
  stop_requested : bool;
  (** the UI thread took the queued frame ([get_nowait]) *)
  consumer_polled : bool;
  (** [self.cap.read()]: [None] when [ret] is false *)
  grabbed : option image;
  clock : datetime;
  ledger_fault : fault
}.

Definition environment (t : tick) : M State unit :=
  (if stop_requested t
   then set_camera (fun c => mkCameraThread false (cap c) (latest_frame c))
   else ret tt) ;;
  (if consumer_polled t
   then modify (fun s => with_frame_queue (snd (get_nowait (frame_queue s))) s)
   else ret tt).

(** Lines 161-199: the body of the [while] loop. *)
Definition loop_body (t : tick) : M State unit :=
  match grabbed t with
  | None => ret tt
  | Some frame =>
      set_camera (fun c =>
        mkCameraThread (running c) (cap c)
                       (Some (cvtColor_BGR2RGB frame))) ;;
      let small := resize frame in
      let rgb_small := cvtColor_BGR2RGB small in
      let faces := face_locations rgb_small in
      let encodings := face_encodings rgb_small (Some faces) in
      let! names := recognise_all (ledger_fault t) (clock t) encodings in
      let drawn :=
        fold_left (fun f bn => draw_box f (fst bn) (snd bn))
                  (combine faces names) frame in
      publish_frame (cvtColor_BGR2RGB drawn)
  end.

(** [while self.running: ...]: [true] when the loop was left, [false]
    when the schedule ended with the worker still running. *)
Fixpoint loop (ticks : list tick) : M State bool :=
  match ticks with
  | [] => let! s := get in ret (negb (running (camera_thread s)))
  | t :: rest =>
      environment t ;;
      let! s := get in
      if running (camera_thread s) then loop_body t ;; loop rest
      else ret true
  end.

Inductive completion : Type :=
| Returned       (* [run] returned *)
| StillRunning.  (* the schedule ended inside the loop *)

Definition run (ticks : list tick) : M State completion :=
  let! ok := init_camera in
  if negb ok then ret Returned
  else
    let! exited := loop ticks in
    if exited then release_cap ;; ret Returned
    else ret StillRunning.

End Devices.

(** [CameraThread.take_snapshot] *)
Definition take_snapshot (t : CameraThread) : option image := latest_frame t.

(** *** RegistrationWindow.process_capture *)

Record RegistrationWindow : Type := mkRegistrationWindow {
  captured_frames : list image;
  capture_count : nat;
  capture_enabled : bool
}.

Inductive capture_event : Type :=
| InputError                       (* message box "Input Error" *)
| CameraError                      (* message box "Camera Error" *)
| PhotoCaptured                    (* more photos are needed *)
| SaveScheduled (name : string).   (* [save_all_frames(name)] is scheduled *)

(** [name[0].isalpha()]; not evaluated on an empty name. *)
Definition first_isalpha (name : string) : bool :=
  match name with
  | EmptyString => false
  | String c _ => PyStr.isalpha_char c
  end.

(** Line 248: [not name or ' ' in name or not name[0].isalpha()]. *)
Definition name_rejected (name : string) : bool :=
  String.eqb name EmptyString || PyStr.contains " " name
  || negb (first_isalpha name).

Definition process_capture (entry : string) (cam : CameraThread)
    (w : RegistrationWindow) : capture_event * RegistrationWindow :=
  let name := PyStr.strip entry in
  if name_rejected name then (InputError, w)
  else
    match take_snapshot cam with
    | None =>
        (CameraError,
         mkRegistrationWindow (captured_frames w) (capture_count w) true)
    | Some snap =>
        let frames := captured_frames w ++ [snap] in
        let count := (capture_count w + 1)%nat in
        if (count <? TOTAL_PHOTOS_REQUIRED)%nat
        then (PhotoCaptured, mkRegistrationWindow frames count true)
        else (SaveScheduled name, mkRegistrationWindow frames count false)
    end.

(** *** CameraThread.stop, CTKAttendanceApp.on_closing *)

(** [CameraThread.stop] *)
Definition stop : M State unit :=
  set_camera (fun c => mkCameraThread false (cap c) (latest_frame c)).

(** [CTKAttendanceApp.on_closing]: prints that the worker is being stopped
    and stops it (the window is destroyed 500 ms later). *)
Definition on_closing : M State unit :=
  print InfoStoppingCamera ;;
  stop.

(** *** The main window (lines 282-368) *)

(** The variables of [CTKAttendanceApp] the code reads back or shows. *)
Record AppWindow : Type := mkAppWindow {
  status_text : string;
  log_count_text : string;
  prev_log_count : nat;
  (** the image shown in [video_label] *)
  video_image : option image;
  (** how many times [_animate_status] was called *)
  status_flashes : nat
}.

Definition set_status_text (text : string) (ui : AppWindow) : AppWindow :=
  mkAppWindow text (log_count_text ui) (prev_log_count ui) (video_image ui)
              (status_flashes ui).

(** [CTKAttendanceApp._update_logged_count_display] *)
Definition _update_logged_count_display (ui : AppWindow)
  : M State AppWindow :=
  let! s := get in
  ret (mkAppWindow (status_text ui)
         ("TODAY LOGGED: "
          +:+ PyStr.str_of_nat (size (logged_people (data_manager s))))
         (prev_log_count ui) (video_image ui) (status_flashes ui)).

(** [CTKAttendanceApp.reload_known_faces]: the bare [except] turns any
    exception of the reload into the error status. *)
Definition reload_known_faces (ui : AppWindow) : M State AppWindow :=
  fun s =>
    match load_known_faces s with
    | (Ok _, s') =>
        (Ok (set_status_text
               ("Database reloaded. Tracking "
                +:+ PyStr.str_of_nat (length (known_names (data_manager s')))
                +:+ " users.") ui), s')
    | (Raise _, s') =>
        (Ok (set_status_text "ERROR: Failed to reload database." ui), s')
    | (Blocked, s') => (Blocked, s')
    end.

(** The resize to 640x480 and the conversion to a Tk image. *)
Variable to_photo : image -> image.

(** The worker thread runs beside the UI thread.  What it does to the
    shared state while the UI thread is between two of its own accesses is a
    function of that state: the identity when the worker is not scheduled
    there, a part of [run] otherwise. *)
Definition worker_steps : Type := State -> State.

(** [CTKAttendanceApp._update_frame], without the rescheduling: one poll of
    the frame queue by the UI thread.  The size of the logged-today set is
    read on line 348 and, when it differs from the count last seen, once more
    on line 336; the worker runs for [w1] between the poll and the first
    read, and for [w2] between the two reads. *)
Definition _update_frame (w1 w2 : worker_steps) (ui : AppWindow)
  : M State AppWindow :=
  let! s := get in
  match get_nowait (frame_queue s) with
  | (None, _) => ret ui   (* [queue.Empty]: pass *)
  | (Some rgb_frame, q) =>
      modify (with_frame_queue q) ;;
      modify w1 ;;
      let! s1 := get in
      let cur_count := size (logged_people (data_manager s1)) in
      let! ui1 :=
        (if negb (prev_log_count ui =? cur_count)%nat then
           modify w2 ;;
           _update_logged_count_display
             (mkAppWindow
                ("CHECK-IN SUCCESSFUL! Total: " +:+ PyStr.str_of_nat cur_count)
                (log_count_text ui) cur_count (video_image ui)
                (S (status_flashes ui)))
         else ret ui) in
      ret (mkAppWindow (status_text ui1) (log_count_text ui1)
             (prev_log_count ui1) (Some (to_photo rgb_frame))
             (status_flashes ui1))
  end.

(** [CTKAttendanceApp.__init__]: the data manager, the one-slot queue, the
    worker object and its start (line 293), then the status line, the count
    last seen and (in [_setup_ui]) the first display of the count.  Once
    started, the worker runs for [w1] before the number of gallery entries
    is read (line 295), for [w2] before the size of the logged-today set is
    read (line 297) and for [w3] before it is read again (line 336). *)
Definition CTKAttendanceApp_init (now : datetime) (rf : read_fault)
    (w1 w2 w3 : worker_steps) : M State AppWindow :=
  FaceDataManager_init now rf ;;
  modify (with_frame_queue (mkQueue 1 [])) ;;
  modify (with_camera_thread (mkCameraThread true None None)) ;;
  modify w1 ;;
  let! s1 := get in
  let status :=
    "STATUS: Ready. "
    +:+ PyStr.str_of_nat (length (known_names (data_manager s1)))
    +:+ " users loaded." in
  modify w2 ;;
  let! s2 := get in
  let prev := size (logged_people (data_manager s2)) in
  modify w3 ;;
  _update_logged_count_display (mkAppWindow status EmptyString prev None 0).

(** *** RegistrationWindow.save_all_frames *)

Inductive save_event : Type :=
| Registered (name : string) (photos : nat)  (* "Success!", window destroyed *)
| CouldNotSave.                              (* "Could not save: ..." *)

Definition save_all_frames (accepted : nat -> bool) (name : string)
    (w : RegistrationWindow) (ui : AppWindow)
  : M State (save_event * RegistrationWindow * AppWindow) :=
  fun s =>
    match save_new_face accepted name (captured_frames w) s with
    | (Ok _, s1) =>
        match reload_known_faces ui s1 with
        | (Ok ui', s2) =>
            (Ok (Registered name (length (captured_frames w)), w, ui'), s2)
        | (Raise _, s2) =>
            (Ok (CouldNotSave,
                 mkRegistrationWindow (captured_frames w) (capture_count w)
                                      true, ui), s2)
        | (Blocked, s2) => (Blocked, s2)
        end
    | (Raise _, s1) =>
        (Ok (CouldNotSave,
             mkRegistrationWindow (captured_frames w) (capture_count w) true,
             ui), s1)
    | (Blocked, s1) => (Blocked, s1)
    end.

End App.

Arguments mkState {file image encoding}.
Arguments mkFaceDataManager {encoding}.
Arguments mkFileSystem {file}.
Arguments mkCameraThread {image}.
Arguments mkQueue {image}.
Arguments mkTick {image}.
Arguments mkRegistrationWindow {image}.
Arguments data_manager {file image encoding}.
Arguments disk {file image encoding}.
Arguments stdout {file image encoding}.
Arguments camera_thread {file image encoding}.
Arguments frame_queue {file image encoding}.
Arguments held_devices {file image encoding}.
Arguments open_calls {file image encoding}.
Arguments known_encodings {encoding}.
Arguments known_names {encoding}.
Arguments logged_people {encoding}.
Arguments known_faces_dir {file}.
Arguments attendance_log {file}.
Arguments running {image}.
Arguments cap {image}.
Arguments latest_frame {image}.
Arguments maxsize {image}.
Arguments items {image}.
Arguments full {image}.
Arguments put {image}.
Arguments get_nowait {image}.
Arguments publish {image}.
Arguments publish_all {image}.
Arguments publish_frame {file image encoding}.
Arguments print {file image encoding}.
Arguments assign_known_encodings {file image encoding}.
Arguments assign_known_names {file image encoding}.
Arguments set_logged {file image encoding}.
Arguments set_known_faces_dir {file image encoding}.
Arguments set_attendance_log {file image encoding}.
Arguments set_camera {file image encoding}.
Arguments with_data_manager {file image encoding}.
Arguments with_disk {file image encoding}.
Arguments with_stdout {file image encoding}.
Arguments with_camera_thread {file image encoding}.
Arguments with_frame_queue {file image encoding}.
Arguments with_devices {file image encoding}.
Arguments load_one {file image region encoding}.
Arguments load_entries {file image region encoding}.
Arguments scan_known_faces {file image region encoding}.
Arguments load_known_faces {file image region encoding}.
Arguments read_rows {file image encoding}.
Arguments load_today_log {file image encoding}.
Arguments open_log {file image encoding}.
Arguments append_log {file image encoding}.
Arguments write_log {file image encoding}.
Arguments mark_attendance {file image encoding}.
Arguments imwrite {file image encoding}.
Arguments save_frames {file image encoding}.
Arguments save_new_face {file image region encoding}.
Arguments FaceDataManager_init {file image region encoding}.
Arguments face_distance {encoding}.
Arguments compare_faces {encoding}.
Arguments recognise {file image encoding}.
Arguments recognise_all {file image encoding}.
Arguments release_cap {file image encoding}.
Arguments VideoCapture_new {file image encoding}.
Arguments try_open {file image encoding}.
Arguments init_camera {file image encoding}.
Arguments environment {file image encoding}.
Arguments loop_body {file image region encoding}.
Arguments loop {file image region encoding}.
Arguments run {file image region encoding}.
Arguments stop_requested {image}.
Arguments consumer_polled {image}.
Arguments grabbed {image}.
Arguments clock {image}.
Arguments ledger_fault {image}.
Arguments take_snapshot {image}.
Arguments captured_frames {image}.
Arguments capture_count {image}.
Arguments capture_enabled {image}.
Arguments process_capture {image}.
Arguments put_file {file}.
Arguments stop {file image encoding}.
Arguments on_closing {file image encoding}.
Arguments mkAppWindow {image}.
Arguments status_text {image}.
Arguments log_count_text {image}.
Arguments prev_log_count {image}.
Arguments video_image {image}.
Arguments status_flashes {image}.
Arguments set_status_text {image}.
Arguments _update_logged_count_display {file image encoding}.
Arguments reload_known_faces {file image region encoding}.
Arguments _update_frame {file image encoding}.
Arguments CTKAttendanceApp_init {file image region encoding}.
Arguments save_all_frames {file image region encoding}.

(** ** A concrete instance, for evaluating the program

    Files and images are numbers, every image shows one face, an embedding
    is a single rational coordinate (so the Euclidean distance is the
    absolute difference). *)

Module Demo.

Definition load_image_file (f : nat) : option nat := Some f.
Definition face_locations (img : nat) : list nat := [img].
Definition face_encodings (img : nat) (_ : option (list nat)) : list Q :=
  [inject_Z (Z.of_nat img) / 10]%Q.
Definition embedding_distance (a b : Q) : Q := Qabs (a - b).
Definition imencode (img : nat) : nat := img.
Definition cvtColor (img : nat) : nat := img.
Definition resize (img : nat) : nat := img.
Definition draw_box (img : nat) (_ : nat) (_ : string) : nat := img.

Definition noon : datetime := mkDatetime 2024 5 17 12 0 0.

(** The state right after the module is imported and the camera thread
    object is built: nothing loaded, nothing printed, the queue empty. *)
Definition fresh (dir : option (list (string * nat)))
    (log : option string) : State nat nat Q :=
  mkState (mkFaceDataManager [] [] ∅) (mkFileSystem dir log) []
          (mkCameraThread true None None) (mkQueue 1 []) [] [].

Definition gallery (encs : list Q) (names : list string)
    (logged : gset string) (log : option string) : State nat nat Q :=
  mkState (mkFaceDataManager encs names logged) (mkFileSystem (Some []) log)
          [] (mkCameraThread true None None) (mkQueue 1 []) [] [].

Definition tab : string := String (ascii_of_nat 9) EmptyString.

(** One pass of the loop that grabs the frame [img]; a stop request. *)
Definition frame_tick (img : nat) (flt : fault) : tick nat :=
  mkTick false false (Some img) noon flt.
Definition stop_tick : tick nat := mkTick true false None noon NoFault.

Definition run (openable : nat -> bool) (ticks : list (tick nat))
  : M (State nat nat Q) completion :=
  run face_locations face_encodings embedding_distance cvtColor resize
      draw_box openable ticks.

End Demo.

(** ** Predicates used in the statements *)

Fixpoint all_chars (p : ascii -> bool) (s : string) : bool :=
  match s with
  | EmptyString => true
  | String c s' => p c && all_chars p s'
  end.

(** A letter or the enrollment separator. *)
Definition letter_or_underscore (c : ascii) : bool :=
  PyStr.isalpha_char c || Ascii.eqb c "_".

(** The gallery lists are aligned: one name per embedding. *)
Definition gallery_aligned {file image encoding}
    (s : State file image encoding) : Prop :=
  length (known_encodings (data_manager s))
  = length (known_names (data_manager s)).

(** The ledger content a call sees: the header when the file is absent. *)
Definition ledger_before {file image encoding}
    (s : State file image encoding) : string :=
  match attendance_log (disk s) with
  | Some content => content
  | None => LEDGER_HEADER
  end.

(** What the worker holds of the capture devices: its handle and the
    devices held open. *)
Definition device_view {file image encoding}
    (s : State file image encoding) : option VideoCapture * list nat :=
  (cap (camera_thread s), held_devices s).

(** The devices held open are exactly the one behind an opened handle. *)
Definition devices_match_handle {file image encoding}
    (s : State file image encoding) : Prop :=
  held_devices s
  = match cap (camera_thread s) with
    | Some c => if isOpened c then [device c] else []
    | None => []
    end.

(** A computation leaves a view of the state as it was, however it ends. *)
Definition keeps {S A B : Type} (view : S -> B) (m : M S A) : Prop :=
  forall s, view (snd (m s)) = view s.

(** A computation never waits in a blocking call. *)
Definition never_blocks {S A : Type} (m : M S A) : Prop :=
  forall s, fst (m s) <> Blocked.

(** A computation always returns a value, and keeps a property of the
    state. *)
Definition returns_keeping {S A : Type} (P : S -> Prop) (m : M S A) : Prop :=
  forall s, P s -> exists a s', m s = (Ok a, s') /\ P s'.

(** A computation moves the state along a relation, however it ends. *)
Definition steps {S A : Type} (R : S -> S -> Prop) (m : M S A) : Prop :=
  forall s, R s (snd (m s)).

(** The entry of the gallery a directory entry gives, if any: an image file
    that loads and shows a face, under its display name, with the embedding
    of the first face found. *)
Definition gallery_entry {file image region encoding}
    (load_image_file : file -> option image)
    (face_encodings : image -> option (list region) -> list encoding)
    (entry : string * file) : option (encoding * string) :=
  if is_image_fname (fst entry) then
    match load_image_file (snd entry) with
    | Some img =>
        match face_encodings img None with
        | enc0 :: _ => Some (enc0, name_of_fname (fst entry))
        | [] => None
        end
    | None => None
    end
  else None.

Definition gallery_of_directory {file image region encoding}
    (load_image_file : file -> option image)
    (face_encodings : image -> option (list region) -> list encoding)
    (entries : list (string * file)) : list (encoding * string) :=
  omap (gallery_entry load_image_file face_encodings) entries.

(** The content of a file of the directory. *)
Fixpoint dir_lookup {file} (fname : string) (entries : list (string * file))
  : option file :=
  match entries with
  | [] => None
  | (n, c) :: rest =>
      if String.eqb n fname then Some c else dir_lookup fname rest
  end.

(** The file name [save_new_face] gives to the frame of index [i]. *)
Definition photo_fname (name : string) (i : nat) : string :=
  name +:+ "_" +:+ PyStr.str_of_nat (i + 1) +:+ ".jpg".

(** The names a ledger content gives for a date: the rows after the first
    line whose second field starts with the date. *)
Definition names_today (today_str content : string) : gset string :=
  match file_lines content with
  | [] => ∅
  | _ :: rows => fold_left (add_row_name today_str) rows ∅
  end.

(** The ledger file and the logged-today set only grow. *)
Definition ledger_grows {file image encoding}
    (s s' : State file image encoding) : Prop :=
  (forall content, attendance_log (disk s) = Some content ->
     exists more, attendance_log (disk s') = Some (content +:+ more))
  /\ logged_people (data_manager s) ⊆ logged_people (data_manager s').

(** What the worker leaves alone: the gallery lists and the gallery
    directory. *)
Definition gallery_view {file image encoding}
    (s : State file image encoding)
  : list encoding * list string * option (list (string * file)) :=
  (known_encodings (data_manager s), known_names (data_manager s),
   known_faces_dir (disk s)).

(** The frame the worker keeps for snapshots. *)
Definition snapshot_view {file image encoding}
    (s : State file image encoding) : option image :=
  latest_frame (camera_thread s).

(** The two sides of the frame queue: the worker publishes, the UI polls. *)
Inductive channel_op (image : Type) : Type :=
| Publish (frame : image)
| Poll.
Arguments Publish {image} frame.
Arguments Poll {image}.

Fixpoint published {image} (ops : list (channel_op image)) : list image :=
  match ops with
  | [] => []
  | Publish f :: rest => f :: published rest
  | Poll :: rest => published rest
  end.

(** The frames the polls receive, in order, and the queue left. *)
Fixpoint channel_run {image} (ops : list (channel_op image)) (q : Queue image)
  : list image * Queue image :=
  match ops with
  | [] => ([], q)
  | Publish f :: rest =>
      match publish q f with
      | Ok q' => channel_run rest q'
      | _ => ([], q)
      end
  | Poll :: rest =>
      match get_nowait q with
      | (Some x, q') => (x :: fst (channel_run rest q'), snd (channel_run rest q'))
      | (None, q') => channel_run rest q'
      end
  end.

(** The count shown in the window is the count last seen. *)
Definition count_shown {image} (ui : AppWindow image) : Prop :=
  log_count_text ui
  = "TODAY LOGGED: " +:+ PyStr.str_of_nat (prev_log_count ui).

(** A character of a timestamp: a decimal digit, [-], [:] or a space. *)
Definition decimal_digit (c : ascii) : bool :=
  PyStr.between 48 57 (PyStr.ord c).

Definition timestamp_char (c : ascii) : bool :=
  decimal_digit c || Ascii.eqb c "-" || Ascii.eqb c ":" || Ascii.eqb c " ".

(** A name that a ledger row gives back: no comma, no line break, no
    leading whitespace. *)
Definition row_safe (name : string) : Prop :=
  PyStr.contains "," name = false
  /\ PyStr.contains (ascii_of_nat 10) name = false
  /\ PyStr.contains (ascii_of_nat 13) name = false
  /\ PyStr.lstrip name = name.

(** ** The string operations on examples *)

Example splitext_examples :
  PyStr.splitext "Jane_Doe_1.jpg" = ("Jane_Doe_1", ".jpg")
  /\ PyStr.splitext ".jpg" = (".jpg", EmptyString)
  /\ PyStr.splitext "archive.tar.png" = ("archive.tar", ".png")
  /\ PyStr.splitext "noext" = ("noext", EmptyString).
Proof. repeat split. Qed.

Example split_join_examples :
  PyStr.split "_" "Jane_Doe_1" = ["Jane"; "Doe"; "1"]
  /\ PyStr.split "_" "a__b_" = ["a"; EmptyString; "b"; EmptyString]
  /\ PyStr.join "_" ["Jane"; "Doe"] = "Jane_Doe"
  /\ PyStr.isdigit "12" = true /\ PyStr.isdigit EmptyString = false.
Proof. repeat split. Qed.

Example strip_examples :
  PyStr.strip "  Jane Doe " = "Jane Doe"
  /\ PyStr.strip ("Jane" +:+ Demo.tab) = "Jane"
  /\ PyStr.strip "   " = EmptyString.
Proof. repeat split. Qed.

Example is_image_fname_examples :
  is_image_fname "A.JPG" = true /\ is_image_fname "b.jpeg" = true
  /\ is_image_fname "c.png" = true /\ is_image_fname "notes.txt" = false.
Proof. repeat split. Qed.

Example strftime_example :
  strftime_timestamp (mkDatetime 2024 5 7 9 3 0) = "2024-05-07 09:03:00".
Proof. reflexivity. Qed.

(** A ledger with one row of today and one of the day before. *)
Example load_today_log_example :
  logged_people
    (data_manager
       (snd (load_today_log Demo.noon NoReadFault
               (Demo.fresh (Some [])
                  (Some (LEDGER_HEADER
                         +:+ "Ann,2024-05-17 09:00:00" +:+ newline
                         +:+ "Ben,2024-05-16 10:00:00" +:+ newline))))))
  = {[ "Ann" ]}.
Proof. vm_compute. reflexivity. Qed.

(** ** Name derivation (lines 60-62) *)

Lemma contains_replace (old new : ascii) (s : string) :
  old <> new -> PyStr.contains old (PyStr.replace old new s) = false.
Proof.
  intros Hne. induction s as [|a s IH]; simpl; [reflexivity|].
  rewrite IH, orb_false_r.
  destruct (Ascii.eqb a old) eqn:Ha.
  - apply Ascii.eqb_neq. congruence.
  - exact Ha.
Qed.

Lemma name_of_fname_replace (fname : string) :
  name_of_fname fname = PyStr.replace "_" " " (fst (PyStr.splitext fname)).
Proof.
  unfold name_of_fname.
  rewrite contains_replace by discriminate.
  reflexivity.
Qed.

(** C1 (the code differs from the claim).  The underscores are replaced
    before the test for a trailing number, so the test [if "_" in name] never
    succeeds and the number stays in the display name: the gallery
    [Jane_Doe_1.jpg], [Jane_Doe_2.jpg] is loaded as two entries named
    "Jane Doe 1" and "Jane Doe 2", one embedding each, and not under the one
    display name "Jane Doe". *)
Theorem load_known_faces_keeps_numeric_suffix :
  (forall fname : string,
      name_of_fname fname
      = PyStr.replace "_" " " (fst (PyStr.splitext fname)))
  /\ (let s :=
        snd (load_known_faces Demo.load_image_file Demo.face_encodings
               (Demo.fresh (Some [("Jane_Doe_1.jpg", 1%nat);
                                  ("Jane_Doe_2.jpg", 2%nat)]) None)) in
      known_names (data_manager s) = ["Jane Doe 1"; "Jane Doe 2"]
      /\ length (known_encodings (data_manager s)) = 2%nat
      /\ known_names (data_manager s) <> ["Jane Doe"; "Jane Doe"]).
Proof.
  split; [exact name_of_fname_replace|].
  vm_compute. repeat split; discriminate.
Qed.

(** ** The frame queue (lines 196-197, 290) *)

Section QueueFacts.

Context {image : Type}.
Implicit Types (q : Queue image) (f : image) (frames : list image).

Lemma publish_returns q f : exists q', publish q f = Ok q'.
Proof.
  unfold publish, put.
  destruct (full q); simpl; eauto.
Qed.

Lemma publish_all_returns frames :
  forall q, exists q', publish_all q frames = Ok q'.
Proof.
  induction frames as [|f rest IH]; intros q; simpl; [eauto|].
  destruct (publish_returns q f) as [q' ->]. apply IH.
Qed.

Lemma publish_occupied x f : publish (mkQueue 1 [x]) f = Ok (mkQueue 1 [x]).
Proof. reflexivity. Qed.

Lemma publish_all_occupied x frames :
  publish_all (mkQueue 1 [x]) frames = Ok (mkQueue 1 [x]).
Proof.
  induction frames as [|f rest IH]; simpl; [reflexivity|exact IH].
Qed.

End QueueFacts.

(** C2, as stated, fails: after publishing frame 1 and then frame 2 with no
    consumer in between, the slot holds frame 1, not the latest frame. *)
Lemma publish_latest_frame_wins_counterexample :
  exists q, publish_all (mkQueue 1 []) [1; 2]%nat = Ok q
            /\ items q = [1%nat] /\ items q <> [2%nat].
Proof.
  exists (mkQueue 1 [1%nat]). repeat split. discriminate.
Qed.

(** ** Name validation (lines 247-250) *)

Lemma letter_or_underscore_not_space (c : ascii) :
  letter_or_underscore c = true ->
  PyStr.isspace_char c = false /\ Ascii.eqb c " " = false.
Proof.
  destruct c as [[] [] [] [] [] [] [] []]; vm_compute; intros H;
    first [discriminate H | split; reflexivity].
Qed.

Lemma lstrip_no_space (s : string) :
  all_chars (fun c => negb (PyStr.isspace_char c)) s = true ->
  PyStr.lstrip s = s.
Proof.
  destruct s as [|c s]; simpl; [reflexivity|].
  intros H. apply andb_true_iff in H as [Hc _].
  apply negb_true_iff in Hc. rewrite Hc. reflexivity.
Qed.

Lemma rstrip_no_space (s : string) :
  all_chars (fun c => negb (PyStr.isspace_char c)) s = true ->
  PyStr.rstrip s = s.
Proof.
  induction s as [|c s IH]; simpl; [reflexivity|].
  intros H. apply andb_true_iff in H as [Hc Hs].
  apply negb_true_iff in Hc. rewrite (IH Hs), Hc.
  destruct s; reflexivity.
Qed.

Lemma all_chars_impl (p q : ascii -> bool) (s : string) :
  (forall c, p c = true -> q c = true) ->
  all_chars p s = true -> all_chars q s = true.
Proof.
  intros Hpq. induction s as [|c s IH]; simpl; [reflexivity|].
  intros H. apply andb_true_iff in H as [Hc Hs].
  rewrite (Hpq c Hc), (IH Hs). reflexivity.
Qed.

Lemma strip_letters_and_underscores (s : string) :
  all_chars letter_or_underscore s = true -> PyStr.strip s = s.
Proof.
  intros H.
  assert (Hns : all_chars (fun c => negb (PyStr.isspace_char c)) s = true).
  { apply (all_chars_impl letter_or_underscore); [|exact H].
    intros c Hc. apply negb_true_iff.
    apply (letter_or_underscore_not_space c Hc). }
  unfold PyStr.strip. rewrite (lstrip_no_space s Hns).
  apply (rstrip_no_space s Hns).
Qed.

Lemma contains_space_letters_and_underscores (s : string) :
  all_chars letter_or_underscore s = true -> PyStr.contains " " s = false.
Proof.
  induction s as [|c s IH]; simpl; [reflexivity|].
  intros H. apply andb_true_iff in H as [Hc Hs].
  rewrite (IH Hs).
  destruct (letter_or_underscore_not_space c Hc) as [_ ->]. reflexivity.
Qed.

Lemma name_rejected_iff (name : string) :
  name_rejected name = true
  <-> name = EmptyString \/ PyStr.contains " " name = true
      \/ first_isalpha name = false.
Proof.
  unfold name_rejected. rewrite !orb_true_iff, negb_true_iff.
  rewrite String.eqb_eq. tauto.
Qed.

Section Registration.

Context {image : Type}.
Implicit Types (cam : CameraThread image) (w : RegistrationWindow image).

Lemma process_capture_rejected entry cam w :
  name_rejected (PyStr.strip entry) = true ->
  process_capture entry cam w = (InputError, w).
Proof. unfold process_capture. intros ->. reflexivity. Qed.

Lemma process_capture_accepted entry cam w :
  name_rejected (PyStr.strip entry) = false ->
  fst (process_capture entry cam w) <> InputError.
Proof.
  unfold process_capture. intros ->.
  destruct (take_snapshot cam); [|discriminate].
  destruct (_ <? _)%nat; discriminate.
Qed.

(** C6, as the code has it.  The entered text is first stripped of leading
    and trailing whitespace.  The capture step answers with the input error,
    takes no snapshot and leaves the window state as it was, exactly when
    the stripped name is empty, contains a space character, or does not
    start with a letter.  A name made only of letters and underscores that
    starts with a letter is accepted. *)
Theorem process_capture_validation entry cam w :
  (fst (process_capture entry cam w) = InputError
   <-> PyStr.strip entry = EmptyString
       \/ PyStr.contains " " (PyStr.strip entry) = true
       \/ first_isalpha (PyStr.strip entry) = false)
  /\ (fst (process_capture entry cam w) = InputError ->
      process_capture entry cam w = (InputError, w))
  /\ (all_chars letter_or_underscore entry = true ->
      first_isalpha entry = true ->
      fst (process_capture entry cam w) <> InputError).
Proof.
  rewrite <- name_rejected_iff.
  destruct (name_rejected (PyStr.strip entry)) eqn:Hrej.
  - rewrite (process_capture_rejected entry cam w Hrej). simpl.
    split; [tauto|]. split; [reflexivity|].
    intros Hall Hfirst. exfalso.
    rewrite (strip_letters_and_underscores entry Hall) in Hrej.
    apply name_rejected_iff in Hrej as [-> | [Hsp | Hf]].
    + discriminate Hfirst.
    + rewrite (contains_space_letters_and_underscores entry Hall) in Hsp.
      discriminate Hsp.
    + congruence.
  - pose proof (process_capture_accepted entry cam w Hrej) as Hacc.
    split; [|split].
    + split; [contradiction | discriminate].
    + contradiction.
    + intros _ _. exact Hacc.
Qed.

End Registration.

(** C6: a letters-and-underscore name is accepted, a stripped name with a
    space is rejected and nothing is captured. *)
Lemma process_capture_validation_witness :
  fst (process_capture "Jane_Doe" (mkCameraThread true None (Some 7%nat))
         (mkRegistrationWindow [] 0 true)) <> InputError
  /\ process_capture "Jane Doe" (mkCameraThread true None (Some 7%nat))
       (mkRegistrationWindow [] 0 true)
     = (InputError, mkRegistrationWindow [] 0 true).
Proof.
  split.
  - apply (process_capture_validation "Jane_Doe"
             (mkCameraThread true None (Some 7%nat))
             (mkRegistrationWindow [] 0 true)); reflexivity.
  - pose proof (process_capture_validation "Jane Doe"
                  (mkCameraThread true None (Some 7%nat))
                  (mkRegistrationWindow [] 0 true)) as [Hiff [Hsame _]].
    apply Hsame. apply Hiff. right. left. reflexivity.
Defined.

(** C6, as stated, fails: a name with a tab in the middle contains
    whitespace, yet it passes the check and a photo is captured. *)
Lemma process_capture_tab_counterexample :
  PyStr.isspace_char (ascii_of_nat 9) = true
  /\ PyStr.contains (ascii_of_nat 9) ("Jane" +:+ Demo.tab +:+ "Doe") = true
  /\ process_capture ("Jane" +:+ Demo.tab +:+ "Doe")
       (mkCameraThread true None (Some 7%nat))
       (mkRegistrationWindow [] 0 true)
     = (PhotoCaptured, mkRegistrationWindow [7%nat] 1 true).
Proof. repeat split. Qed.

(** ** The attendance ledger (lines 82-114) *)

Section LedgerFacts.

Context {file image encoding : Type}.
Implicit Types (s : State file image encoding) (name : string).

Lemma mark_attendance_logged flt now name s :
  name ∈ logged_people (data_manager s) ->
  mark_attendance flt now name s = (Ok false, s).
Proof.
  intros Hin. unfold mark_attendance, bind, get.
  rewrite bool_decide_eq_true_2 by exact Hin. reflexivity.
Qed.

Lemma mark_attendance_new now name s :
  name ∉ logged_people (data_manager s) ->
  exists s1,
    mark_attendance NoFault now name s = (Ok true, s1)
    /\ attendance_log (disk s1)
       = Some (ledger_before s +:+ ledger_row name now)
    /\ logged_people (data_manager s1)
       = logged_people (data_manager s) ∪ {[ name ]}
    /\ known_encodings (data_manager s1) = known_encodings (data_manager s)
    /\ known_names (data_manager s1) = known_names (data_manager s).
Proof.
  intros Hnot. unfold mark_attendance, bind, get, ledger_before.
  rewrite bool_decide_eq_false_2 by exact Hnot.
  destruct (attendance_log (disk s)) as [content|] eqn:Hlog; simpl.
  - unfold append_log, bind, get; simpl. rewrite Hlog. simpl.
    eexists. split; [reflexivity|]. simpl. auto.
  - eexists. split; [reflexivity|]. simpl. auto.
Qed.

Lemma mark_attendance_ok_logged flt now name s r s1 :
  mark_attendance flt now name s = (Ok r, s1) ->
  name ∈ logged_people (data_manager s1).
Proof.
  unfold mark_attendance, bind, get.
  destruct (bool_decide (name ∈ logged_people (data_manager s))) eqn:Hdec.
  - intros [= _ <-]. apply bool_decide_eq_true_1 in Hdec. exact Hdec.
  - destruct (attendance_log (disk s)) as [content|] eqn:Hlog;
      destruct flt as [| |[|[|k]]]; simpl;
      unfold append_log, bind, get; simpl; rewrite ?Hlog; simpl;
      intros Heq; try discriminate Heq;
      injection Heq as _ <-; simpl;
      apply elem_of_union_r, elem_of_singleton; reflexivity.
Qed.

Lemma load_today_log_absent now rf s :
  attendance_log (disk s) = None ->
  load_today_log now rf s
  = (Ok tt,
     with_data_manager
       (mkFaceDataManager (known_encodings (data_manager s))
                          (known_names (data_manager s)) ∅) s).
Proof.
  intros Hlog. unfold load_today_log, bind, get, set_logged, modify. simpl.
  rewrite Hlog. reflexivity.
Qed.


(** C9.  When a call raises, the data manager (and with it the logged-today
    set) is as before the call.  A failing [open] or a failing [write] of the
    call does make it raise.  When a call returns true, the row is at the end
    of the file and the name has been added to the set. *)
Theorem mark_attendance_failure_keeps_set flt now name s :
  (forall e, fst (mark_attendance flt now name s) = Raise e ->
             data_manager (snd (mark_attendance flt now name s))
             = data_manager s)
  /\ (name ∉ logged_people (data_manager s) ->
      flt = OpenFails \/ flt = WriteFails 0
      \/ (flt = WriteFails 1 /\ attendance_log (disk s) = None) ->
      fst (mark_attendance flt now name s) = Raise OSError)
  /\ (fst (mark_attendance flt now name s) = Ok true ->
      (exists prior,
          attendance_log (disk (snd (mark_attendance flt now name s)))
          = Some (prior +:+ ledger_row name now))
      /\ logged_people (data_manager (snd (mark_attendance flt now name s)))
         = logged_people (data_manager s) ∪ {[ name ]}).
Proof.
  unfold mark_attendance, bind, get.
  destruct (bool_decide (name ∈ logged_people (data_manager s))) eqn:Hdec.
  - simpl. split; [discriminate|]. split; [|discriminate].
    intros Hnot. apply bool_decide_eq_true_1 in Hdec. contradiction.
  - destruct (attendance_log (disk s)) as [content|] eqn:Hlog;
      destruct flt as [| |[|[|k]]]; simpl;
      unfold append_log, bind, get; simpl; rewrite ?Hlog; simpl;
      (split; [first [discriminate | reflexivity | intros e _; reflexivity]
              |split; [intros _ [H|[H|[H H']]]; first [reflexivity | discriminate]
                      |first [discriminate
                             | intros _; split; [eexists; reflexivity
                                                |reflexivity]]]]).
Qed.

End LedgerFacts.


(** C9 at a concrete state: the write of the row fails, the set stays
    empty. *)
Lemma mark_attendance_failure_keeps_set_witness :
  fst (mark_attendance (WriteFails 0) Demo.noon "Alice"
         (Demo.gallery [] [] ∅ (Some LEDGER_HEADER))) = Raise OSError
  /\ data_manager
       (snd (mark_attendance (WriteFails 0) Demo.noon "Alice"
               (Demo.gallery [] [] ∅ (Some LEDGER_HEADER))))
     = data_manager (Demo.gallery [] [] ∅ (Some LEDGER_HEADER)).
Proof.
  pose proof (mark_attendance_failure_keeps_set (WriteFails 0) Demo.noon
                "Alice" (Demo.gallery [] [] ∅ (Some LEDGER_HEADER)))
    as [Hkeep [Hraise _]].
  assert (Hr : fst (mark_attendance (WriteFails 0) Demo.noon "Alice"
                      (Demo.gallery [] [] ∅ (Some LEDGER_HEADER)))
               = Raise OSError).
  { apply Hraise.
    - simpl. apply not_elem_of_empty.
    - right. left. reflexivity. }
  split; [exact Hr | exact (Hkeep OSError Hr)].
Defined.

(** ** Matching (lines 175-186) *)

Lemma lookup_map {A B} (f : A -> B) (l : list A) (i : nat) :
  List.map f l !! i = option_map f (l !! i).
Proof.
  revert i. induction l as [|x l IH]; intros [|i]; simpl; auto.
Qed.

Lemma negb_Qle_bool_lt (a b : Q) :
  negb (Qle_bool a b) = true <-> (b < a)%Q.
Proof.
  rewrite negb_true_iff. split.
  - intros H. apply Qnot_le_lt. intros Hle.
    apply Qle_bool_iff in Hle. congruence.
  - intros Hlt. destruct (Qle_bool a b) eqn:E; [|reflexivity].
    apply Qle_bool_iff in E. exfalso. exact (Qlt_not_le _ _ Hlt E).
Qed.

Lemma negb_Qle_bool_le (a b : Q) :
  negb (Qle_bool a b) = false <-> (a <= b)%Q.
Proof.
  rewrite negb_false_iff. apply Qle_bool_iff.
Qed.

(** The scan of [np.argmin] from position [i] with the best candidate so
    far: either the candidate stays, and nothing in the rest is smaller, or
    the result is the first position of the least later value, which is
    strictly smaller than the candidate. *)
Lemma argmin_from_spec (l : list Q) :
  forall (i best_idx : nat) (best : Q),
    (argmin_from l i best_idx best = best_idx
     /\ forall j d, l !! j = Some d -> (best <= d)%Q)
    \/ (exists k d,
           argmin_from l i best_idx best = (i + k)%nat
           /\ l !! k = Some d /\ (d < best)%Q
           /\ (forall j d', l !! j = Some d' -> (d <= d')%Q)
           /\ (forall j d', (j < k)%nat -> l !! j = Some d' -> (d < d')%Q)).
Proof.
  induction l as [|d0 l IH]; intros i best_idx best; simpl.
  - left. split; [reflexivity|]. intros j d Hj. destruct j; discriminate.
  - destruct (negb (Qle_bool best d0)) eqn:Hcmp.
    + apply negb_Qle_bool_lt in Hcmp. right.
      destruct (IH (S i) i d0) as [[Hr Hall] | (k & d & Hr & Hk & Hlt & Hall & Hfirst)].
      * exists 0%nat, d0. rewrite Hr, Nat.add_0_r.
        split; [reflexivity|]. split; [reflexivity|]. split; [exact Hcmp|].
        split.
        -- intros [|j] d' Hj; simpl in Hj.
           ++ injection Hj as <-. apply Qle_refl.
           ++ eapply Hall; eauto.
        -- intros j d' Hj. lia.
      * exists (S k), d. rewrite Hr.
        split; [lia|]. split; [exact Hk|].
        split; [eapply Qlt_trans; eauto|].
        split.
        -- intros [|j] d' Hj; simpl in Hj.
           ++ injection Hj as <-. apply Qlt_le_weak. exact Hlt.
           ++ eapply Hall; eauto.
        -- intros [|j] d' Hjk Hj; simpl in Hj.
           ++ injection Hj as <-. exact Hlt.
           ++ eapply (Hfirst j); [lia | exact Hj].
    + apply negb_Qle_bool_le in Hcmp.
      destruct (IH (S i) best_idx best) as [[Hr Hall] | (k & d & Hr & Hk & Hlt & Hall & Hfirst)].
      * left. split; [exact Hr|].
        intros [|j] d' Hj; simpl in Hj.
        -- injection Hj as <-. exact Hcmp.
        -- eapply Hall; eauto.
      * right. exists (S k), d. rewrite Hr.
        split; [lia|]. split; [exact Hk|]. split; [exact Hlt|].
        split.
        -- intros [|j] d' Hj; simpl in Hj.
           ++ injection Hj as <-. apply Qlt_le_weak.
              eapply Qlt_le_trans; eauto.
           ++ eapply Hall; eauto.
        -- intros [|j] d' Hjk Hj; simpl in Hj.
           ++ injection Hj as <-. eapply Qlt_le_trans; eauto.
           ++ eapply (Hfirst j); [lia | exact Hj].
Qed.

(** [np.argmin] on a non-empty list: the index of a least element, and the
    first such index. *)
Lemma argmin_spec (l : list Q) :
  l <> [] ->
  exists d,
    l !! argmin l = Some d
    /\ (forall j d', l !! j = Some d' -> (d <= d')%Q)
    /\ (forall j d', (j < argmin l)%nat -> l !! j = Some d' -> (d < d')%Q).
Proof.
  destruct l as [|d0 l]; [congruence|]. intros _. simpl.
  destruct (argmin_from_spec l 1 0 d0)
    as [[Hr Hall] | (k & d & Hr & Hk & Hlt & Hall & Hfirst)]; rewrite Hr.
  - exists d0. split; [reflexivity|]. split.
    + intros [|j] d' Hj; simpl in Hj.
      * injection Hj as <-. apply Qle_refl.
      * eapply Hall; eauto.
    + intros j d' Hj. lia.
  - exists d. split; [exact Hk|]. split.
    + intros [|j] d' Hj; simpl in Hj.
      * injection Hj as <-. apply Qlt_le_weak. exact Hlt.
      * eapply Hall; eauto.
    + intros [|j] d' Hjk Hj; simpl in Hj.
      * injection Hj as <-. exact Hlt.
      * eapply (Hfirst j); [lia | exact Hj].
Qed.

Lemma argmin_lt_length (l : list Q) : l <> [] -> (argmin l < length l)%nat.
Proof.
  intros Hne. destruct (argmin_spec l Hne) as (d & Hd & _).
  eapply lookup_lt_Some; eauto.
Qed.

Section MatchingFacts.

Context {file image encoding : Type}.
Variable embedding_distance : encoding -> encoding -> Q.
Implicit Types (s : State file image encoding) (enc : encoding).

Lemma face_distance_lookup (known : list encoding) enc i k :
  known !! i = Some k ->
  face_distance embedding_distance known enc !! i
  = Some (embedding_distance k enc).
Proof.
  intros Hk. unfold face_distance. rewrite lookup_map, Hk. reflexivity.
Qed.

Lemma face_distance_length (known : list encoding) enc :
  length (face_distance embedding_distance known enc) = length known.
Proof. unfold face_distance. apply length_map. Qed.

Lemma recognise_empty flt now enc s :
  known_encodings (data_manager s) = [] ->
  recognise embedding_distance flt now enc s = (Ok Unknown, s).
Proof.
  intros Hk. unfold recognise, bind, get. rewrite Hk. reflexivity.
Qed.

Lemma recognise_all_empty flt now (encs : list encoding) s :
  known_encodings (data_manager s) = [] ->
  recognise_all embedding_distance flt now encs s
  = (Ok (List.repeat Unknown (length encs)), s).
Proof.
  intros Hk. induction encs as [|enc rest IH]; simpl; [reflexivity|].
  unfold bind at 1. rewrite (recognise_empty flt now enc s Hk).
  unfold bind at 1. rewrite IH. reflexivity.
Qed.

(** [recognise] on a non-empty gallery, by the least distance [d]. *)
Lemma recognise_nonempty flt now enc s d :
  known_encodings (data_manager s) <> [] ->
  face_distance embedding_distance (known_encodings (data_manager s)) enc
    !! argmin (face_distance embedding_distance
                 (known_encodings (data_manager s)) enc) = Some d ->
  recognise embedding_distance flt now enc s
  = if Qle_bool d RECOGNITION_TOLERANCE then
      match known_names (data_manager s)
              !! argmin (face_distance embedding_distance
                           (known_encodings (data_manager s)) enc) with
      | None => (Raise IndexError, s)
      | Some name => (mark_attendance flt now name ;; ret name) s
      end
    else (Ok Unknown, s).
Proof.
  intros Hne Hd. unfold recognise, bind at 1, get.
  destruct (known_encodings (data_manager s)) as [|k0 known] eqn:Hk;
    [congruence|].
  rewrite face_distance_length.
  unfold compare_faces. rewrite lookup_map, Hd.
  cbn [length Nat.ltb Nat.leb option_map].
  destruct (Qle_bool d RECOGNITION_TOLERANCE); [|reflexivity].
  destruct (known_names (data_manager s) !! _); reflexivity.
Qed.

(** C5, as the code has it.  The distances are those to every known
    embedding, in gallery order.  With an empty gallery every probe is
    reported "Unknown" and the state (ledger, logged-today set) is
    untouched.  With a non-empty gallery the candidate is the first index of
    the least distance; when that distance exceeds the tolerance the probe
    is "Unknown" and nothing is marked, and when it is at most the tolerance
    (equality included) the candidate's name is marked and reported. *)
Theorem recognise_nearest_within_tolerance flt now enc s :
  let known := known_encodings (data_manager s) in
  let distances := face_distance embedding_distance known enc in
  (length distances = length known
   /\ forall i k, known !! i = Some k ->
                  distances !! i = Some (embedding_distance k enc))
  /\ (known = [] ->
      forall encs,
        recognise_all embedding_distance flt now encs s
        = (Ok (List.repeat Unknown (length encs)), s))
  /\ (known <> [] ->
      exists d,
        distances !! argmin distances = Some d
        /\ (forall j d', distances !! j = Some d' -> (d <= d')%Q)
        /\ (forall j d', (j < argmin distances)%nat ->
                         distances !! j = Some d' -> (d < d')%Q)
        /\ ((RECOGNITION_TOLERANCE < d)%Q ->
            recognise embedding_distance flt now enc s = (Ok Unknown, s))
        /\ ((d <= RECOGNITION_TOLERANCE)%Q ->
            forall name,
              known_names (data_manager s) !! argmin distances = Some name ->
              recognise embedding_distance flt now enc s
              = (mark_attendance flt now name ;; ret name) s)).
Proof.
  intros known distances. split; [|split].
  - split; [apply face_distance_length|].
    intros i k. apply face_distance_lookup.
  - intros Hk encs. apply recognise_all_empty. exact Hk.
  - intros Hne.
    assert (Hdne : distances <> []).
    { intros Hnil. apply Hne. apply length_zero_iff_nil.
      unfold known. rewrite <- (face_distance_length _ enc).
      fold known distances. rewrite Hnil. reflexivity. }
    destruct (argmin_spec distances Hdne) as (d & Hd & Hmin & Hfirst).
    exists d. split; [exact Hd|]. split; [exact Hmin|].
    split; [exact Hfirst|].
    pose proof (recognise_nonempty flt now enc s d Hne Hd) as Hrec.
    split.
    + intros Hgt. rewrite Hrec.
      destruct (Qle_bool d RECOGNITION_TOLERANCE) eqn:E; [|reflexivity].
      apply Qle_bool_iff in E. exfalso. exact (Qlt_not_le _ _ Hgt E).
    + intros Hle name Hname. rewrite Hrec.
      apply Qle_bool_iff in Hle. rewrite Hle.
      fold known distances. rewrite Hname. reflexivity.
Qed.

(** An index found by [np.argmin] over the distances is in range for
    [known_names] when the gallery lists are aligned. *)
Lemma argmin_index_names enc s :
  gallery_aligned s ->
  known_encodings (data_manager s) <> [] ->
  exists name,
    known_names (data_manager s)
      !! argmin (face_distance embedding_distance
                   (known_encodings (data_manager s)) enc) = Some name.
Proof.
  intros Hal Hne. apply lookup_lt_is_Some_2. rewrite <- Hal.
  rewrite <- (face_distance_length _ enc).
  apply argmin_lt_length.
  intros Hnil. apply Hne. apply length_zero_iff_nil.
  rewrite <- (face_distance_length _ enc), Hnil. reflexivity.
Qed.

End MatchingFacts.

(** C5 at a concrete gallery: Ann at 0 and Ben at 1/2, probe at 1/10; and
    the empty gallery. *)
Lemma recognise_nearest_within_tolerance_witness :
  (forall encs,
      recognise_all Demo.embedding_distance NoFault Demo.noon encs
        (Demo.gallery [] [] ∅ None)
      = (Ok (List.repeat Unknown (length encs)), Demo.gallery [] [] ∅ None))
  /\ recognise Demo.embedding_distance NoFault Demo.noon (1 # 10)%Q
       (Demo.gallery [0%Q; (1 # 2)%Q] ["Ann"; "Ben"] ∅ None)
     = (mark_attendance NoFault Demo.noon "Ann" ;; ret "Ann")
         (Demo.gallery [0%Q; (1 # 2)%Q] ["Ann"; "Ben"] ∅ None).
Proof.
  split.
  - apply (recognise_nearest_within_tolerance Demo.embedding_distance
             NoFault Demo.noon 0%Q (Demo.gallery [] [] ∅ None)).
    reflexivity.
  - destruct (recognise_nearest_within_tolerance Demo.embedding_distance
                NoFault Demo.noon (1 # 10)%Q
                (Demo.gallery [0%Q; (1 # 2)%Q] ["Ann"; "Ben"] ∅ None))
      as (_ & _ & Hmatch).
    destruct Hmatch as (d & Hd & _ & _ & _ & Hrec); [discriminate|].
    apply Hrec; [|reflexivity].
    vm_compute in Hd. injection Hd as <-. discriminate.
Defined.

(** C5, as stated, fails at the boundary: a probe whose nearest known
    embedding is at distance exactly the tolerance, which is not below it,
    is matched and marked present. *)
Lemma recognise_at_tolerance_counterexample :
  ~ (Demo.embedding_distance 0 (6 # 10) < RECOGNITION_TOLERANCE)%Q
  /\ fst (recognise Demo.embedding_distance NoFault Demo.noon (6 # 10)%Q
            (Demo.gallery [0%Q] ["Ann"] ∅ None)) = Ok "Ann"
  /\ attendance_log
       (disk (snd (recognise Demo.embedding_distance NoFault Demo.noon
                     (6 # 10)%Q (Demo.gallery [0%Q] ["Ann"] ∅ None))))
     = Some (LEDGER_HEADER +:+ ledger_row "Ann" Demo.noon).
Proof.
  split; [|split].
  - vm_compute. discriminate.
  - vm_compute. reflexivity.
  - vm_compute. reflexivity.
Qed.

(** ** The gallery (lines 37-80, 116-127) *)

Section GalleryFacts.

Context {file image region encoding : Type}.
Variable load_image_file : file -> option image.
Variable face_encodings : image -> option (list region) -> list encoding.
Variable embedding_distance : encoding -> encoding -> Q.
Variable imencode : image -> file.
Variable cvtColor_RGB2BGR : image -> image.
Implicit Types (s : State file image encoding).

Lemma load_one_aligned entry (acc : list encoding * list string) s :
  exists acc' s',
    load_one load_image_file face_encodings entry acc s = (Ok acc', s')
    /\ data_manager s' = data_manager s
    /\ disk s' = disk s
    /\ (length (fst acc) = length (snd acc) ->
        length (fst acc') = length (snd acc')).
Proof.
  unfold load_one. destruct entry as [fname content].
  destruct (negb (is_image_fname fname)).
  { exists acc, s. auto. }
  destruct (load_image_file content) as [img|].
  - destruct (face_encodings img None) as [|enc0 encs].
    + eexists _, _. split; [reflexivity|]. auto.
    + eexists _, _. split; [reflexivity|]. simpl.
      split; [reflexivity|]. split; [reflexivity|].
      intros Hlen. rewrite !length_app, Hlen. reflexivity.
  - eexists _, _. split; [reflexivity|]. auto.
Qed.

Lemma load_entries_aligned entries :
  forall (acc : list encoding * list string) s,
  exists acc' s',
    load_entries load_image_file face_encodings entries acc s = (Ok acc', s')
    /\ data_manager s' = data_manager s
    /\ disk s' = disk s
    /\ (length (fst acc) = length (snd acc) ->
        length (fst acc') = length (snd acc')).
Proof.
  induction entries as [|e rest IH]; intros acc s; simpl.
  - exists acc, s. auto.
  - destruct (load_one_aligned e acc s) as (acc1 & s1 & H1 & Hdm1 & Hd1 & Hl1).
    destruct (IH acc1 s1) as (acc2 & s2 & H2 & Hdm2 & Hd2 & Hl2).
    exists acc2, s2. unfold bind. rewrite H1, H2.
    split; [reflexivity|]. split; [congruence|]. split; [congruence|]. auto.
Qed.

(** The scan of lines 46-78 always returns; it touches neither list, and
    the two lists it builds have the same length. *)
Lemma scan_known_faces_aligned s :
  exists scanned s',
    scan_known_faces load_image_file face_encodings s = (Ok scanned, s')
    /\ data_manager s' = data_manager s
    /\ (known_faces_dir (disk s) = None <-> scanned = None)
    /\ (forall temp, scanned = Some temp ->
          length (fst temp) = length (snd temp)).
Proof.
  unfold scan_known_faces, bind at 1, print, modify, bind at 1, get.
  cbn [stdout with_stdout disk].
  destruct (known_faces_dir (disk s)) as [entries|] eqn:Hdir.
  - destruct (load_entries_aligned entries ([], [])
                (with_stdout (stdout s ++ [StatusLoading]) s))
      as (acc' & s1 & H1 & Hdm & _ & Hl).
    unfold bind. rewrite H1. eexists _, _. split; [reflexivity|].
    split; [exact Hdm|]. split; [split; discriminate|].
    intros temp [= <-]. apply Hl. reflexivity.
  - eexists _, _. split; [reflexivity|]. split; [reflexivity|].
    split; [split; reflexivity|]. discriminate.
Qed.

(** [load_known_faces] always returns; the lists it leaves are aligned when
    they were, and in any case when the directory exists. *)
Lemma load_known_faces_aligned s :
  exists s',
    load_known_faces load_image_file face_encodings s = (Ok tt, s')
    /\ (gallery_aligned s -> gallery_aligned s')
    /\ (known_faces_dir (disk s) <> None -> gallery_aligned s').
Proof.
  destruct (scan_known_faces_aligned s)
    as (scanned & s1 & Hscan & Hdm & Hnone & Hlen).
  unfold load_known_faces, bind at 1. rewrite Hscan.
  destruct scanned as [temp|].
  - eexists. split; [reflexivity|]. unfold gallery_aligned. simpl.
    pose proof (Hlen temp eq_refl). auto.
  - eexists. split; [reflexivity|]. unfold gallery_aligned.
    rewrite Hdm. split; [auto|]. intros Hdir. exfalso. apply Hdir.
    apply Hnone. reflexivity.
Qed.

Lemma imwrite_data_manager accepted fname (img : image) s :
  exists s',
    imwrite imencode accepted fname img s = (Ok tt, s')
    /\ data_manager s' = data_manager s.
Proof.
  unfold imwrite, bind, get.
  destruct (known_faces_dir (disk s)); [|eexists; split; reflexivity].
  destruct (accepted && negb (PyStr.contains "/" fname));
    eexists; split; reflexivity.
Qed.

Lemma save_frames_data_manager accepted name (frames : list image) :
  forall i s,
  exists s',
    save_frames imencode cvtColor_RGB2BGR accepted name i frames s
    = (Ok tt, s')
    /\ data_manager s' = data_manager s.
Proof.
  induction frames as [|frm rest IH]; intros i s; simpl.
  - exists s. auto.
  - destruct (imwrite_data_manager (accepted i)
                (name +:+ "_" +:+ PyStr.str_of_nat (i + 1) +:+ ".jpg")
                (cvtColor_RGB2BGR frm) s) as (s1 & H1 & Hdm1).
    destruct (IH (S i) s1) as (s2 & H2 & Hdm2).
    exists s2. unfold bind. rewrite H1, H2.
    split; [reflexivity | congruence].
Qed.

Lemma save_new_face_aligned accepted name (frames : list image) s :
  gallery_aligned s ->
  gallery_aligned
    (snd (save_new_face load_image_file face_encodings imencode
            cvtColor_RGB2BGR accepted name frames s)).
Proof.
  intros Hal. unfold save_new_face.
  destruct frames as [|frm rest]; [exact Hal|].
  destruct (save_frames_data_manager accepted name (frm :: rest) 0 s)
    as (s1 & H1 & Hdm).
  unfold bind. rewrite H1.
  destruct (load_known_faces_aligned s1) as (s2 & H2 & Hkeep & _).
  rewrite H2. simpl. apply Hkeep.
  unfold gallery_aligned. rewrite Hdm. exact Hal.
Qed.

Lemma read_rows_known today_str (lines : list string) s :
  exists s',
    read_rows today_str lines s = (Ok tt, s')
    /\ known_encodings (data_manager s') = known_encodings (data_manager s)
    /\ known_names (data_manager s') = known_names (data_manager s)
    /\ disk s' = disk s /\ stdout s' = stdout s.
Proof.
  destruct lines as [|header rows]; eexists; (split; [reflexivity|]); auto.
Qed.

Lemma load_today_log_known now rf s :
  exists s',
    load_today_log now rf s = (Ok tt, s')
    /\ known_encodings (data_manager s') = known_encodings (data_manager s)
    /\ known_names (data_manager s') = known_names (data_manager s).
Proof.
  unfold load_today_log, bind at 1, set_logged, modify, bind at 1, get.
  set (s0 := with_data_manager _ s).
  change (attendance_log (disk s0)) with (attendance_log (disk s)).
  destruct (attendance_log (disk s)) as [content|];
    [|eexists; split; [reflexivity|]; auto].
  destruct rf as [| |k].
  - destruct (read_rows_known (strftime_date now) (file_lines content) s0)
      as (s1 & H1 & He & Hn & _). exists s1. auto.
  - eexists. split; [reflexivity|]. auto.
  - destruct (k <=? length (file_lines content))%nat.
    + destruct (read_rows_known (strftime_date now)
                  (take k (file_lines content)) s0)
        as (s1 & H1 & He & Hn & _).
      unfold bind. rewrite H1. eexists. split; [reflexivity|]. auto.
    + destruct (read_rows_known (strftime_date now) (file_lines content) s0)
        as (s1 & H1 & He & Hn & _). exists s1. auto.
Qed.

Lemma mark_attendance_known flt now name s :
  known_encodings (data_manager (snd (mark_attendance flt now name s)))
  = known_encodings (data_manager s)
  /\ known_names (data_manager (snd (mark_attendance flt now name s)))
     = known_names (data_manager s).
Proof.
  unfold mark_attendance, bind, get.
  destruct (bool_decide (name ∈ logged_people (data_manager s))).
  - auto.
  - destruct (attendance_log (disk s)) as [content|] eqn:Hlog;
      destruct flt as [| |[|[|k]]]; simpl;
      unfold append_log, bind, get; simpl; rewrite ?Hlog; simpl; auto.
Qed.

(** The reload, assignment by assignment: with the directory present, the
    scan returns the two lists built in lockstep and touches neither list of
    the data manager; line 79 then puts the new embeddings beside the old
    names, and line 80 the new names beside the new embeddings. *)
Lemma load_known_faces_two_assignments s entries :
  known_faces_dir (disk s) = Some entries ->
  exists temp s1 s2 s3,
    scan_known_faces load_image_file face_encodings s = (Ok (Some temp), s1)
    /\ length (fst temp) = length (snd temp)
    /\ data_manager s1 = data_manager s
    /\ assign_known_encodings (fst temp) s1 = (Ok tt, s2)
    /\ known_encodings (data_manager s2) = fst temp
    /\ known_names (data_manager s2) = known_names (data_manager s)
    /\ assign_known_names (snd temp) s2 = (Ok tt, s3)
    /\ known_encodings (data_manager s3) = fst temp
    /\ known_names (data_manager s3) = snd temp
    /\ load_known_faces load_image_file face_encodings s = (Ok tt, s3).
Proof.
  intros Hdir.
  destruct (scan_known_faces_aligned s)
    as (scanned & s1 & Hscan & Hdm & Hnone & Hlen).
  destruct scanned as [temp|].
  - exists temp, s1. eexists _, _. split; [exact Hscan|].
    split; [apply Hlen; reflexivity|]. split; [exact Hdm|].
    split; [reflexivity|]. simpl. split; [reflexivity|].
    split; [rewrite Hdm; reflexivity|]. split; [reflexivity|].
    split; [reflexivity|]. split; [reflexivity|].
    unfold load_known_faces, bind at 1. rewrite Hscan. reflexivity.
  - exfalso. destruct Hnone as [_ Hnone].
    rewrite (Hnone eq_refl) in Hdir. discriminate Hdir.
Qed.


End GalleryFacts.



(** ** Frame rules of the monad *)

Section MonadFacts.

Context {S A B V : Type}.
Implicit Types (view : S -> V).

Lemma keeps_ret view (a : A) : keeps view (ret a).
Proof. intros s. reflexivity. Qed.

Lemma keeps_raise view (e : exn) : keeps view (@raise S A e).
Proof. intros s. reflexivity. Qed.

Lemma keeps_get view : keeps view (@get S).
Proof. intros s. reflexivity. Qed.

Lemma keeps_modify view (f : S -> S) :
  (forall s, view (f s) = view s) -> keeps view (modify f).
Proof. intros Hf s. apply Hf. Qed.

Lemma keeps_bind view (m : M S A) (k : A -> M S B) :
  keeps view m -> (forall a, keeps view (k a)) -> keeps view (bind m k).
Proof.
  intros Hm Hk s. unfold bind. specialize (Hm s).
  destruct (m s) as [[a|e|] s1]; simpl in Hm |- *; [|exact Hm..].
  rewrite (Hk a s1). exact Hm.
Qed.

Lemma never_blocks_ret (a : A) : never_blocks (@ret S A a).
Proof. intros s. discriminate. Qed.

Lemma never_blocks_raise (e : exn) : never_blocks (@raise S A e).
Proof. intros s. discriminate. Qed.

Lemma never_blocks_get : never_blocks (@get S).
Proof. intros s. discriminate. Qed.

Lemma never_blocks_modify (f : S -> S) : never_blocks (modify f).
Proof. intros s. discriminate. Qed.

Lemma never_blocks_bind (m : M S A) (k : A -> M S B) :
  never_blocks m -> (forall a, never_blocks (k a)) -> never_blocks (bind m k).
Proof.
  intros Hm Hk s. unfold bind. specialize (Hm s).
  destruct (m s) as [[a|e|] s1]; simpl in Hm |- *;
    [apply Hk | discriminate | congruence].
Qed.

End MonadFacts.

Create HintDb frame discriminated.

Ltac frame_step :=
  first
    [ assumption
    | solve [auto 1 with frame nocore]
    | apply keeps_ret | apply keeps_raise | apply keeps_get
    | apply never_blocks_ret | apply never_blocks_raise
    | apply never_blocks_get | apply never_blocks_modify
    | apply keeps_modify; intros ?; reflexivity
    | apply keeps_bind; [|intros ?]
    | apply never_blocks_bind; [|intros ?]
    | match goal with
      | |- keeps _ (match ?x with _ => _ end) => destruct x
      | |- never_blocks (match ?x with _ => _ end) => destruct x
      end ].

Ltac frame := repeat frame_step.

Section MonadReturns.

Context {S A B : Type}.
Implicit Types (P : S -> Prop).

Lemma returns_keeping_ret P (a : A) : returns_keeping P (ret a).
Proof. intros s Hs. exists a, s. auto. Qed.

Lemma returns_keeping_get P : returns_keeping P (@get S).
Proof. intros s Hs. exists s, s. auto. Qed.

Lemma returns_keeping_modify P (f : S -> S) :
  (forall s, P s -> P (f s)) -> returns_keeping P (modify f).
Proof. intros Hf s Hs. exists tt, (f s). auto. Qed.

Lemma returns_keeping_bind P (m : M S A) (k : A -> M S B) :
  returns_keeping P m -> (forall a, returns_keeping P (k a)) ->
  returns_keeping P (bind m k).
Proof.
  intros Hm Hk s Hs. destruct (Hm s Hs) as (a & s1 & Hms & Hs1).
  destruct (Hk a s1 Hs1) as (b & s2 & Hks & Hs2).
  exists b, s2. unfold bind. rewrite Hms. auto.
Qed.

End MonadReturns.

(** ** The camera worker (lines 142-202) *)

Section CameraFacts.

Context {file image region encoding : Type}.
Variable face_locations : image -> list region.
Variable face_encodings : image -> option (list region) -> list encoding.
Variable embedding_distance : encoding -> encoding -> Q.
Variable cvtColor_BGR2RGB : image -> image.
Variable resize : image -> image.
Variable draw_box : image -> region -> string -> image.
Variable openable : nat -> bool.
Implicit Types (s : State file image encoding) (t : tick image).

Local Abbreviation run' := (run face_locations face_encodings embedding_distance
                         cvtColor_BGR2RGB resize draw_box openable).
Local Abbreviation loop' := (loop face_locations face_encodings embedding_distance
                          cvtColor_BGR2RGB resize draw_box).
Local Abbreviation loop_body' :=
  (loop_body face_locations face_encodings embedding_distance
     cvtColor_BGR2RGB resize draw_box).

(** *** The loop touches neither the handle nor the devices *)

Lemma mark_attendance_keeps_devices flt now name :
  keeps (@device_view file image encoding) (mark_attendance flt now name).
Proof.
  unfold mark_attendance, open_log, write_log, append_log,
    set_attendance_log, set_logged.
  cbv zeta. frame.
Qed.

Lemma mark_attendance_never_blocks flt now name :
  never_blocks (@mark_attendance file image encoding flt now name).
Proof.
  unfold mark_attendance, open_log, write_log, append_log,
    set_attendance_log, set_logged.
  cbv zeta. frame.
Qed.

#[local] Hint Resolve mark_attendance_keeps_devices
  mark_attendance_never_blocks : frame.

Lemma recognise_keeps_devices flt now enc :
  keeps (@device_view file image encoding)
        (recognise embedding_distance flt now enc).
Proof. unfold recognise. cbv zeta. frame. Qed.

Lemma recognise_never_blocks flt now enc :
  never_blocks (@recognise file image encoding embedding_distance flt now enc).
Proof. unfold recognise. cbv zeta. frame. Qed.

#[local] Hint Resolve recognise_keeps_devices recognise_never_blocks : frame.

Lemma recognise_all_keeps_devices flt now (encs : list encoding) :
  keeps (@device_view file image encoding)
        (recognise_all embedding_distance flt now encs).
Proof. induction encs as [|enc rest IH]; simpl; frame. Qed.

Lemma recognise_all_never_blocks flt now (encs : list encoding) :
  never_blocks
    (@recognise_all file image encoding embedding_distance flt now encs).
Proof. induction encs as [|enc rest IH]; simpl; frame. Qed.

Lemma publish_frame_keeps_devices (frame : image) :
  keeps (@device_view file image encoding) (publish_frame frame).
Proof.
  intros s. unfold publish_frame.
  destruct (publish (frame_queue s) frame); reflexivity.
Qed.

Lemma publish_frame_never_blocks (frame : image) :
  never_blocks (@publish_frame file image encoding frame).
Proof.
  intros s. unfold publish_frame.
  destruct (publish_returns (frame_queue s) frame) as [q' ->].
  discriminate.
Qed.

Lemma environment_keeps_devices t :
  keeps (@device_view file image encoding) (environment t).
Proof. unfold environment, set_camera. frame. Qed.

Lemma environment_never_blocks t :
  never_blocks (@environment file image encoding t).
Proof. unfold environment, set_camera. frame. Qed.

#[local] Hint Resolve recognise_all_keeps_devices recognise_all_never_blocks
  publish_frame_keeps_devices publish_frame_never_blocks
  environment_keeps_devices environment_never_blocks : frame.

Lemma loop_body_keeps_devices t :
  keeps (@device_view file image encoding) (loop_body' t).
Proof. unfold loop_body, set_camera. cbv zeta. frame. Qed.

Lemma loop_body_never_blocks t :
  never_blocks (S := State file image encoding) (loop_body' t).
Proof. unfold loop_body, set_camera. cbv zeta. frame. Qed.

#[local] Hint Resolve loop_body_keeps_devices loop_body_never_blocks : frame.

Lemma loop_keeps_devices (ticks : list (tick image)) :
  keeps (@device_view file image encoding) (loop' ticks).
Proof. induction ticks as [|t rest IH]; simpl; frame. Qed.

Lemma loop_never_blocks (ticks : list (tick image)) :
  never_blocks (S := State file image encoding) (loop' ticks).
Proof. induction ticks as [|t rest IH]; simpl; frame. Qed.

(** *** Initialisation and release *)

Lemma release_cap_returns s :
  exists s',
    release_cap s = (Ok tt, s')
    /\ data_manager s' = data_manager s /\ disk s' = disk s
    /\ stdout s' = stdout s /\ frame_queue s' = frame_queue s
    /\ open_calls s' = open_calls s
    /\ running (camera_thread s') = running (camera_thread s)
    /\ (devices_match_handle s ->
        held_devices s' = []
        /\ forall c, cap (camera_thread s') = Some c -> isOpened c = false).
Proof.
  unfold devices_match_handle, release_cap, bind, get.
  destruct (cap (camera_thread s)) as [[dev [|]]|] eqn:Hcap; simpl.
  - eexists. split; [reflexivity|]. simpl.
    do 6 (split; [reflexivity|]). intros Hheld. split.
    + rewrite Hheld. simpl. destruct (Nat.eq_dec dev dev); congruence.
    + intros c [= <-]. reflexivity.
  - exists s. rewrite Hcap. repeat split; auto.
    intros c [= <-]. reflexivity.
  - exists s. rewrite Hcap. repeat split; auto. discriminate.
Qed.

Lemma init_camera_devices s :
  devices_match_handle s ->
  exists b s1,
    init_camera openable s = (Ok b, s1)
    /\ devices_match_handle s1
    /\ (b = false -> held_devices s1 = [])
    /\ (b = true ->
        exists idx, cap (camera_thread s1) = Some (mkVideoCapture idx true)
                    /\ held_devices s1 = [idx]).
Proof.
  intros Hinv.
  destruct (release_cap_returns s)
    as (s0 & Hrel & Hdm & _ & _ & _ & _ & _ & Hheld).
  destruct (Hheld Hinv) as [Hnil _].
  unfold init_camera, bind at 1. rewrite Hrel.
  unfold devices_match_handle. simpl.
  unfold bind, VideoCapture_new, set_camera, modify, print, ret. simpl.
  destruct (openable 0) eqn:H0; simpl.
  - eexists _, _. split; [reflexivity|]. simpl. rewrite Hnil.
    split; [reflexivity|]. split; [discriminate|].
    intros _. exists 0%nat. split; reflexivity.
  - destruct (openable 1) eqn:H1; simpl.
    + eexists _, _. split; [reflexivity|]. simpl. rewrite Hnil.
      split; [reflexivity|]. split; [discriminate|].
      intros _. exists 1%nat. split; reflexivity.
    + eexists _, _. split; [reflexivity|]. simpl. rewrite Hnil.
      split; [reflexivity|]. split; [reflexivity|]. discriminate.
Qed.

(** C7.  When neither device 0 nor device 1 opens, [run] returns without
    entering the loop, in the same state whatever the schedule: the frame
    queue, the data manager and the files are as before, the only line
    printed is the fatal message (once), [cv2.VideoCapture] was called for 0
    and then 1 and not again, and the worker is no longer running. *)
Theorem run_no_camera_stops s :
  openable 0%nat = false ->
  openable 1%nat = false ->
  exists s',
    (forall ticks : list (tick image), run' ticks s = (Ok Returned, s'))
    /\ frame_queue s' = frame_queue s
    /\ data_manager s' = data_manager s
    /\ disk s' = disk s
    /\ stdout s' = stdout s ++ [FatalNoCamera]
    /\ open_calls s' = open_calls s ++ [0; 1]%nat
    /\ running (camera_thread s') = false
    /\ latest_frame (camera_thread s') = latest_frame (camera_thread s).
Proof.
  intros H0 H1.
  destruct (release_cap_returns s)
    as (s0 & Hrel & Hdm & Hdisk & Hout & Hq & Hcalls & _ & _).
  assert (Hlatest : latest_frame (camera_thread s0)
                    = latest_frame (camera_thread s)).
  { revert Hrel. unfold release_cap, bind, get.
    destruct (cap (camera_thread s)) as [[dev [|]]|]; simpl;
      intros [= <-]; reflexivity. }
  eexists. split.
  - intros ticks.
    unfold run, init_camera, bind at 1, bind at 1. rewrite Hrel.
    simpl. unfold bind, VideoCapture_new, set_camera, modify, print, ret.
    simpl. rewrite H0. simpl. rewrite H1. simpl. reflexivity.
  - simpl. rewrite Hq, Hdm, Hdisk, Hout, Hcalls, Hlatest, <- app_assoc.
    repeat split; reflexivity.
Qed.

(** What [run] leaves of the devices, by the way it ends. *)
Lemma run_outcome_devices (ticks : list (tick image)) s :
  devices_match_handle s ->
  match run' ticks s with
  | (Ok Returned, s') =>
      held_devices s' = []
      /\ forall c, cap (camera_thread s') = Some c -> isOpened c = false
  | (Raise e, s') =>
      exists idx,
        cap (camera_thread s') = Some (mkVideoCapture idx true)
        /\ held_devices s' = [idx]
  | _ => True
  end.
Proof.
  intros Hinv. unfold run, bind at 1.
  destruct (init_camera_devices s Hinv)
    as (b & s1 & Hinit & Hinv1 & Hfail & Hopen).
  rewrite Hinit. destruct b; simpl.
  - pose proof (loop_keeps_devices ticks s1) as Hview.
    destruct (Hopen eq_refl) as (idx & Hcap1 & Hheld1).
    unfold bind at 1.
    destruct (loop' ticks s1) as [[exited|e|] s2]; simpl in Hview;
      injection Hview as Hcap Hheld.
    + assert (Hinv2 : devices_match_handle s2).
      { unfold devices_match_handle. rewrite Hcap, Hheld. exact Hinv1. }
      destruct (release_cap_returns s2) as (s3 & Hrel & Hrest).
      destruct exited; [|exact I].
      unfold bind. rewrite Hrel. simpl. apply Hrest. exact Hinv2.
    + exists idx. rewrite Hcap, Hheld. auto.
    + exact I.
  - split; [auto|].
    intros c Hc. unfold devices_match_handle in Hinv1.
    rewrite Hc in Hinv1. rewrite (Hfail eq_refl) in Hinv1.
    destruct (isOpened c); [discriminate | reflexivity].
Qed.

(** C8, as the code has it.  A worker that starts with no device held
    beyond the one behind its handle holds no device when [run] has
    returned, whether initialisation failed or the loop was left: the handle
    it is left with is not opened.  The release is not unconditional: when
    an exception leaves [run], it comes from inside the loop and the opened
    device is still held. *)
Theorem run_returned_releases_device (ticks : list (tick image)) s s' :
  devices_match_handle s ->
  (run' ticks s = (Ok Returned, s') ->
   held_devices s' = []
   /\ forall c, cap (camera_thread s') = Some c -> isOpened c = false)
  /\ (forall e,
         run' ticks s = (Raise e, s') ->
         exists idx,
           cap (camera_thread s') = Some (mkVideoCapture idx true)
           /\ held_devices s' = [idx]).
Proof.
  intros Hinv.
  pose proof (run_outcome_devices ticks s Hinv) as Hout.
  split.
  - intros Hrun. rewrite Hrun in Hout. exact Hout.
  - intros e Hrun. rewrite Hrun in Hout. exact Hout.
Qed.

(** C2, as the code has it.  Publishing never blocks, whatever the queue
    holds and however many frames are published with no consumer, and the
    worker as a whole never waits on the queue; but a frame published while
    the slot is occupied is dropped: the slot keeps the first unconsumed
    frame, and an empty slot takes the frame published into it. *)
Theorem publish_never_blocks_first_frame_stays :
  (forall (q : Queue image) frames, exists q', publish_all q frames = Ok q')
  /\ (forall ticks s, fst (run' ticks s) <> Blocked)
  /\ (forall (f : image) rest,
         publish_all (mkQueue 1 []) (f :: rest) = Ok (mkQueue 1 [f]))
  /\ (forall (x : image) frames,
         publish_all (mkQueue 1 [x]) frames = Ok (mkQueue 1 [x])).
Proof.
  split; [|split; [|split]].
  - intros q frames. apply publish_all_returns.
  - intros ticks.
    assert (Hrel : never_blocks (@release_cap file image encoding)).
    { unfold release_cap, set_camera. frame. }
    assert (Htry : forall idxs,
               never_blocks (@try_open file image encoding openable idxs)).
    { induction idxs as [|idx rest IH]; simpl.
      - frame.
      - apply never_blocks_bind; [intros s0; discriminate|].
        intros c. unfold set_camera, print. frame. }
    unfold run, init_camera, set_camera, print.
    frame. apply loop_never_blocks.
  - intros f rest. simpl. apply publish_all_occupied.
  - apply publish_all_occupied.
Qed.

(** *** The worker returns once a stop is requested *)

Lemma mark_attendance_returns now name :
  returns_keeping (@gallery_aligned file image encoding)
                  (mark_attendance NoFault now name).
Proof.
  intros s Hal.
  destruct (decide (name ∈ logged_people (data_manager s))) as [Hin|Hnot].
  - exists false, s. split; [|exact Hal].
    apply mark_attendance_logged. exact Hin.
  - destruct (mark_attendance_new now name s Hnot)
      as (s1 & Hcall & _ & _ & He & Hn).
    exists true, s1. split; [exact Hcall|].
    unfold gallery_aligned. rewrite He, Hn. exact Hal.
Qed.

Lemma recognise_returns now enc :
  returns_keeping (@gallery_aligned file image encoding)
                  (recognise embedding_distance NoFault now enc).
Proof.
  intros s Hal.
  destruct (known_encodings (data_manager s)) as [|k0 known] eqn:Hk.
  - exists Unknown, s. split; [|exact Hal].
    apply recognise_empty. exact Hk.
  - assert (Hne : known_encodings (data_manager s) <> []) by congruence.
    destruct (argmin_index_names embedding_distance enc s Hal Hne)
      as [name Hname].
    assert (Hdne : face_distance embedding_distance
                     (known_encodings (data_manager s)) enc <> []).
    { rewrite Hk. discriminate. }
    destruct (argmin_spec _ Hdne) as (d & Hd & _).
    rewrite (recognise_nonempty embedding_distance NoFault now enc s d Hne Hd).
    destruct (Qle_bool d RECOGNITION_TOLERANCE).
    + rewrite Hname.
      apply (returns_keeping_bind gallery_aligned); [|intros ?|exact Hal].
      * apply mark_attendance_returns.
      * apply returns_keeping_ret.
    + exists Unknown, s. auto.
Qed.

Lemma recognise_all_returns now (encs : list encoding) :
  returns_keeping (@gallery_aligned file image encoding)
                  (recognise_all embedding_distance NoFault now encs).
Proof.
  induction encs as [|enc rest IH]; simpl.
  - apply returns_keeping_ret.
  - apply returns_keeping_bind; [apply recognise_returns|intros name].
    apply returns_keeping_bind; [exact IH|intros names].
    apply returns_keeping_ret.
Qed.

Lemma publish_frame_returns (frame : image) :
  returns_keeping (@gallery_aligned file image encoding)
                  (publish_frame frame).
Proof.
  intros s Hal. unfold publish_frame.
  destruct (publish_returns (frame_queue s) frame) as [q' ->].
  exists tt, (with_frame_queue q' s). split; [reflexivity | exact Hal].
Qed.

Lemma loop_body_returns t :
  ledger_fault t = NoFault ->
  returns_keeping (@gallery_aligned file image encoding) (loop_body' t).
Proof.
  intros Hflt. unfold loop_body. rewrite Hflt.
  destruct (grabbed t) as [frame|]; [|apply returns_keeping_ret].
  apply returns_keeping_bind.
  - apply returns_keeping_modify. intros s Hal. exact Hal.
  - intros _. cbv zeta.
    apply returns_keeping_bind; [apply recognise_all_returns|intros names].
    apply publish_frame_returns.
Qed.

Lemma environment_returns t s :
  exists s1,
    environment t s = (Ok tt, s1)
    /\ data_manager s1 = data_manager s
    /\ (stop_requested t = true -> running (camera_thread s1) = false).
Proof.
  unfold environment, bind, set_camera, modify, ret.
  destruct (stop_requested t), (consumer_polled t); simpl;
    eexists; (split; [reflexivity|]); split; auto; discriminate.
Qed.

Lemma loop_returns (ticks : list (tick image)) :
  forall s,
    gallery_aligned s ->
    Forall (fun t => ledger_fault t = NoFault) ticks ->
    exists b s',
      loop' ticks s = (Ok b, s')
      /\ (Exists (fun t => stop_requested t = true) ticks -> b = true).
Proof.
  induction ticks as [|t rest IH]; intros s Hal Hflt; simpl.
  - eexists _, _. split; [reflexivity|].
    intros Hex. inversion Hex.
  - inversion Hflt as [|t' rest' Ht Hrest]; subst.
    destruct (environment_returns t s) as (s1 & Henv & Hdm & Hstop).
    unfold bind at 1. rewrite Henv. unfold bind at 1, get.
    destruct (running (camera_thread s1)) eqn:Hrun.
    + assert (Hal1 : gallery_aligned s1).
      { unfold gallery_aligned. rewrite Hdm. exact Hal. }
      destruct (loop_body_returns t Ht s1 Hal1) as ([] & s2 & Hbody & Hal2).
      unfold bind at 1. rewrite Hbody.
      destruct (IH s2 Hal2 Hrest) as (b & s' & Hloop & Hb).
      exists b, s'. split; [exact Hloop|].
      intros Hex. inversion Hex as [t' rest' Hnow | t' rest' Hlater]; subst.
      * specialize (Hstop Hnow). discriminate Hstop.
      * apply Hb. exact Hlater.
    + eexists _, _. split; [reflexivity|]. auto.
Qed.

Lemma init_camera_returns s :
  exists b s1,
    init_camera openable s = (Ok b, s1)
    /\ data_manager s1 = data_manager s.
Proof.
  destruct (release_cap_returns s) as (s0 & Hrel & Hdm & _).
  unfold init_camera, bind at 1. rewrite Hrel.
  simpl. unfold bind, VideoCapture_new, set_camera, modify, print, ret.
  simpl.
  destruct (openable 0); simpl; [eexists _, _; split; [reflexivity|]; auto|].
  destruct (openable 1); simpl; eexists _, _; (split; [reflexivity|]); auto.
Qed.

(** With an aligned gallery and a ledger that can be written, [run] returns
    as soon as the schedule contains a stop request. *)
Lemma run_returns_after_stop (ticks : list (tick image)) s :
  gallery_aligned s ->
  Forall (fun t => ledger_fault t = NoFault) ticks ->
  Exists (fun t => stop_requested t = true) ticks ->
  exists s', run' ticks s = (Ok Returned, s').
Proof.
  intros Hal Hflt Hstop.
  destruct (init_camera_returns s) as (b & s1 & Hinit & Hdm).
  unfold run, bind at 1. rewrite Hinit.
  destruct b; simpl; [|eexists; reflexivity].
  assert (Hal1 : gallery_aligned s1).
  { unfold gallery_aligned. rewrite Hdm. exact Hal. }
  destruct (loop_returns ticks s1 Hal1 Hflt) as (ex & s2 & Hloop & Hex).
  unfold bind at 1. rewrite Hloop. rewrite (Hex Hstop).
  destruct (release_cap_returns s2) as (s3 & Hrel & _).
  unfold bind. rewrite Hrel. eexists. reflexivity.
Qed.

End CameraFacts.

(** C7 at a concrete start: no camera opens, nothing loaded. *)
Lemma run_no_camera_stops_witness :
  exists s',
    (forall ticks, Demo.run (fun _ => false) ticks (Demo.fresh (Some []) None)
                   = (Ok Returned, s'))
    /\ frame_queue s' = frame_queue (Demo.fresh (Some []) None)
    /\ data_manager s' = data_manager (Demo.fresh (Some []) None)
    /\ disk s' = disk (Demo.fresh (Some []) None)
    /\ stdout s' = stdout (Demo.fresh (Some []) None) ++ [FatalNoCamera]
    /\ open_calls s' = open_calls (Demo.fresh (Some []) None) ++ [0; 1]%nat
    /\ running (camera_thread s') = false
    /\ latest_frame (camera_thread s')
       = latest_frame (camera_thread (Demo.fresh (Some []) None)).
Proof.
  apply (run_no_camera_stops Demo.face_locations Demo.face_encodings
           Demo.embedding_distance Demo.cvtColor Demo.resize Demo.draw_box
           (fun _ => false)); reflexivity.
Defined.

(** C8 at a concrete run: camera 1 opens, one frame with Ann in it is
    processed, then the stop request is seen. *)
Lemma run_returned_releases_device_witness :
  held_devices
    (snd (Demo.run (Nat.eqb 1) [Demo.frame_tick 0 NoFault; Demo.stop_tick]
            (Demo.gallery [0%Q] ["Ann"] ∅ None))) = []
  /\ forall c,
       cap (camera_thread
              (snd (Demo.run (Nat.eqb 1)
                      [Demo.frame_tick 0 NoFault; Demo.stop_tick]
                      (Demo.gallery [0%Q] ["Ann"] ∅ None)))) = Some c ->
       isOpened c = false.
Proof.
  apply (run_returned_releases_device Demo.face_locations Demo.face_encodings
           Demo.embedding_distance Demo.cvtColor Demo.resize Demo.draw_box
           (Nat.eqb 1) [Demo.frame_tick 0 NoFault; Demo.stop_tick]
           (Demo.gallery [0%Q] ["Ann"] ∅ None)).
  - reflexivity.
  - vm_compute. reflexivity.
Defined.

(** The same run, observed: the frame was published, Ann was marked, the
    device was opened and released. *)
Example run_one_frame_then_stop :
  let s' := snd (Demo.run (Nat.eqb 1)
                   [Demo.frame_tick 0 NoFault; Demo.stop_tick]
                   (Demo.gallery [0%Q] ["Ann"] ∅ None)) in
  items (frame_queue s') = [0%nat]
  /\ attendance_log (disk s')
     = Some (LEDGER_HEADER +:+ ledger_row "Ann" Demo.noon)
  /\ open_calls s' = [0; 1]%nat
  /\ stdout s' = [InfoCameraOpened 1].
Proof. vm_compute. repeat split. Qed.

(** C8, as stated, fails: when the ledger cannot be opened while a match is
    being marked, [OSError] ends [run] from inside the loop, and device 0,
    which was opened, is still held. *)
Lemma run_exception_skips_release_counterexample :
  fst (Demo.run (Nat.eqb 0) [Demo.frame_tick 0 OpenFails; Demo.stop_tick]
         (Demo.gallery [0%Q] ["Ann"] ∅ None)) = Raise OSError
  /\ held_devices
       (snd (Demo.run (Nat.eqb 0) [Demo.frame_tick 0 OpenFails; Demo.stop_tick]
               (Demo.gallery [0%Q] ["Ann"] ∅ None))) = [0%nat]
  /\ open_calls
       (snd (Demo.run (Nat.eqb 0) [Demo.frame_tick 0 OpenFails; Demo.stop_tick]
               (Demo.gallery [0%Q] ["Ann"] ∅ None))) = [0%nat].
Proof. vm_compute. repeat split. Qed.

(** ** Further properties: loading the gallery (lines 44-80) *)

Section GalleryLoad.

Context {file image region encoding : Type}.
Variable load_image_file : file -> option image.
Variable face_encodings : image -> option (list region) -> list encoding.
Implicit Types (s : State file image encoding).

Local Abbreviation gallery_of :=
  (gallery_of_directory load_image_file face_encodings).

Lemma load_one_gallery_entry entry (acc : list encoding * list string) s :
  exists s',
    load_one load_image_file face_encodings entry acc s
    = (Ok (match gallery_entry load_image_file face_encodings entry with
           | Some (enc, name) => (fst acc ++ [enc], snd acc ++ [name])
           | None => acc
           end), s')
    /\ data_manager s' = data_manager s
    /\ disk s' = disk s.
Proof.
  unfold load_one, gallery_entry. destruct entry as [fname content]. simpl.
  destruct (is_image_fname fname); simpl; [|exists s; auto].
  destruct (load_image_file content) as [img|].
  - destruct (face_encodings img None) as [|enc0 encs];
      eexists; (split; [reflexivity|]); auto.
  - eexists. split; [reflexivity|]. auto.
Qed.

Lemma load_entries_gallery entries :
  forall (acc : list encoding * list string) s,
  exists s',
    load_entries load_image_file face_encodings entries acc s
    = (Ok (fst acc ++ List.map fst (gallery_of entries),
           snd acc ++ List.map snd (gallery_of entries)), s')
    /\ data_manager s' = data_manager s
    /\ disk s' = disk s.
Proof.
  induction entries as [|e rest IH]; intros acc s; simpl.
  - exists s. rewrite !app_nil_r. destruct acc. auto.
  - destruct (load_one_gallery_entry e acc s) as (s1 & H1 & Hdm1 & Hd1).
    unfold bind. rewrite H1.
    unfold gallery_of_directory. simpl.
    destruct (gallery_entry load_image_file face_encodings e)
      as [[enc name]|].
    + destruct (IH (fst acc ++ [enc], snd acc ++ [name]) s1)
        as (s2 & H2 & Hdm2 & Hd2).
      exists s2. rewrite H2. simpl. rewrite <- !app_assoc. simpl.
      split; [reflexivity|]. split; congruence.
    + destruct (IH acc s1) as (s2 & H2 & Hdm2 & Hd2).
      exists s2. rewrite H2. split; [reflexivity|]. split; congruence.
Qed.

Lemma load_known_faces_present s entries :
  known_faces_dir (disk s) = Some entries ->
  exists s',
    load_known_faces load_image_file face_encodings s = (Ok tt, s')
    /\ known_encodings (data_manager s') = List.map fst (gallery_of entries)
    /\ known_names (data_manager s') = List.map snd (gallery_of entries)
    /\ logged_people (data_manager s') = logged_people (data_manager s)
    /\ disk s' = disk s.
Proof.
  intros Hdir.
  unfold load_known_faces, scan_known_faces, bind at 1, bind at 1, print,
    modify, bind at 1, get.
  cbn [stdout with_stdout disk]. rewrite Hdir.
  destruct (load_entries_gallery entries ([], [])
              (with_stdout (stdout s ++ [StatusLoading]) s))
    as (s1 & H1 & Hdm & Hd).
  unfold bind. rewrite H1. eexists. split; [reflexivity|].
  simpl. rewrite Hdm, Hd. auto.
Qed.

(** X1.  With the gallery directory present, [load_known_faces] returns and
    leaves exactly one gallery entry per directory entry that is an image
    file (by extension, any case), loads, and shows a face: in directory
    order, named by the file name, with the embedding of the first face.
    What the lists held before is dropped; the files and the logged-today
    set are untouched; loading a second time gives the same lists. *)
Theorem load_known_faces_from_directory s entries :
  known_faces_dir (disk s) = Some entries ->
  exists s',
    load_known_faces load_image_file face_encodings s = (Ok tt, s')
    /\ known_encodings (data_manager s') = List.map fst (gallery_of entries)
    /\ known_names (data_manager s') = List.map snd (gallery_of entries)
    /\ logged_people (data_manager s') = logged_people (data_manager s)
    /\ disk s' = disk s
    /\ data_manager
         (snd (load_known_faces load_image_file face_encodings s'))
       = data_manager s'.
Proof.
  intros Hdir.
  destruct (load_known_faces_present s entries Hdir)
    as (s1 & H1 & He & Hn & Hl & Hd).
  exists s1. do 5 (split; [assumption|]).
  assert (Hdir1 : known_faces_dir (disk s1) = Some entries) by congruence.
  destruct (load_known_faces_present s1 entries Hdir1)
    as (s2 & H2 & He2 & Hn2 & Hl2 & _).
  rewrite H2. simpl.
  destruct (data_manager s1), (data_manager s2). simpl in *. congruence.
Qed.

(** X2.  With the gallery directory missing, [load_known_faces] creates it
    empty, reports it, and returns before the lists are replaced: the
    gallery in memory is left as it was, however stale.  The next load, which
    finds the empty directory, empties the gallery. *)
Theorem load_known_faces_missing_directory s :
  known_faces_dir (disk s) = None ->
  exists s',
    load_known_faces load_image_file face_encodings s = (Ok tt, s')
    /\ data_manager s' = data_manager s
    /\ known_faces_dir (disk s') = Some []
    /\ attendance_log (disk s') = attendance_log (disk s)
    /\ stdout s' = stdout s ++ [StatusLoading; InfoFolderMissing]
    /\ known_encodings
         (data_manager
            (snd (load_known_faces load_image_file face_encodings s'))) = []
    /\ known_names
         (data_manager
            (snd (load_known_faces load_image_file face_encodings s'))) = [].
Proof.
  intros Hdir.
  set (s1 := with_disk (mkFileSystem (Some []) (attendance_log (disk s)))
               (with_stdout
                  ((stdout s ++ [StatusLoading]) ++ [InfoFolderMissing])
                  (with_stdout (stdout s ++ [StatusLoading]) s))).
  assert (Hfirst :
    load_known_faces load_image_file face_encodings s = (Ok tt, s1)).
  { unfold load_known_faces, scan_known_faces, bind, print, modify, get,
      set_known_faces_dir.
    simpl. rewrite Hdir. reflexivity. }
  destruct (load_known_faces_present s1 [] eq_refl)
    as (s2 & H2 & He & Hn & _).
  exists s1. rewrite H2. split; [exact Hfirst|].
  split; [reflexivity|]. split; [reflexivity|]. split; [reflexivity|].
  split; [simpl; rewrite <- app_assoc; reflexivity|].
  split; [exact He | exact Hn].
Qed.

End GalleryLoad.

(** X1 at a concrete directory: a text file and two photos, over a stale
    gallery. *)
Lemma load_known_faces_from_directory_witness :
  exists s',
    load_known_faces Demo.load_image_file Demo.face_encodings
      (with_data_manager (mkFaceDataManager [5%Q] ["Old"] ∅)
         (Demo.fresh (Some [("notes.txt", 3%nat); ("Ann.PNG", 4%nat);
                            ("Ben_1.jpeg", 6%nat)]) None))
    = (Ok tt, s')
    /\ known_names (data_manager s') = ["Ann"; "Ben 1"].
Proof.
  destruct (load_known_faces_from_directory Demo.load_image_file
              Demo.face_encodings
              (with_data_manager (mkFaceDataManager [5%Q] ["Old"] ∅)
                 (Demo.fresh (Some [("notes.txt", 3%nat); ("Ann.PNG", 4%nat);
                                    ("Ben_1.jpeg", 6%nat)]) None))
              [("notes.txt", 3%nat); ("Ann.PNG", 4%nat);
               ("Ben_1.jpeg", 6%nat)]
              eq_refl) as (s' & Hload & _ & Hnames & _).
  exists s'. split; [exact Hload | exact Hnames].
Defined.

(** X2 at a concrete state: a gallery in memory, no directory. *)
Lemma load_known_faces_missing_directory_witness :
  exists s',
    load_known_faces Demo.load_image_file Demo.face_encodings
      (with_data_manager (mkFaceDataManager [5%Q] ["Old"] ∅)
         (Demo.fresh None None))
    = (Ok tt, s')
    /\ known_names (data_manager s') = ["Old"]
    /\ known_faces_dir (disk s') = Some [].
Proof.
  destruct (load_known_faces_missing_directory Demo.load_image_file
              Demo.face_encodings
              (with_data_manager (mkFaceDataManager [5%Q] ["Old"] ∅)
                 (Demo.fresh None None))
              eq_refl) as (s' & Hload & Hdm & Hdir & _).
  exists s'. split; [exact Hload|]. split; [|exact Hdir].
  rewrite Hdm. reflexivity.
Defined.

(** ** Further properties: strings *)

Lemma string_app_cons (x : ascii) (a b : string) :
  String x a +:+ b = String x (a +:+ b).
Proof. reflexivity. Qed.

Lemma string_app_nil_l (a : string) : EmptyString +:+ a = a.
Proof. reflexivity. Qed.

Lemma string_app_assoc (a b c : string) : (a +:+ b) +:+ c = a +:+ b +:+ c.
Proof.
  induction a as [|x a IH]; [reflexivity|].
  rewrite !string_app_cons, IH. reflexivity.
Qed.

Lemma string_app_nil_r (a : string) : a +:+ EmptyString = a.
Proof.
  induction a as [|x a IH]; [reflexivity|].
  rewrite string_app_cons, IH. reflexivity.
Qed.

Lemma string_length_app (a b : string) :
  String.length (a +:+ b) = (String.length a + String.length b)%nat.
Proof.
  induction a as [|x a IH]; [reflexivity|].
  rewrite string_app_cons. simpl. rewrite IH. reflexivity.
Qed.

Lemma string_app_inv_head (a b c : string) : a +:+ b = a +:+ c -> b = c.
Proof.
  induction a as [|x a IH]; [auto|].
  rewrite !string_app_cons. intros [= H]. auto.
Qed.

Lemma string_app_inv_tail (a b c : string) : a +:+ c = b +:+ c -> a = b.
Proof.
  revert b. induction a as [|x a IH]; intros [|y b] H.
  - reflexivity.
  - apply (f_equal String.length) in H.
    rewrite !string_length_app in H. simpl in H. lia.
  - apply (f_equal String.length) in H.
    rewrite !string_length_app in H. simpl in H. lia.
  - rewrite !string_app_cons in H. injection H as -> H. f_equal. auto.
Qed.

Lemma all_chars_app (p : ascii -> bool) (a b : string) :
  all_chars p (a +:+ b) = all_chars p a && all_chars p b.
Proof.
  induction a as [|x a IH]; [reflexivity|].
  rewrite string_app_cons. simpl. rewrite IH, andb_assoc. reflexivity.
Qed.

Lemma contains_app (c : ascii) (a b : string) :
  PyStr.contains c (a +:+ b) = PyStr.contains c a || PyStr.contains c b.
Proof.
  induction a as [|x a IH]; [reflexivity|].
  rewrite ?string_app_cons. simpl. rewrite IH, orb_assoc. reflexivity.
Qed.

Lemma contains_all_chars (c : ascii) (p : ascii -> bool) (s : string) :
  p c = false -> all_chars p s = true -> PyStr.contains c s = false.
Proof.
  intros Hc. induction s as [|x s IH]; simpl; [reflexivity|].
  intros H. apply andb_true_iff in H as [Hx Hs]. rewrite (IH Hs).
  destruct (Ascii.eqb x c) eqn:E; [|reflexivity].
  apply Ascii.eqb_eq in E. congruence.
Qed.

Lemma to_uint_not_nil (n : nat) : Nat.to_uint n <> Decimal.Nil.
Proof.
  intros H. pose proof (DecimalNat.Unsigned.of_to n) as Hn.
  rewrite H in Hn. simpl in Hn. subst n. discriminate H.
Qed.

Lemma str_of_nat_inj (a b : nat) :
  PyStr.str_of_nat a = PyStr.str_of_nat b -> a = b.
Proof.
  unfold PyStr.str_of_nat. intros H.
  apply (f_equal NilZero.uint_of_string) in H.
  rewrite !NilZero.usu in H by apply to_uint_not_nil.
  injection H as H. apply DecimalNat.Unsigned.to_uint_inj. exact H.
Qed.

Lemma uint_digits (d : Decimal.uint) :
  all_chars decimal_digit (NilEmpty.string_of_uint d) = true.
Proof. induction d; simpl; auto. Qed.

Lemma str_of_nat_digits (n : nat) :
  all_chars decimal_digit (PyStr.str_of_nat n) = true.
Proof.
  unfold PyStr.str_of_nat, NilZero.string_of_uint.
  destruct (Nat.to_uint n) eqn:E; try reflexivity;
    rewrite <- E; try apply uint_digits;
    change (all_chars decimal_digit (NilEmpty.string_of_uint (Nat.to_uint n)) = true);
    apply uint_digits.
Qed.

Lemma str_of_nat_not_empty (n : nat) : PyStr.str_of_nat n <> EmptyString.
Proof.
  unfold PyStr.str_of_nat, NilZero.string_of_uint.
  destruct (Nat.to_uint n) eqn:E; simpl; try discriminate.
Qed.

Lemma photo_fname_inj (name : string) (i j : nat) :
  photo_fname name i = photo_fname name j -> i = j.
Proof.
  unfold photo_fname. intros H.
  apply string_app_inv_head in H. apply string_app_inv_head in H.
  apply string_app_inv_tail in H. apply str_of_nat_inj in H. lia.
Qed.

(** ** Further properties: saving a new face (lines 116-127) *)

Section SaveNewFace.

Context {file image region encoding : Type}.
Variable load_image_file : file -> option image.
Variable face_encodings : image -> option (list region) -> list encoding.
Variable imencode : image -> file.
Variable cvtColor_RGB2BGR : image -> image.
Implicit Types (s : State file image encoding) (frames : list image).

Lemma dir_lookup_put_file_eq fname (c : file) entries :
  dir_lookup fname (put_file fname c entries) = Some c.
Proof.
  induction entries as [|[n c'] rest IH]; simpl.
  - rewrite String.eqb_refl. reflexivity.
  - destruct (String.eqb n fname) eqn:E; simpl; rewrite E; auto.
Qed.

Lemma dir_lookup_put_file_ne fname other (c : file) entries :
  fname <> other ->
  dir_lookup other (put_file fname c entries) = dir_lookup other entries.
Proof.
  intros Hne. induction entries as [|[n c'] rest IH]; simpl.
  - apply String.eqb_neq in Hne. rewrite Hne. reflexivity.
  - destruct (String.eqb n fname) eqn:E; simpl.
    + apply String.eqb_eq in E. subst n.
      apply String.eqb_neq in Hne. rewrite Hne. reflexivity.
    + destruct (String.eqb n other); auto.
Qed.

(** A name without path separator gives file names without one. *)
Lemma photo_fname_no_slash (name : string) (i : nat) :
  PyStr.contains "/" name = false ->
  PyStr.contains "/" (photo_fname name i) = false.
Proof.
  intros Hname. unfold photo_fname.
  rewrite !contains_app, Hname.
  rewrite (contains_all_chars "/" decimal_digit _ eq_refl
             (str_of_nat_digits (i + 1))).
  reflexivity.
Qed.

Lemma save_frames_files accepted name frames :
  PyStr.contains "/" name = false ->
  forall i0 s entries,
    known_faces_dir (disk s) = Some entries ->
    exists s' entries',
      save_frames imencode cvtColor_RGB2BGR accepted name i0 frames s
      = (Ok tt, s')
      /\ known_faces_dir (disk s') = Some entries'
      /\ attendance_log (disk s') = attendance_log (disk s)
      /\ data_manager s' = data_manager s
      /\ (forall j frm,
             frames !! j = Some frm ->
             accepted (i0 + j)%nat = true ->
             dir_lookup (photo_fname name (i0 + j)) entries'
             = Some (imencode (cvtColor_RGB2BGR frm)))
      /\ (forall other,
             (forall j, (j < length frames)%nat ->
                        accepted (i0 + j)%nat = true ->
                        other <> photo_fname name (i0 + j)) ->
             dir_lookup other entries' = dir_lookup other entries)
      /\ ((forall j, (j < length frames)%nat ->
                     accepted (i0 + j)%nat = false) ->
          entries' = entries).
Proof.
  intros Hslash.
  induction frames as [|frm rest IH]; intros i0 s entries Hdir; simpl.
  - exists s, entries. repeat split; auto. intros j frm Hj. discriminate.
  - unfold bind at 1, imwrite, bind at 1, get. rewrite Hdir.
    change (name +:+ "_" +:+ PyStr.str_of_nat (i0 + 1) +:+ ".jpg")
      with (photo_fname name i0).
    rewrite (photo_fname_no_slash name i0 Hslash), andb_true_r.
    destruct (accepted i0) eqn:Hacc.
    + unfold set_known_faces_dir, modify.
      set (s1 := with_disk _ s).
      destruct (IH (S i0) s1
                  (put_file (photo_fname name i0)
                            (imencode (cvtColor_RGB2BGR frm)) entries)
                  eq_refl)
        as (s' & entries' & Hrun & Hdir' & Hlog & Hdm & Hnew & Hold & _).
      exists s', entries'. split; [exact Hrun|]. split; [exact Hdir'|].
      split; [exact Hlog|]. split; [exact Hdm|]. split; [|split].
      * intros [|j] frm' Hj Hok; simpl in Hj.
        -- injection Hj as <-. rewrite Nat.add_0_r.
           rewrite Hold; [apply dir_lookup_put_file_eq|].
           intros j _ _ Heq. apply photo_fname_inj in Heq. lia.
        -- replace (i0 + S j)%nat with (S i0 + j)%nat in * by lia. auto.
      * intros other Hother. rewrite Hold.
        -- apply dir_lookup_put_file_ne. intros Heq.
           apply (Hother 0%nat); [simpl; lia| |].
           ++ rewrite Nat.add_0_r. exact Hacc.
           ++ rewrite Nat.add_0_r. congruence.
        -- intros j Hj Hok.
           replace (S i0 + j)%nat with (i0 + S j)%nat in * by lia.
           apply Hother; [simpl; lia | exact Hok].
      * intros Hnone. exfalso.
        specialize (Hnone 0%nat ltac:(simpl; lia)).
        rewrite Nat.add_0_r in Hnone. congruence.
    + unfold ret.
      destruct (IH (S i0) s entries Hdir)
        as (s' & entries' & Hrun & Hdir' & Hlog & Hdm & Hnew & Hold & Hnone).
      exists s', entries'. split; [exact Hrun|]. split; [exact Hdir'|].
      split; [exact Hlog|]. split; [exact Hdm|]. split; [|split].
      * intros [|j] frm' Hj Hok; simpl in Hj.
        -- rewrite Nat.add_0_r in Hok. congruence.
        -- replace (i0 + S j)%nat with (S i0 + j)%nat in * by lia. auto.
      * intros other Hother. apply Hold.
        intros j Hj Hok.
        replace (S i0 + j)%nat with (i0 + S j)%nat in * by lia.
        apply Hother; [simpl; lia | exact Hok].
      * intros Hall. apply Hnone. intros j Hj.
        replace (S i0 + j)%nat with (i0 + S j)%nat by lia.
        apply Hall. simpl. lia.
Qed.


End SaveNewFace.


(** ** Further properties: reading the ledger back (lines 82-114) *)

Lemma file_lines_cons (c : ascii) (s' : string) :
  file_lines (String c s')
  = if Ascii.eqb c (ascii_of_nat 10) then newline :: file_lines s'
    else if Ascii.eqb c (ascii_of_nat 13) then
      match s' with
      | String c' s'' =>
          if Ascii.eqb c' (ascii_of_nat 10) then newline :: file_lines s''
          else newline :: file_lines s'
      | EmptyString => [newline]
      end
    else
      match file_lines s' with
      | [] => [String c EmptyString]
      | l :: rest => String c l :: rest
      end.
Proof. reflexivity. Qed.

Lemma file_lines_not_nil (c : ascii) (s' : string) :
  file_lines (String c s') <> [].
Proof.
  rewrite file_lines_cons.
  destruct (Ascii.eqb c (ascii_of_nat 10)); [discriminate|].
  destruct (Ascii.eqb c (ascii_of_nat 13)).
  - destruct s' as [|c' s'']; [discriminate|].
    destruct (Ascii.eqb c' (ascii_of_nat 10)); discriminate.
  - destruct (file_lines s'); discriminate.
Qed.

(** A content that ends with a line feed splits where it ends. *)
Lemma file_lines_app_bounded (n : nat) :
  forall a b,
    (String.length a <= n)%nat ->
    file_lines (a +:+ newline +:+ b)
    = file_lines (a +:+ newline) ++ file_lines b.
Proof.
  induction n as [|n IH]; intros [|c a] b Hlen; simpl in Hlen;
    try lia; try reflexivity.
  rewrite !string_app_cons.
  rewrite (file_lines_cons c (a +:+ newline +:+ b)),
    (file_lines_cons c (a +:+ newline)).
  assert (Ha : file_lines (a +:+ newline +:+ b)
               = file_lines (a +:+ newline) ++ file_lines b)
    by (apply IH; lia).
  destruct (Ascii.eqb c (ascii_of_nat 10)).
  { rewrite Ha. reflexivity. }
  destruct (Ascii.eqb c (ascii_of_nat 13)).
  - destruct a as [|c' a'].
    + reflexivity.
    + rewrite !string_app_cons.
      destruct (Ascii.eqb c' (ascii_of_nat 10)).
      * rewrite (IH a' b) by (simpl in Hlen; lia). reflexivity.
      * rewrite <- !string_app_cons, Ha. reflexivity.
  - rewrite Ha.
    destruct (file_lines (a +:+ newline)) as [|l rest] eqn:E.
    + exfalso. destruct a; [discriminate E|].
      rewrite string_app_cons in E. exact (file_lines_not_nil _ _ E).
    + reflexivity.
Qed.

Lemma file_lines_app (a b : string) :
  file_lines ((a +:+ newline) +:+ b)
  = file_lines (a +:+ newline) ++ file_lines b.
Proof.
  rewrite string_app_assoc.
  apply (file_lines_app_bounded (String.length a)). lia.
Qed.

(** A text without line breaks, ended by a line feed, is one line. *)
Lemma file_lines_one_line (text : string) :
  PyStr.contains (ascii_of_nat 10) text = false ->
  PyStr.contains (ascii_of_nat 13) text = false ->
  file_lines (text +:+ newline) = [text +:+ newline].
Proof.
  induction text as [|c text IH]; [reflexivity|].
  intros Hlf Hcr. simpl in Hlf, Hcr.
  apply orb_false_iff in Hlf as [Hc1 Hlf].
  apply orb_false_iff in Hcr as [Hc2 Hcr].
  rewrite string_app_cons, file_lines_cons, Hc1, Hc2, (IH Hlf Hcr).
  reflexivity.
Qed.

(** [split] at the first separator, and on a string without one. *)
Lemma split_app_sep (sep : ascii) (a b : string) :
  PyStr.contains sep a = false ->
  PyStr.split sep (a +:+ String sep b) = a :: PyStr.split sep b.
Proof.
  induction a as [|x a IH]; simpl.
  - intros _. rewrite Ascii.eqb_refl. reflexivity.
  - intros H. apply orb_false_iff in H as [Hx Ha].
    rewrite ?string_app_cons. simpl. rewrite Hx, (IH Ha). reflexivity.
Qed.

Lemma split_no_sep (sep : ascii) (a : string) :
  PyStr.contains sep a = false -> PyStr.split sep a = [a].
Proof.
  induction a as [|x a IH]; simpl; [reflexivity|].
  intros H. apply orb_false_iff in H as [Hx Ha].
  rewrite Hx, (IH Ha). reflexivity.
Qed.

(** [rstrip] drops a trailing whitespace character and stops at a part
    without whitespace. *)
Lemma rstrip_app_space (s : string) (c : ascii) :
  PyStr.isspace_char c = true ->
  PyStr.rstrip (s +:+ String c EmptyString) = PyStr.rstrip s.
Proof.
  intros Hc. induction s as [|x s IH].
  - simpl. rewrite Hc. reflexivity.
  - rewrite ?string_app_cons. simpl. rewrite IH. reflexivity.
Qed.

Lemma rstrip_app_solid (s t : string) :
  t <> EmptyString ->
  all_chars (fun c => negb (PyStr.isspace_char c)) t = true ->
  PyStr.rstrip (s +:+ t) = s +:+ t.
Proof.
  intros Hne Ht. induction s as [|x s IH].
  - apply rstrip_no_space. exact Ht.
  - rewrite ?string_app_cons. simpl. rewrite IH.
    destruct (s +:+ t) eqn:E; [|reflexivity].
    exfalso. destruct s; [apply Hne; exact E | discriminate E].
Qed.

Lemma lstrip_app (a b : string) :
  a <> EmptyString -> PyStr.lstrip a = a -> PyStr.lstrip (a +:+ b) = a +:+ b.
Proof.
  destruct a as [|x a]; [congruence|]. intros _. simpl.
  destruct (PyStr.isspace_char x) eqn:E; [|reflexivity].
  intros H. exfalso.
  assert (Hlen : forall s, (String.length (PyStr.lstrip s)
                            <= String.length s)%nat).
  { induction s as [|y s IHs]; simpl; [lia|].
    destruct (PyStr.isspace_char y); simpl; lia. }
  pose proof (Hlen a) as Hl. rewrite H in Hl. simpl in Hl. lia.
Qed.

Lemma prefix_app (a b : string) : String.prefix a (a +:+ b) = true.
Proof.
  induction a as [|x a IH]; [destruct b; reflexivity|].
  rewrite ?string_app_cons. simpl.
  destruct (Ascii.ascii_dec x x); [exact IH | congruence].
Qed.

Lemma prefix_same_length (a b rest : string) :
  String.length a = String.length b ->
  String.prefix a (b +:+ rest) = true -> a = b.
Proof.
  revert b. induction a as [|x a IH]; intros [|y b] Hlen; simpl in Hlen;
    try lia; [reflexivity|].
  rewrite ?string_app_cons. simpl.
  destruct (Ascii.ascii_dec x y); [|discriminate].
  intros H. subst y. f_equal. apply IH; [lia | exact H].
Qed.

Lemma digit_is_timestamp_char (s : string) :
  all_chars decimal_digit s = true -> all_chars timestamp_char s = true.
Proof.
  apply all_chars_impl. intros c Hc. unfold timestamp_char. rewrite Hc.
  reflexivity.
Qed.

Lemma digit_not_space (s : string) :
  all_chars decimal_digit s = true ->
  all_chars (fun c => negb (PyStr.isspace_char c)) s = true.
Proof.
  apply all_chars_impl.
  intros c. destruct c as [[] [] [] [] [] [] [] []]; vm_compute; congruence.
Qed.

Lemma pad2_digits (n : nat) : all_chars decimal_digit (pad2 n) = true.
Proof.
  unfold pad2. destruct (n <? 10)%nat.
  - rewrite all_chars_app, str_of_nat_digits. reflexivity.
  - apply str_of_nat_digits.
Qed.

Lemma pad2_not_empty (n : nat) : pad2 n <> EmptyString.
Proof.
  unfold pad2. destruct (n <? 10)%nat; [discriminate|].
  apply str_of_nat_not_empty.
Qed.

Lemma pad4_digits (n : nat) : all_chars decimal_digit (pad4 n) = true.
Proof.
  unfold pad4.
  destruct (n <? 10)%nat; [rewrite all_chars_app, str_of_nat_digits; reflexivity|].
  destruct (n <? 100)%nat; [rewrite all_chars_app, str_of_nat_digits; reflexivity|].
  destruct (n <? 1000)%nat; [rewrite all_chars_app, str_of_nat_digits; reflexivity|].
  apply str_of_nat_digits.
Qed.

Lemma strftime_timestamp_chars (t : datetime) :
  all_chars timestamp_char (strftime_timestamp t) = true.
Proof.
  unfold strftime_timestamp, strftime_date.
  rewrite !all_chars_app.
  rewrite (digit_is_timestamp_char _ (pad4_digits (year t))).
  rewrite !(digit_is_timestamp_char _ (pad2_digits _)).
  reflexivity.
Qed.

(** The timestamp, cut before the seconds. *)
Lemma strftime_timestamp_seconds (t : datetime) :
  exists front, strftime_timestamp t = front +:+ pad2 (second t).
Proof.
  exists (strftime_date t +:+ " " +:+ pad2 (hour t) +:+ ":"
          +:+ pad2 (minute t) +:+ ":").
  unfold strftime_timestamp. rewrite !string_app_assoc. reflexivity.
Qed.

Lemma strip_ledger_row (name : string) (now : datetime) :
  PyStr.lstrip name = name ->
  PyStr.strip (ledger_row name now)
  = name +:+ "," +:+ strftime_timestamp now.
Proof.
  intros Hl. unfold PyStr.strip, ledger_row.
  assert (Hls : PyStr.lstrip (name +:+ "," +:+ strftime_timestamp now
                              +:+ newline)
                = name +:+ "," +:+ strftime_timestamp now +:+ newline).
  { destruct name as [|x name]; [reflexivity|].
    apply lstrip_app; [discriminate | exact Hl]. }
  rewrite Hls.
  replace (name +:+ "," +:+ strftime_timestamp now +:+ newline)
    with ((name +:+ "," +:+ strftime_timestamp now) +:+ newline)
    by (rewrite !string_app_assoc; reflexivity).
  unfold newline. rewrite rstrip_app_space by reflexivity.
  destruct (strftime_timestamp_seconds now) as [front ->].
  replace (name +:+ "," +:+ front +:+ pad2 (second now))
    with ((name +:+ "," +:+ front) +:+ pad2 (second now))
    by (rewrite !string_app_assoc; reflexivity).
  apply rstrip_app_solid.
  - apply pad2_not_empty.
  - apply digit_not_space, pad2_digits.
Qed.

(** The fields [load_today_log] finds in a row that [mark_attendance]
    wrote. *)
Lemma split_ledger_row (name : string) (now : datetime) :
  PyStr.contains "," name = false ->
  PyStr.lstrip name = name ->
  PyStr.split "," (PyStr.strip (ledger_row name now))
  = [name; strftime_timestamp now].
Proof.
  intros Hcomma Hl. rewrite (strip_ledger_row name now Hl).
  change (name +:+ "," +:+ strftime_timestamp now)
    with (name +:+ String "," (strftime_timestamp now)).
  rewrite (split_app_sep "," name _ Hcomma).
  rewrite split_no_sep; [reflexivity|].
  apply (contains_all_chars "," timestamp_char);
    [reflexivity | apply strftime_timestamp_chars].
Qed.

Lemma row_name_today_same_day (today_str name : string) (now : datetime) :
  PyStr.contains "," name = false ->
  PyStr.lstrip name = name ->
  strftime_date now = today_str ->
  row_name_today today_str (ledger_row name now) = Some name.
Proof.
  intros Hcomma Hl <-. unfold row_name_today.
  rewrite (split_ledger_row name now Hcomma Hl).
  unfold PyStr.startswith, strftime_timestamp. rewrite prefix_app.
  reflexivity.
Qed.

Lemma row_name_today_other_day (today_str name : string) (now : datetime) :
  PyStr.contains "," name = false ->
  PyStr.lstrip name = name ->
  String.length today_str = String.length (strftime_date now) ->
  today_str <> strftime_date now ->
  row_name_today today_str (ledger_row name now) = None.
Proof.
  intros Hcomma Hl Hlen Hne. unfold row_name_today.
  rewrite (split_ledger_row name now Hcomma Hl).
  unfold PyStr.startswith, strftime_timestamp.
  destruct (String.prefix today_str _) eqn:E; [|reflexivity].
  exfalso. apply Hne. exact (prefix_same_length _ _ _ Hlen E).
Qed.

Lemma ledger_row_one_line (name : string) (now : datetime) :
  PyStr.contains (ascii_of_nat 10) name = false ->
  PyStr.contains (ascii_of_nat 13) name = false ->
  file_lines (ledger_row name now) = [ledger_row name now].
Proof.
  intros Hlf Hcr. unfold ledger_row.
  replace (name +:+ "," +:+ strftime_timestamp now +:+ newline)
    with ((name +:+ "," +:+ strftime_timestamp now) +:+ newline)
    by (rewrite !string_app_assoc; reflexivity).
  apply file_lines_one_line.
  - rewrite contains_app, Hlf. simpl.
    apply (contains_all_chars _ timestamp_char);
      [reflexivity | apply strftime_timestamp_chars].
  - rewrite contains_app, Hcr. simpl.
    apply (contains_all_chars _ timestamp_char);
      [reflexivity | apply strftime_timestamp_chars].
Qed.

(** The names of a content that ends with a line feed, after one more
    row. *)
Lemma names_today_app_row (today_str body row : string) :
  file_lines row = [row] ->
  names_today today_str ((body +:+ newline) +:+ row)
  = add_row_name today_str (names_today today_str (body +:+ newline)) row.
Proof.
  intros Hrow. unfold names_today. rewrite file_lines_app, Hrow.
  destruct (file_lines (body +:+ newline)) as [|h rows] eqn:E.
  - exfalso. destruct body; [discriminate E|].
    rewrite string_app_cons in E. exact (file_lines_not_nil _ _ E).
  - simpl. rewrite fold_left_app. reflexivity.
Qed.

Lemma fold_add_row_name_elem (today_str : string) (rows : list string) :
  forall (acc : gset string) (name : string),
    name ∈ fold_left (add_row_name today_str) rows acc
    <-> name ∈ acc
        \/ exists line, In line rows
                        /\ row_name_today today_str line = Some name.
Proof.
  induction rows as [|row rows IH]; intros acc name; simpl.
  - split; [auto|]. intros [H|(line & [] & _)]. exact H.
  - rewrite IH. unfold add_row_name.
    destruct (row_name_today today_str row) as [n|] eqn:E.
    + rewrite elem_of_union, elem_of_singleton. split.
      * intros [[H| ->]|(line & Hin & Hrow)]; eauto 6.
      * intros [H|(line & [<-|Hin] & Hrow)]; [auto| |eauto].
        left. right. congruence.
    + split.
      * intros [H|(line & Hin & Hrow)]; eauto 6.
      * intros [H|(line & [<-|Hin] & Hrow)]; [auto|congruence|eauto].
Qed.

Section LedgerReadBack.

Context {file image encoding : Type}.
Implicit Types (s : State file image encoding) (name : string).

(** C3.  A call for a name that is already in the logged-today set returns
    false and changes nothing, whatever the state of the ledger file (it is
    not opened).  For a name that is not yet logged, the first call returns
    true and leaves the file holding what it held (the header line, when the
    call creates the file) followed by the name, a comma, the timestamp of
    the call and a line feed, and nothing else; a second call with the same
    name returns false and leaves the file with that one row.  The text
    appended is one line: when the name has no line break and the content
    before ends with a line feed, the file read back has the lines it had and
    that one line more.  In every state, a call that follows a call that
    returned, with the same name, returns false and changes nothing. *)
Theorem mark_attendance_idempotent flt1 flt2 now1 now2 name s :
  (name ∈ logged_people (data_manager s) ->
   mark_attendance flt1 now1 name s = (Ok false, s))
  /\ (name ∉ logged_people (data_manager s) ->
      exists s1,
        mark_attendance NoFault now1 name s = (Ok true, s1)
        /\ attendance_log (disk s1)
           = Some (match attendance_log (disk s) with
                   | Some content => content
                   | None => "Name,Timestamp" +:+ newline
                   end
                   +:+ name +:+ "," +:+ strftime_timestamp now1 +:+ newline)
        /\ mark_attendance flt2 now2 name s1 = (Ok false, s1)
        /\ (PyStr.contains (ascii_of_nat 10) name = false ->
            PyStr.contains (ascii_of_nat 13) name = false ->
            forall body,
              match attendance_log (disk s) with
              | Some content => content
              | None => "Name,Timestamp" +:+ newline
              end = body +:+ newline ->
              exists content1,
                attendance_log (disk s1) = Some content1
                /\ file_lines content1
                   = file_lines (body +:+ newline)
                     ++ [name +:+ "," +:+ strftime_timestamp now1
                         +:+ newline]))
  /\ (forall r s1,
         mark_attendance flt1 now1 name s = (Ok r, s1) ->
         mark_attendance flt2 now2 name s1 = (Ok false, s1)).
Proof.
  split; [|split].
  - apply mark_attendance_logged.
  - intros Hnot.
    destruct (mark_attendance_new now1 name s Hnot)
      as (s1 & Hcall & Hfile & Hset & _).
    unfold ledger_before, ledger_row, LEDGER_HEADER in Hfile.
    exists s1. split; [exact Hcall|]. split; [exact Hfile|]. split.
    + apply mark_attendance_logged. rewrite Hset.
      apply elem_of_union_r, elem_of_singleton. reflexivity.
    + intros Hlf Hcr body Hbody. eexists. split; [exact Hfile|].
      rewrite Hbody, file_lines_app.
      pose proof (ledger_row_one_line name now1 Hlf Hcr) as Hrow.
      unfold ledger_row in Hrow. rewrite Hrow. reflexivity.
  - intros r s1 Hcall. apply mark_attendance_logged.
    exact (mark_attendance_ok_logged flt1 now1 name s r s1 Hcall).
Qed.

Lemma load_today_log_present now content s :
  attendance_log (disk s) = Some content ->
  load_today_log now NoReadFault s
  = (Ok tt,
     with_data_manager
       (mkFaceDataManager (known_encodings (data_manager s))
          (known_names (data_manager s))
          (names_today (strftime_date now) content)) s).
Proof.
  intros Hlog.
  unfold load_today_log, read_rows, bind, get, set_logged, modify. simpl.
  rewrite Hlog. simpl. unfold names_today.
  destruct (file_lines content); reflexivity.
Qed.

(** The set [read_rows] leaves when it starts from the empty set. *)
Lemma read_rows_names today_str (lines : list string) s :
  logged_people (data_manager s) = ∅ ->
  exists s',
    read_rows today_str lines s = (Ok tt, s')
    /\ (forall name,
           name ∈ logged_people (data_manager s')
           <-> exists line,
                 In line (List.tl lines)
                 /\ row_name_today today_str line = Some name)
    /\ disk s' = disk s /\ stdout s' = stdout s
    /\ known_encodings (data_manager s') = known_encodings (data_manager s)
    /\ known_names (data_manager s') = known_names (data_manager s).
Proof.
  intros Hempty. destruct lines as [|header rows]; simpl.
  - exists s. split; [reflexivity|]. split; [|auto].
    intros name. rewrite Hempty, elem_of_empty.
    split; [tauto|]. intros (line & [] & _).
  - eexists. split; [reflexivity|]. simpl. split; [|auto].
    intros name. rewrite fold_add_row_name_elem, elem_of_empty. tauto.
Qed.

(** X4.  [load_today_log] on an existing ledger file.  Read through: the set
    is rebuilt from the file alone (what it held is dropped): a name is in it
    exactly when some line after the first one, stripped and split at
    commas, has the name as first field and a second field that starts with
    today's date; nothing is printed and the file is untouched.  When the
    [open] raises: the set is empty and the error line is printed once.  When
    a read raises after [k] lines were delivered: the set holds exactly the
    names of the rows among those [k] lines (the names read so far are kept),
    and the error line is printed once.  A fault set at a line the file does
    not have changes nothing. *)
Theorem load_today_log_reads_rows now content s :
  attendance_log (disk s) = Some content ->
  (exists s',
      load_today_log now NoReadFault s = (Ok tt, s')
      /\ (forall name,
             name ∈ logged_people (data_manager s')
             <-> exists line,
                   In line (List.tl (file_lines content))
                   /\ row_name_today (strftime_date now) line = Some name)
      /\ disk s' = disk s /\ stdout s' = stdout s)
  /\ (exists s',
         load_today_log now ReadOpenFails s = (Ok tt, s')
         /\ logged_people (data_manager s') = ∅
         /\ disk s' = disk s
         /\ stdout s' = stdout s ++ [LogErrorRead])
  /\ (forall k,
         (k <= length (file_lines content))%nat ->
         exists s',
           load_today_log now (ReadFails k) s = (Ok tt, s')
           /\ (forall name,
                  name ∈ logged_people (data_manager s')
                  <-> exists line,
                        In line (List.tl (take k (file_lines content)))
                        /\ row_name_today (strftime_date now) line
                           = Some name)
           /\ disk s' = disk s
           /\ stdout s' = stdout s ++ [LogErrorRead])
  /\ (forall k,
         (length (file_lines content) < k)%nat ->
         load_today_log now (ReadFails k) s
         = load_today_log now NoReadFault s).
Proof.
  intros Hlog.
  set (s0 := with_data_manager
               (mkFaceDataManager (known_encodings (data_manager s))
                  (known_names (data_manager s)) ∅) s).
  assert (Hstart : forall rf,
             load_today_log now rf s
             = match rf with
               | NoReadFault =>
                   read_rows (strftime_date now) (file_lines content) s0
               | ReadOpenFails => print LogErrorRead s0
               | ReadFails k =>
                   if (k <=? length (file_lines content))%nat
                   then (read_rows (strftime_date now)
                           (take k (file_lines content)) ;;
                         print LogErrorRead) s0
                   else read_rows (strftime_date now) (file_lines content) s0
               end).
  { intros rf.
    unfold load_today_log, bind at 1, set_logged, modify, bind at 1, get.
    fold s0. change (attendance_log (disk s0)) with (attendance_log (disk s)).
    rewrite Hlog. destruct rf as [| |k]; try reflexivity.
    destruct (k <=? length (file_lines content))%nat; reflexivity. }
  split; [|split; [|split]].
  - rewrite (Hstart NoReadFault).
    destruct (read_rows_names (strftime_date now) (file_lines content) s0
                eq_refl) as (s' & Hrun & Hnames & Hdisk & Hout & _).
    exists s'. auto.
  - rewrite (Hstart ReadOpenFails). eexists. split; [reflexivity|]. auto.
  - intros k Hk. rewrite (Hstart (ReadFails k)).
    apply Nat.leb_le in Hk. rewrite Hk.
    destruct (read_rows_names (strftime_date now)
                (take k (file_lines content)) s0 eq_refl)
      as (s' & Hrun & Hnames & Hdisk & Hout & _).
    unfold bind. rewrite Hrun. eexists. split; [reflexivity|].
    simpl. split; [exact Hnames|]. split; [exact Hdisk|].
    rewrite Hout. reflexivity.
  - intros k Hk. rewrite (Hstart (ReadFails k)), (Hstart NoReadFault).
    apply Nat.leb_gt in Hk. rewrite Hk. reflexivity.
Qed.

(** X5.  A check-in survives a restart on the same day.  When the ledger
    content the call sees ends with a line feed (as the header and every row
    written by the program do) and the name has no comma, no line break and
    no leading whitespace, the row [mark_attendance] appends is read back by
    [load_today_log] on that date: the set rebuilt is the one the old content
    gives, plus the name. *)
Theorem mark_then_load_today_restores now1 now2 name body s :
  ledger_before s = body +:+ newline ->
  name ∉ logged_people (data_manager s) ->
  row_safe name ->
  strftime_date now1 = strftime_date now2 ->
  exists s1 s2,
    mark_attendance NoFault now1 name s = (Ok true, s1)
    /\ load_today_log now2 NoReadFault s1 = (Ok tt, s2)
    /\ logged_people (data_manager s2)
       = names_today (strftime_date now2) (ledger_before s) ∪ {[ name ]}.
Proof.
  intros Hbody Hnot (Hcomma & Hlf & Hcr & Hl) Hday.
  destruct (mark_attendance_new now1 name s Hnot)
    as (s1 & Hmark & Hfile & _).
  exists s1. eexists. split; [exact Hmark|].
  split; [apply (load_today_log_present now2 _ s1 Hfile)|].
  simpl. rewrite Hbody.
  rewrite (names_today_app_row _ body _ (ledger_row_one_line name now1 Hlf Hcr)).
  unfold add_row_name.
  rewrite (row_name_today_same_day _ name now1 Hcomma Hl Hday).
  reflexivity.
Qed.

(** X6.  A check-in of another day is not counted.  Under the same
    conditions, when the date of the reload differs from the date of the
    check-in (both written with as many characters), the appended row adds
    nothing to the set rebuilt. *)
Theorem mark_then_load_other_day_ignores now1 now2 name body s :
  ledger_before s = body +:+ newline ->
  name ∉ logged_people (data_manager s) ->
  row_safe name ->
  String.length (strftime_date now2) = String.length (strftime_date now1) ->
  strftime_date now2 <> strftime_date now1 ->
  exists s1 s2,
    mark_attendance NoFault now1 name s = (Ok true, s1)
    /\ load_today_log now2 NoReadFault s1 = (Ok tt, s2)
    /\ logged_people (data_manager s2)
       = names_today (strftime_date now2) (ledger_before s).
Proof.
  intros Hbody Hnot (Hcomma & Hlf & Hcr & Hl) Hlen Hday.
  destruct (mark_attendance_new now1 name s Hnot)
    as (s1 & Hmark & Hfile & _).
  exists s1. eexists. split; [exact Hmark|].
  split; [apply (load_today_log_present now2 _ s1 Hfile)|].
  simpl. rewrite Hbody.
  rewrite (names_today_app_row _ body _ (ledger_row_one_line name now1 Hlf Hcr)).
  unfold add_row_name.
  rewrite (row_name_today_other_day _ name now1 Hcomma Hl Hlen Hday).
  reflexivity.
Qed.

(** X7.  An existing but empty ledger file loses its first check-in.
    [mark_attendance] appends to an existing file without writing the
    header, so the row becomes the first line of the file, which
    [load_today_log] skips as the header: after a reload the set is empty,
    whatever the date. *)
Theorem empty_ledger_first_row_read_as_header now1 now2 name s :
  attendance_log (disk s) = Some EmptyString ->
  name ∉ logged_people (data_manager s) ->
  PyStr.contains (ascii_of_nat 10) name = false ->
  PyStr.contains (ascii_of_nat 13) name = false ->
  exists s1 s2,
    mark_attendance NoFault now1 name s = (Ok true, s1)
    /\ attendance_log (disk s1) = Some (ledger_row name now1)
    /\ load_today_log now2 NoReadFault s1 = (Ok tt, s2)
    /\ logged_people (data_manager s2) = ∅.
Proof.
  intros Hlog Hnot Hlf Hcr.
  destruct (mark_attendance_new now1 name s Hnot)
    as (s1 & Hmark & Hfile & _).
  unfold ledger_before in Hfile. rewrite Hlog in Hfile.
  rewrite string_app_nil_l in Hfile.
  exists s1. eexists. split; [exact Hmark|]. split; [exact Hfile|].
  split; [apply (load_today_log_present now2 _ s1 Hfile)|].
  simpl. unfold names_today.
  rewrite (ledger_row_one_line name now1 Hlf Hcr). reflexivity.
Qed.

End LedgerReadBack.

(** C3 at a concrete state: Alice is logged, Bob is not, and there is no
    ledger file yet. *)
Lemma mark_attendance_idempotent_witness :
  mark_attendance OpenFails Demo.noon "Alice"
    (Demo.gallery [] [] {[ "Alice" ]} None)
  = (Ok false, Demo.gallery [] [] {[ "Alice" ]} None)
  /\ exists s1,
       mark_attendance NoFault Demo.noon "Bob"
         (Demo.gallery [] [] {[ "Alice" ]} None) = (Ok true, s1)
       /\ attendance_log (disk s1)
          = Some ("Name,Timestamp" +:+ newline
                  +:+ "Bob,2024-05-17 12:00:00" +:+ newline)
       /\ mark_attendance OpenFails Demo.noon "Bob" s1 = (Ok false, s1)
       /\ exists content1,
            attendance_log (disk s1) = Some content1
            /\ file_lines content1
               = ["Name,Timestamp" +:+ newline;
                  "Bob,2024-05-17 12:00:00" +:+ newline].
Proof.
  split.
  - apply (proj1 (mark_attendance_idempotent OpenFails OpenFails Demo.noon
                    Demo.noon "Alice"
                    (Demo.gallery [] [] {[ "Alice" ]} None))).
    simpl. apply elem_of_singleton. reflexivity.
  - destruct (proj1 (proj2 (mark_attendance_idempotent OpenFails OpenFails
                              Demo.noon Demo.noon "Bob"
                              (Demo.gallery [] [] {[ "Alice" ]} None))))
      as (s1 & Hcall & Hfile & Hsecond & Hline).
    { simpl. apply not_elem_of_singleton. discriminate. }
    exists s1. split; [exact Hcall|]. split; [exact Hfile|].
    split; [exact Hsecond|].
    exact (Hline eq_refl eq_refl "Name,Timestamp" eq_refl).
Defined.

(** X4 at a concrete ledger: the header, a row of Ann and a row of Ben, both
    of today.  Read through, both are logged; when the read raises after two
    lines, Ann is logged, Ben is not, and the error line is printed. *)
Lemma load_today_log_reads_rows_witness :
  (exists s',
      load_today_log Demo.noon NoReadFault
        (Demo.fresh (Some [])
           (Some (LEDGER_HEADER +:+ "Ann,2024-05-17 09:00:00" +:+ newline
                  +:+ "Ben,2024-05-17 09:05:00" +:+ newline)))
      = (Ok tt, s')
      /\ "Ann" ∈ logged_people (data_manager s')
      /\ "Ben" ∈ logged_people (data_manager s'))
  /\ (exists s',
         load_today_log Demo.noon (ReadFails 2)
           (Demo.fresh (Some [])
              (Some (LEDGER_HEADER +:+ "Ann,2024-05-17 09:00:00" +:+ newline
                     +:+ "Ben,2024-05-17 09:05:00" +:+ newline)))
         = (Ok tt, s')
         /\ "Ann" ∈ logged_people (data_manager s')
         /\ ("Ben" ∉ logged_people (data_manager s'))
         /\ stdout s' = [LogErrorRead]).
Proof.
  destruct (load_today_log_reads_rows Demo.noon
              (LEDGER_HEADER +:+ "Ann,2024-05-17 09:00:00" +:+ newline
               +:+ "Ben,2024-05-17 09:05:00" +:+ newline)
              (Demo.fresh (Some [])
                 (Some (LEDGER_HEADER +:+ "Ann,2024-05-17 09:00:00"
                        +:+ newline
                        +:+ "Ben,2024-05-17 09:05:00" +:+ newline)))
              eq_refl) as ((s1 & Hload & Hmem & _) & _ & Hfail & _).
  split.
  - exists s1. split; [exact Hload|]. split; apply Hmem.
    + exists ("Ann,2024-05-17 09:00:00" +:+ newline).
      split; [left; reflexivity | reflexivity].
    + exists ("Ben,2024-05-17 09:05:00" +:+ newline).
      split; [right; left; reflexivity | reflexivity].
  - destruct (Hfail 2%nat) as (s2 & Hload2 & Hmem2 & _ & Hout);
      [vm_compute; lia|].
    exists s2. split; [exact Hload2|]. split; [|split; [|exact Hout]].
    + apply Hmem2. exists ("Ann,2024-05-17 09:00:00" +:+ newline).
      split; [left; reflexivity | reflexivity].
    + intros Hben. apply Hmem2 in Hben as (line & Hin & Hrow).
      destruct Hin as [<-|[]]. discriminate Hrow.
Defined.

(** X5 at a first check-in of the day: no ledger file yet. *)
Lemma mark_then_load_today_restores_witness :
  exists s1 s2,
    mark_attendance NoFault Demo.noon "Jane Doe 1" (Demo.fresh (Some []) None)
    = (Ok true, s1)
    /\ load_today_log (mkDatetime 2024 5 17 18 30 0) NoReadFault s1
       = (Ok tt, s2)
    /\ logged_people (data_manager s2)
       = names_today (strftime_date (mkDatetime 2024 5 17 18 30 0))
           (ledger_before (Demo.fresh (Some []) None))
         ∪ {[ "Jane Doe 1" ]}.
Proof.
  apply (mark_then_load_today_restores Demo.noon
           (mkDatetime 2024 5 17 18 30 0) "Jane Doe 1" "Name,Timestamp"
           (Demo.fresh (Some []) None)).
  - reflexivity.
  - apply not_elem_of_empty.
  - repeat split.
  - reflexivity.
Defined.

(** X6 at a restart on the next day. *)
Lemma mark_then_load_other_day_ignores_witness :
  exists s1 s2,
    mark_attendance NoFault Demo.noon "Jane Doe 1" (Demo.fresh (Some []) None)
    = (Ok true, s1)
    /\ load_today_log (mkDatetime 2024 5 18 8 0 0) NoReadFault s1
       = (Ok tt, s2)
    /\ logged_people (data_manager s2)
       = names_today (strftime_date (mkDatetime 2024 5 18 8 0 0))
           (ledger_before (Demo.fresh (Some []) None)).
Proof.
  apply (mark_then_load_other_day_ignores Demo.noon
           (mkDatetime 2024 5 18 8 0 0) "Jane Doe 1" "Name,Timestamp"
           (Demo.fresh (Some []) None)).
  - reflexivity.
  - apply not_elem_of_empty.
  - repeat split.
  - reflexivity.
  - discriminate.
Defined.

(** X7 at an empty ledger file. *)
Lemma empty_ledger_first_row_read_as_header_witness :
  exists s1 s2,
    mark_attendance NoFault Demo.noon "Ann"
      (Demo.fresh (Some []) (Some EmptyString)) = (Ok true, s1)
    /\ attendance_log (disk s1) = Some (ledger_row "Ann" Demo.noon)
    /\ load_today_log Demo.noon NoReadFault s1 = (Ok tt, s2)
    /\ logged_people (data_manager s2) = ∅.
Proof.
  apply (empty_ledger_first_row_read_as_header Demo.noon Demo.noon "Ann"
           (Demo.fresh (Some []) (Some EmptyString))).
  - reflexivity.
  - apply not_elem_of_empty.
  - reflexivity.
  - reflexivity.
Defined.

(** ** Further properties: the worker and the shared state *)

Section MonadSteps.

Context {S A B : Type}.
Variable R : S -> S -> Prop.
Hypothesis R_refl : forall s, R s s.
Hypothesis R_trans : forall s1 s2 s3, R s1 s2 -> R s2 s3 -> R s1 s3.

Lemma steps_ret (a : A) : steps R (ret a).
Proof. intros s. apply R_refl. Qed.

Lemma steps_raise (e : exn) : steps R (@raise S A e).
Proof. intros s. apply R_refl. Qed.

Lemma steps_bind (m : M S A) (k : A -> M S B) :
  steps R m -> (forall a, steps R (k a)) -> steps R (bind m k).
Proof.
  intros Hm Hk s. unfold bind. specialize (Hm s).
  destruct (m s) as [[a|e|] s1]; simpl in Hm |- *; [|exact Hm..].
  eapply R_trans; [exact Hm | apply Hk].
Qed.

Lemma steps_of_keeps {V : Type} (view : S -> V) (m : M S A) :
  (forall s s', view s' = view s -> R s s') ->
  keeps view m -> steps R m.
Proof. intros Hview Hm s. apply Hview, Hm. Qed.

End MonadSteps.

Lemma ledger_grows_refl {file image encoding}
    (s : State file image encoding) : ledger_grows s s.
Proof.
  split; [|reflexivity].
  intros content Hlog. exists EmptyString.
  rewrite string_app_nil_r. exact Hlog.
Qed.

Lemma ledger_grows_trans {file image encoding}
    (s1 s2 s3 : State file image encoding) :
  ledger_grows s1 s2 -> ledger_grows s2 s3 -> ledger_grows s1 s3.
Proof.
  intros [Hf12 Hs12] [Hf23 Hs23]. split; [|set_solver].
  intros content Hlog.
  destruct (Hf12 content Hlog) as [m1 H2].
  destruct (Hf23 _ H2) as [m2 H3].
  exists (m1 +:+ m2). rewrite H3, string_app_assoc. reflexivity.
Qed.

Lemma ledger_grows_same {file image encoding}
    (s s' : State file image encoding) :
  (data_manager s', disk s') = (data_manager s, disk s) -> ledger_grows s s'.
Proof.
  intros [= Hdm Hdisk]. split.
  - intros content Hlog. exists EmptyString.
    rewrite string_app_nil_r, Hdisk. exact Hlog.
  - rewrite Hdm. reflexivity.
Qed.

Section WorkerFacts.

Context {file image region encoding : Type}.
Variable face_locations : image -> list region.
Variable face_encodings : image -> option (list region) -> list encoding.
Variable embedding_distance : encoding -> encoding -> Q.
Variable cvtColor_BGR2RGB : image -> image.
Variable resize : image -> image.
Variable draw_box : image -> region -> string -> image.
Variable openable : nat -> bool.
Implicit Types (s : State file image encoding) (t : tick image).

Local Abbreviation run' :=
  (run face_locations face_encodings embedding_distance cvtColor_BGR2RGB
       resize draw_box openable).
Local Abbreviation loop' :=
  (loop face_locations face_encodings embedding_distance cvtColor_BGR2RGB
        resize draw_box).
Local Abbreviation loop_body' :=
  (loop_body face_locations face_encodings embedding_distance
     cvtColor_BGR2RGB resize draw_box).
Local Abbreviation St := (State file image encoding).
Local Abbreviation core_view :=
  (fun s : State file image encoding => (data_manager s, disk s)).

(** *** The ledger and the set only grow *)

Lemma mark_attendance_grows flt now name :
  steps (@ledger_grows file image encoding) (mark_attendance flt now name).
Proof.
  intros s. unfold mark_attendance, bind, get.
  destruct (bool_decide (name ∈ logged_people (data_manager s))).
  - apply ledger_grows_refl.
  - destruct (attendance_log (disk s)) as [content|] eqn:Hlog;
      destruct flt as [| |[|[|k]]]; simpl;
      unfold append_log, bind, get; simpl; rewrite ?Hlog; simpl;
      (split; simpl;
       [ intros c Hc; rewrite Hlog in Hc; try discriminate Hc;
         injection Hc as <-;
         first [ eexists; reflexivity
               | exists EmptyString; rewrite string_app_nil_r; exact Hlog ]
       | set_solver ]).
Qed.

Lemma recognise_grows flt now enc :
  steps (@ledger_grows file image encoding)
        (recognise embedding_distance flt now enc).
Proof.
  intros s. unfold recognise, bind at 1, get.
  destruct (known_encodings (data_manager s)); [apply ledger_grows_refl|].
  destruct (0 <? _)%nat; [|apply ledger_grows_refl].
  destruct (_ !! _) as [[|]|]; try apply ledger_grows_refl.
  destruct (_ !! _) as [name|]; [|apply ledger_grows_refl].
  apply (steps_bind ledger_grows ledger_grows_trans).
  - apply mark_attendance_grows.
  - intros _. apply steps_ret, ledger_grows_refl.
Qed.

Lemma recognise_all_grows flt now (encs : list encoding) :
  steps (@ledger_grows file image encoding)
        (recognise_all embedding_distance flt now encs).
Proof.
  induction encs as [|enc rest IH]; simpl.
  - apply steps_ret, ledger_grows_refl.
  - apply (steps_bind ledger_grows ledger_grows_trans);
      [apply recognise_grows | intros name].
    apply (steps_bind ledger_grows ledger_grows_trans);
      [exact IH | intros names].
    apply steps_ret, ledger_grows_refl.
Qed.

Lemma publish_frame_keeps_core (frame : image) :
  keeps core_view (publish_frame frame).
Proof.
  intros s. unfold publish_frame.
  destruct (publish (frame_queue s) frame); reflexivity.
Qed.

Lemma environment_keeps_core t : keeps core_view (environment t).
Proof. unfold environment, set_camera. frame. Qed.

Lemma release_cap_keeps_core : keeps core_view release_cap.
Proof. unfold release_cap, set_camera. frame. Qed.

Lemma init_camera_keeps_core : keeps core_view (init_camera openable).
Proof.
  assert (Htry : forall idxs, keeps core_view (try_open openable idxs)).
  { induction idxs as [|idx rest IH]; simpl.
    - frame.
    - apply keeps_bind; [intros s0; reflexivity|].
      intros c. unfold set_camera, print. frame. }
  unfold init_camera, set_camera, print. frame.
Qed.

Lemma loop_body_grows t :
  steps (@ledger_grows file image encoding) (loop_body' t).
Proof.
  unfold loop_body. destruct (grabbed t) as [frame|];
    [|apply steps_ret, ledger_grows_refl].
  apply (steps_bind ledger_grows ledger_grows_trans).
  - apply (steps_of_keeps ledger_grows core_view);
      [apply ledger_grows_same|]. unfold set_camera. frame.
  - intros _. cbv zeta.
    apply (steps_bind ledger_grows ledger_grows_trans);
      [apply recognise_all_grows | intros names].
    apply (steps_of_keeps ledger_grows core_view);
      [apply ledger_grows_same | apply publish_frame_keeps_core].
Qed.

Lemma loop_grows (ticks : list (tick image)) :
  steps (@ledger_grows file image encoding) (loop' ticks).
Proof.
  induction ticks as [|t rest IH]; simpl.
  - apply (steps_of_keeps ledger_grows core_view);
      [apply ledger_grows_same|]. frame.
  - apply (steps_bind ledger_grows ledger_grows_trans).
    { apply (steps_of_keeps ledger_grows core_view);
        [apply ledger_grows_same | apply environment_keeps_core]. }
    intros _.
    apply (steps_bind ledger_grows ledger_grows_trans).
    { intros s. apply ledger_grows_refl. }
    intros s0. destruct (running (camera_thread s0)).
    + apply (steps_bind ledger_grows ledger_grows_trans);
        [apply loop_body_grows | intros _; exact IH].
    + apply steps_ret, ledger_grows_refl.
Qed.

(** X8.  The worker only ever adds to the attendance record.  However
    [mark_attendance] or a whole [run] ends (return, exception, schedule
    exhausted), a ledger file that existed still exists and its old content
    is the beginning of the new one, and every name that was in the
    logged-today set is still in it. *)
Theorem worker_only_appends :
  (forall flt now name s,
      ledger_grows s (snd (mark_attendance flt now name s)))
  /\ (forall ticks s, ledger_grows s (snd (run' ticks s))).
Proof.
  split.
  - intros flt now name. apply mark_attendance_grows.
  - intros ticks. unfold run.
    apply (steps_bind ledger_grows ledger_grows_trans).
    { apply (steps_of_keeps ledger_grows core_view);
        [apply ledger_grows_same | apply init_camera_keeps_core]. }
    intros ok. destruct (negb ok); [apply steps_ret, ledger_grows_refl|].
    apply (steps_bind ledger_grows ledger_grows_trans);
      [apply loop_grows | intros exited].
    destruct exited; [|apply steps_ret, ledger_grows_refl].
    apply (steps_bind ledger_grows ledger_grows_trans).
    + apply (steps_of_keeps ledger_grows core_view);
        [apply ledger_grows_same | apply release_cap_keeps_core].
    + intros _. apply steps_ret, ledger_grows_refl.
Qed.

(** *** The worker leaves the gallery alone *)

Lemma mark_attendance_keeps_gallery flt now name :
  keeps (@gallery_view file image encoding) (mark_attendance flt now name).
Proof.
  unfold mark_attendance, open_log, write_log, append_log,
    set_attendance_log, set_logged.
  cbv zeta. frame.
Qed.

#[local] Hint Resolve mark_attendance_keeps_gallery : frame.

Lemma recognise_keeps_gallery flt now enc :
  keeps (@gallery_view file image encoding)
        (recognise embedding_distance flt now enc).
Proof. unfold recognise. cbv zeta. frame. Qed.

#[local] Hint Resolve recognise_keeps_gallery : frame.

Lemma recognise_all_keeps_gallery flt now (encs : list encoding) :
  keeps (@gallery_view file image encoding)
        (recognise_all embedding_distance flt now encs).
Proof. induction encs as [|enc rest IH]; simpl; frame. Qed.

Lemma publish_frame_keeps_gallery (frame : image) :
  keeps (@gallery_view file image encoding) (publish_frame frame).
Proof.
  intros s. unfold publish_frame.
  destruct (publish (frame_queue s) frame); reflexivity.
Qed.

#[local] Hint Resolve recognise_all_keeps_gallery
  publish_frame_keeps_gallery : frame.

Lemma loop_body_keeps_gallery t :
  keeps (@gallery_view file image encoding) (loop_body' t).
Proof. unfold loop_body, set_camera. cbv zeta. frame. Qed.

#[local] Hint Resolve loop_body_keeps_gallery : frame.

Lemma loop_keeps_gallery (ticks : list (tick image)) :
  keeps (@gallery_view file image encoding) (loop' ticks).
Proof.
  induction ticks as [|t rest IH]; simpl; unfold environment, set_camera;
    frame.
Qed.

(** X9.  The worker never changes the gallery: however [run] ends, the
    lists of known embeddings and names and the content of the gallery
    directory are what they were.  (Only [load_known_faces] and
    [save_new_face], called from the UI thread, change them.) *)
Theorem worker_keeps_gallery (ticks : list (tick image)) s :
  gallery_view (snd (run' ticks s)) = gallery_view s.
Proof.
  revert s.
  assert (Htry : forall idxs,
             keeps (@gallery_view file image encoding)
                   (try_open openable idxs)).
  { induction idxs as [|idx rest IH]; simpl.
    - frame.
    - apply keeps_bind; [intros s0; reflexivity|].
      intros c. unfold set_camera, print. frame. }
  assert (Hrel : keeps (@gallery_view file image encoding) release_cap).
  { unfold release_cap, set_camera. frame. }
  change (keeps (@gallery_view file image encoding) (run' ticks)).
  unfold run, init_camera, set_camera, print. frame.
  apply loop_keeps_gallery.
Qed.

End WorkerFacts.

(** ** Further properties: the camera worker *)

Section CameraMore.

Context {file image region encoding : Type}.
Variable face_locations : image -> list region.
Variable face_encodings : image -> option (list region) -> list encoding.
Variable embedding_distance : encoding -> encoding -> Q.
Variable cvtColor_BGR2RGB : image -> image.
Variable resize : image -> image.
Variable draw_box : image -> region -> string -> image.
Variable openable : nat -> bool.
Implicit Types (s : State file image encoding) (t : tick image).

Local Abbreviation run' :=
  (run face_locations face_encodings embedding_distance cvtColor_BGR2RGB
       resize draw_box openable).
Local Abbreviation loop' :=
  (loop face_locations face_encodings embedding_distance cvtColor_BGR2RGB
        resize draw_box).
Local Abbreviation loop_body' :=
  (loop_body face_locations face_encodings embedding_distance
     cvtColor_BGR2RGB resize draw_box).

(** X10.  [init_camera] gives priority to device 0.  From a state where the
    worker holds at most the device behind its handle, it returns whether
    device 0 or device 1 opens; it ends holding exactly the first of them
    that opens (a handle held before is released first), having tried
    device 1 only after device 0 failed, and reports the index; when
    neither opens no device is held and the worker is marked as not
    running. *)
Theorem init_camera_opens_first_available s :
  devices_match_handle s ->
  exists s',
    init_camera openable s = (Ok (openable 0%nat || openable 1%nat), s')
    /\ devices_match_handle s'
    /\ (openable 0%nat = true ->
        cap (camera_thread s') = Some (mkVideoCapture 0 true)
        /\ held_devices s' = [0%nat]
        /\ open_calls s' = open_calls s ++ [0%nat]
        /\ stdout s' = stdout s ++ [InfoCameraOpened 0]
        /\ running (camera_thread s') = running (camera_thread s))
    /\ (openable 0%nat = false -> openable 1%nat = true ->
        cap (camera_thread s') = Some (mkVideoCapture 1 true)
        /\ held_devices s' = [1%nat]
        /\ open_calls s' = open_calls s ++ [0; 1]%nat
        /\ stdout s' = stdout s ++ [InfoCameraOpened 1]
        /\ running (camera_thread s') = running (camera_thread s))
    /\ (openable 0%nat = false -> openable 1%nat = false ->
        held_devices s' = [] /\ running (camera_thread s') = false).
Proof.
  intros Hinv.
  destruct (release_cap_returns s)
    as (s0 & Hrel & _ & _ & Hout & _ & Hcalls & Hrun & Hheld).
  destruct (Hheld Hinv) as [Hnil _].
  unfold init_camera, bind at 1. rewrite Hrel.
  unfold devices_match_handle. simpl.
  unfold bind, VideoCapture_new, set_camera, modify, print, ret. simpl.
  destruct (openable 0) eqn:H0; simpl.
  - eexists. split; [reflexivity|]. simpl.
    rewrite Hnil, Hout, Hcalls, Hrun.
    split; [reflexivity|]. split; [auto|].
    split; intros; discriminate.
  - destruct (openable 1) eqn:H1; simpl.
    + eexists. split; [reflexivity|]. simpl.
      rewrite Hnil, Hout, Hcalls, Hrun, <- app_assoc.
      split; [reflexivity|]. split; [discriminate|].
      split; [auto | discriminate].
    + eexists. split; [reflexivity|]. simpl. rewrite Hnil.
      split; [reflexivity|]. split; [discriminate|].
      split; [discriminate | auto].
Qed.

Lemma init_camera_false_stops s s1 :
  init_camera openable s = (Ok false, s1) ->
  running (camera_thread s1) = false.
Proof.
  destruct (release_cap_returns s) as (s0 & Hrel & _).
  unfold init_camera, bind at 1. rewrite Hrel.
  simpl. unfold bind, VideoCapture_new, set_camera, modify, print, ret.
  simpl.
  destruct (openable 0); simpl; [discriminate|].
  destruct (openable 1); simpl; [discriminate|].
  intros [= <-]. reflexivity.
Qed.

Lemma loop_exit_not_running (ticks : list (tick image)) :
  forall s s', loop' ticks s = (Ok true, s') ->
               running (camera_thread s') = false.
Proof.
  induction ticks as [|t rest IH]; intros s s'; simpl.
  - unfold bind, get, ret. intros [= Hrun <-].
    apply negb_true_iff. exact Hrun.
  - unfold bind at 1.
    destruct (environment t s) as [[[]|e|] s1]; try discriminate.
    unfold bind at 1, get.
    destruct (running (camera_thread s1)) eqn:Hrun.
    + unfold bind at 1.
      destruct (loop_body' t s1) as [[[]|e|] s2]; try discriminate.
      apply IH.
    + intros [= <-]. exact Hrun.
Qed.

Lemma run_returned_not_running (ticks : list (tick image)) s s' :
  run' ticks s = (Ok Returned, s') -> running (camera_thread s') = false.
Proof.
  unfold run, bind at 1.
  destruct (init_camera openable s) as [[[|]|e|] s1] eqn:Hinit; simpl;
    try discriminate.
  - unfold bind at 1.
    destruct (loop' ticks s1) as [[[|]|e|] s2] eqn:Hloop; try discriminate.
    destruct (release_cap_returns s2)
      as (s3 & Hrel & _ & _ & _ & _ & _ & Hrun & _).
    unfold bind. rewrite Hrel. intros [= <-]. rewrite Hrun.
    exact (loop_exit_not_running ticks s1 s2 Hloop).
  - intros [= <-]. exact (init_camera_false_stops s s1 Hinit).
Qed.


Lemma loop_cut_at_stop (pre : list (tick image)) t rest :
  stop_requested t = true ->
  forall s, loop' (pre ++ t :: rest) s = loop' (pre ++ [t]) s.
Proof.
  intros Hstop. induction pre as [|t0 pre IH]; intros s; simpl.
  - destruct (environment_returns t s) as (s1 & Henv & _ & Hoff).
    unfold bind, get. rewrite Henv. cbv beta iota.
    rewrite (Hoff Hstop). reflexivity.
  - unfold bind, get.
    destruct (environment t0 s) as [[[]|e|] s1]; try reflexivity.
    destruct (running (camera_thread s1)); [|reflexivity].
    destruct (loop_body' t0 s1) as [[[]|e|] s2]; try reflexivity.
    apply IH.
Qed.

(** X12.  A stop request is honoured at the next loop test: whatever the
    schedule holds after the pass in which the stop request arrives (frames,
    faces, faults) has no effect on how [run] ends or on the state it
    leaves. *)
Theorem run_ignores_schedule_after_stop (pre : list (tick image)) t rest s :
  stop_requested t = true ->
  run' (pre ++ t :: rest) s = run' (pre ++ [t]) s.
Proof.
  intros Hstop. unfold run, bind.
  destruct (init_camera openable s) as [[ok|e|] s1]; try reflexivity.
  destruct (negb ok); [reflexivity|].
  rewrite (loop_cut_at_stop pre t rest Hstop s1). reflexivity.
Qed.

(** *** The frame kept for snapshots *)

Lemma mark_attendance_keeps_snapshot flt now name :
  keeps (@snapshot_view file image encoding) (mark_attendance flt now name).
Proof.
  unfold mark_attendance, open_log, write_log, append_log,
    set_attendance_log, set_logged.
  cbv zeta. frame.
Qed.

#[local] Hint Resolve mark_attendance_keeps_snapshot : frame.

Lemma recognise_keeps_snapshot flt now enc :
  keeps (@snapshot_view file image encoding)
        (recognise embedding_distance flt now enc).
Proof. unfold recognise. cbv zeta. frame. Qed.

#[local] Hint Resolve recognise_keeps_snapshot : frame.

Lemma recognise_all_keeps_snapshot flt now (encs : list encoding) :
  keeps (@snapshot_view file image encoding)
        (recognise_all embedding_distance flt now encs).
Proof. induction encs as [|enc rest IH]; simpl; frame. Qed.

Lemma publish_frame_keeps_snapshot (frame : image) :
  keeps (@snapshot_view file image encoding) (publish_frame frame).
Proof.
  intros s. unfold publish_frame.
  destruct (publish (frame_queue s) frame); reflexivity.
Qed.

(** X13.  The frame offered to [take_snapshot] is the frame as grabbed
    (after the colour conversion), without the boxes and labels drawn for
    the display: after a pass of the loop that grabbed a frame, however the
    pass ends, the snapshot is that frame.  A pass whose read fails changes
    nothing, so the previous snapshot stays. *)
Theorem loop_body_snapshot_is_raw_frame t s :
  (forall frame,
      grabbed t = Some frame ->
      take_snapshot (camera_thread (snd (loop_body' t s)))
      = Some (cvtColor_BGR2RGB frame))
  /\ (grabbed t = None -> loop_body' t s = (Ok tt, s)).
Proof.
  unfold loop_body. split.
  - intros frame ->. unfold bind at 1, set_camera, modify.
    set (s1 := with_camera_thread _ s).
    assert (Hk : keeps (@snapshot_view file image encoding)
                   (let! names :=
                      recognise_all embedding_distance (ledger_fault t)
                        (clock t)
                        (face_encodings
                           (cvtColor_BGR2RGB (resize frame))
                           (Some (face_locations
                                    (cvtColor_BGR2RGB (resize frame)))))
                    in publish_frame
                         (cvtColor_BGR2RGB
                            (fold_left
                               (fun f bn => draw_box f (fst bn) (snd bn))
                               (combine
                                  (face_locations
                                     (cvtColor_BGR2RGB (resize frame)))
                                  names) frame)))).
    { apply keeps_bind; [apply recognise_all_keeps_snapshot|].
      intros names. apply publish_frame_keeps_snapshot. }
    exact (Hk s1).
  - intros ->. reflexivity.
Qed.

End CameraMore.

(** ** Further properties: the frame queue between worker and window *)

Section ChannelFacts.

Context {image : Type}.
Implicit Types (q : Queue image) (ops : list (channel_op image)).

Lemma channel_run_sublist ops :
  forall q,
    sublist (fst (channel_run ops q) ++ items (snd (channel_run ops q)))
            (items q ++ published ops).
Proof.
  induction ops as [|[f|] rest IH]; intros q; simpl.
  - rewrite app_nil_r. reflexivity.
  - unfold publish, put. destruct (full q); simpl.
    + etransitivity; [apply IH|].
      apply sublist_app; [reflexivity | apply sublist_cons; reflexivity].
    + etransitivity; [apply IH|]. simpl.
      rewrite <- app_assoc. reflexivity.
  - unfold get_nowait. destruct (items q) as [|x r] eqn:Hq; simpl.
    + specialize (IH q). rewrite Hq in IH. exact IH.
    + apply sublist_skip. apply (IH (mkQueue (maxsize q) r)).
Qed.

Lemma channel_run_one_slot ops :
  forall q,
    maxsize q = 1%nat -> (length (items q) <= 1)%nat ->
    maxsize (snd (channel_run ops q)) = 1%nat
    /\ (length (items (snd (channel_run ops q))) <= 1)%nat.
Proof.
  induction ops as [|[f|] rest IH]; intros q Hmax Hlen; simpl.
  - auto.
  - unfold publish, put, full. rewrite Hmax.
    destruct (items q) as [|x [|y r]] eqn:Hq; simpl in Hlen |- *; try lia.
    + apply IH; simpl; [reflexivity | lia].
    + apply IH; [exact Hmax | rewrite Hq; simpl; lia].
  - unfold get_nowait. destruct (items q) as [|x r] eqn:Hq; simpl.
    + apply IH; [exact Hmax | rewrite Hq; simpl; lia].
    + apply IH; simpl; [exact Hmax | simpl in Hlen; lia].
Qed.

(** X14.  What the window receives through the queue.  For every
    interleaving of publishes (lines 196-197) and polls ([get_nowait], line
    347), the frames the polls return, followed by what is left in the
    queue, are a subsequence of the frames that were in the queue or were
    published, in that order: frames are delivered in publish order, none
    twice, none invented, and some may be dropped.  The one-slot queue of
    the application never holds more than one frame. *)
Theorem channel_delivers_subsequence ops q :
  sublist (fst (channel_run ops q) ++ items (snd (channel_run ops q)))
          (items q ++ published ops)
  /\ (maxsize q = 1%nat -> (length (items q) <= 1)%nat ->
      (length (items (snd (channel_run ops q))) <= 1)%nat).
Proof.
  split; [apply channel_run_sublist|].
  intros Hmax Hlen. apply (channel_run_one_slot ops q Hmax Hlen).
Qed.

End ChannelFacts.

(** X14 at a concrete interleaving: two publishes, a poll, a publish, two
    polls. *)
Lemma channel_delivers_subsequence_witness :
  fst (channel_run [Publish 1; Publish 2; Poll; Publish 3; Poll; Poll]%nat
         (mkQueue 1 [])) = [1; 3]%nat
  /\ (length (items (snd (channel_run
                            [Publish 1; Publish 2; Poll; Publish 3; Poll;
                             Poll]%nat (mkQueue 1 []))))
      <= 1)%nat.
Proof.
  split; [reflexivity|].
  apply (channel_delivers_subsequence
           [Publish 1; Publish 2; Poll; Publish 3; Poll; Poll]%nat
           (mkQueue 1 [])).
  - reflexivity.
  - simpl. lia.
Defined.

(** ** Further properties: the registration window (lines 245-278) *)

Section RegistrationMore.

Context {file image region encoding : Type}.
Variable load_image_file : file -> option image.
Variable face_encodings : image -> option (list region) -> list encoding.
Variable imencode : image -> file.
Variable cvtColor_RGB2BGR : image -> image.
Implicit Types (s : State file image encoding)
  (cam : CameraThread image) (w : RegistrationWindow image)
  (ui : AppWindow image).

Lemma process_capture_taken entry cam w snap :
  name_rejected (PyStr.strip entry) = false ->
  take_snapshot cam = Some snap ->
  process_capture entry cam w
  = if (capture_count w + 1 <? TOTAL_PHOTOS_REQUIRED)%nat
    then (PhotoCaptured,
          mkRegistrationWindow (captured_frames w ++ [snap])
                               (capture_count w + 1) true)
    else (SaveScheduled (PyStr.strip entry),
          mkRegistrationWindow (captured_frames w ++ [snap])
                               (capture_count w + 1) false).
Proof.
  intros Hok Hsnap. unfold process_capture. rewrite Hok, Hsnap.
  reflexivity.
Qed.

(** X15.  The registration window counts what it keeps: the count equals
    the number of frames kept, before and after every capture attempt.  An
    attempt made while the camera has produced no frame keeps neither a
    frame nor a count, whatever the name.  From a fresh window, three
    attempts with accepted names and a camera frame keep the three
    snapshots in order; the first two ask for more, and the third schedules
    the save under the name entered at that third attempt, with the capture
    button disabled. *)
Theorem registration_collects_three_photos :
  (forall entry cam w,
      capture_count w = length (captured_frames w) ->
      capture_count (snd (process_capture entry cam w))
      = length (captured_frames (snd (process_capture entry cam w))))
  /\ (forall entry cam w,
         take_snapshot cam = None ->
         captured_frames (snd (process_capture entry cam w))
         = captured_frames w
         /\ capture_count (snd (process_capture entry cam w))
            = capture_count w)
  /\ (forall e1 e2 e3 cam1 cam2 cam3 (a b c : image),
         name_rejected (PyStr.strip e1) = false ->
         name_rejected (PyStr.strip e2) = false ->
         name_rejected (PyStr.strip e3) = false ->
         take_snapshot cam1 = Some a ->
         take_snapshot cam2 = Some b ->
         take_snapshot cam3 = Some c ->
         process_capture e1 cam1 (mkRegistrationWindow [] 0 true)
         = (PhotoCaptured, mkRegistrationWindow [a] 1 true)
         /\ process_capture e2 cam2 (mkRegistrationWindow [a] 1 true)
            = (PhotoCaptured, mkRegistrationWindow [a; b] 2 true)
         /\ process_capture e3 cam3 (mkRegistrationWindow [a; b] 2 true)
            = (SaveScheduled (PyStr.strip e3),
               mkRegistrationWindow [a; b; c] 3 false)).
Proof.
  split; [|split].
  - intros entry cam w Hcount. unfold process_capture.
    destruct (name_rejected (PyStr.strip entry)); [exact Hcount|].
    destruct (take_snapshot cam) as [snap|]; [|exact Hcount].
    destruct (_ <? _)%nat; simpl; rewrite length_app, Hcount; reflexivity.
  - intros entry cam w Hnone. unfold process_capture. rewrite Hnone.
    destruct (name_rejected (PyStr.strip entry)); auto.
  - intros e1 e2 e3 cam1 cam2 cam3 a b c H1 H2 H3 Ha Hb Hc.
    rewrite (process_capture_taken e1 cam1 _ a H1 Ha).
    rewrite (process_capture_taken e2 cam2 _ b H2 Hb).
    rewrite (process_capture_taken e3 cam3 _ c H3 Hc).
    repeat split.
Qed.

Lemma reload_known_faces_present ui s entries :
  known_faces_dir (disk s) = Some entries ->
  exists s',
    reload_known_faces load_image_file face_encodings ui s
    = (Ok (set_status_text
             ("Database reloaded. Tracking "
              +:+ PyStr.str_of_nat (length (known_names (data_manager s')))
              +:+ " users.") ui), s')
    /\ known_names (data_manager s')
       = List.map snd
           (gallery_of_directory load_image_file face_encodings entries)
    /\ known_encodings (data_manager s')
       = List.map fst
           (gallery_of_directory load_image_file face_encodings entries)
    /\ disk s' = disk s.
Proof.
  intros Hdir.
  destruct (load_known_faces_present load_image_file face_encodings
              s entries Hdir) as (s1 & H1 & He & Hn & _ & Hd).
  exists s1. unfold reload_known_faces. rewrite H1. auto.
Qed.


End RegistrationMore.

(** ** Further properties: the main window (lines 282-363) *)

Section WindowFacts.

Context {file image region encoding : Type}.
Variable load_image_file : file -> option image.
Variable face_encodings : image -> option (list region) -> list encoding.
Variable to_photo : image -> image.
Implicit Types (s : State file image encoding) (ui : AppWindow image).

(** X17.  One poll of the frame queue by the window, beside the worker.
    On an empty queue it changes nothing.  Otherwise it takes the oldest
    frame out of the queue and shows it; the count last seen becomes the size
    the logged-today set has when line 348 reads it; the success status is
    flashed exactly when that size differs from the count last seen before,
    and the count shown is then written from the size the set has when line
    336 reads it again (it is left alone otherwise).  So the count shown
    stays the count last seen when the worker logs nobody between the two
    reads; what the worker logs between them is shown and not seen. *)
Theorem update_frame_polls_queue (w1 w2 : worker_steps file image encoding)
    ui s :
  (items (frame_queue s) = [] ->
   _update_frame to_photo w1 w2 ui s = (Ok ui, s))
  /\ (forall f rest s1,
         items (frame_queue s) = f :: rest ->
         s1 = w1 (with_frame_queue (mkQueue (maxsize (frame_queue s)) rest) s)
         ->
         exists ui',
           _update_frame to_photo w1 w2 ui s
           = (Ok ui',
              if (prev_log_count ui
                  =? size (logged_people (data_manager s1)))%nat
              then s1 else w2 s1)
           /\ video_image ui' = Some (to_photo f)
           /\ prev_log_count ui'
              = size (logged_people (data_manager s1))
           /\ status_flashes ui'
              = (status_flashes ui
                 + if (prev_log_count ui
                       =? size (logged_people (data_manager s1)))%nat
                   then 0 else 1)%nat
           /\ log_count_text ui'
              = (if (prev_log_count ui
                     =? size (logged_people (data_manager s1)))%nat
                 then log_count_text ui
                 else "TODAY LOGGED: "
                      +:+ PyStr.str_of_nat
                            (size (logged_people (data_manager (w2 s1)))))
           /\ (size (logged_people (data_manager (w2 s1)))
               = size (logged_people (data_manager s1)) ->
               count_shown ui -> count_shown ui')).
Proof.
  unfold _update_frame, bind, modify, get, get_nowait,
    _update_logged_count_display, ret.
  cbv beta. split.
  - intros Hq. rewrite Hq. reflexivity.
  - intros f rest s1 Hq Hs1. rewrite Hq. simpl. rewrite <- Hs1.
    destruct (prev_log_count ui
              =? size (logged_people (data_manager s1)))%nat eqn:E;
      unfold bind, get, modify; simpl.
    + eexists. split; [reflexivity|]. simpl.
      apply Nat.eqb_eq in E.
      split; [reflexivity|]. split; [exact E|].
      split; [lia|]. split; [reflexivity|].
      unfold count_shown. simpl. auto.
    + eexists. split; [reflexivity|]. simpl.
      split; [reflexivity|]. split; [reflexivity|].
      split; [lia|]. split; [reflexivity|].
      unfold count_shown. simpl. intros -> _. reflexivity.
Qed.

(** X18.  The start of the application, with the gallery directory present
    and the ledger read through.  In the state in which the worker is
    started the gallery is the one the directory gives (lists aligned), the
    logged-today set is the one the ledger file gives for today (empty
    without a file), the frame queue has one slot and is empty, the worker
    object is fresh and the files are untouched.  [__init__] ends in that
    state as the worker has moved it on meanwhile; the window shows the
    number of gallery entries read after the start, keeps as count last seen
    the size the set had at line 297 and shows the size it had at line 336:
    the count shown is the count last seen when the worker logged nobody
    between the two. *)
Theorem app_init_state now (w1 w2 w3 : worker_steps file image encoding)
    s entries :
  known_faces_dir (disk s) = Some entries ->
  exists ui s0,
    CTKAttendanceApp_init load_image_file face_encodings now NoReadFault
      w1 w2 w3 s
    = (Ok ui, w3 (w2 (w1 s0)))
    /\ known_names (data_manager s0)
       = List.map snd
           (gallery_of_directory load_image_file face_encodings entries)
    /\ gallery_aligned s0
    /\ logged_people (data_manager s0)
       = match attendance_log (disk s) with
         | Some content => names_today (strftime_date now) content
         | None => ∅
         end
    /\ frame_queue s0 = mkQueue 1 []
    /\ camera_thread s0 = mkCameraThread true None None
    /\ disk s0 = disk s
    /\ status_text ui
       = "STATUS: Ready. "
         +:+ PyStr.str_of_nat (length (known_names (data_manager (w1 s0))))
         +:+ " users loaded."
    /\ prev_log_count ui
       = size (logged_people (data_manager (w2 (w1 s0))))
    /\ log_count_text ui
       = "TODAY LOGGED: "
         +:+ PyStr.str_of_nat
               (size (logged_people (data_manager (w3 (w2 (w1 s0))))))
    /\ (logged_people (data_manager (w3 (w2 (w1 s0))))
        = logged_people (data_manager (w2 (w1 s0))) ->
        count_shown ui).
Proof.
  intros Hdir.
  set (s00 := with_data_manager (mkFaceDataManager [] [] ∅) s).
  assert (Hlog : exists s1,
             load_today_log now NoReadFault s00 = (Ok tt, s1)
             /\ logged_people (data_manager s1)
                = match attendance_log (disk s) with
                  | Some content => names_today (strftime_date now) content
                  | None => ∅
                  end
             /\ disk s1 = disk s).
  { destruct (attendance_log (disk s)) as [content|] eqn:Hfile.
    - eexists. split; [apply (load_today_log_present now content s00 Hfile)|].
      auto.
    - eexists.
      split; [apply (load_today_log_absent now NoReadFault s00 Hfile)|].
      auto. }
  destruct Hlog as (s1 & H1 & Hset & Hd1).
  assert (Hdir1 : known_faces_dir (disk s1) = Some entries) by congruence.
  destruct (load_known_faces_present load_image_file face_encodings
              s1 entries Hdir1) as (s2 & H2 & He & Hn & Hl & Hd2).
  assert (Hdm : FaceDataManager_init load_image_file face_encodings now
                  NoReadFault s = (Ok tt, s2)).
  { unfold FaceDataManager_init, bind, modify. fold s00.
    rewrite H1, H2. reflexivity. }
  unfold CTKAttendanceApp_init. unfold bind at 1. rewrite Hdm.
  unfold bind, modify, get, _update_logged_count_display, ret. simpl.
  eexists _, _. split; [reflexivity|]. simpl.
  split; [exact Hn|]. split.
  { unfold gallery_aligned. simpl. rewrite He, Hn, !length_map.
    reflexivity. }
  split; [congruence|]. split; [reflexivity|]. split; [reflexivity|].
  split; [congruence|]. split; [reflexivity|]. split; [reflexivity|].
  split; [reflexivity|].
  unfold count_shown. simpl. intros ->. reflexivity.
Qed.

End WindowFacts.

(** ** The further properties at concrete inputs *)

(** X10: only camera 1 opens. *)
Lemma init_camera_opens_first_available_witness :
  exists s',
    init_camera (Nat.eqb 1) (Demo.fresh (Some []) None) = (Ok true, s')
    /\ cap (camera_thread s') = Some (mkVideoCapture 1 true)
    /\ held_devices s' = [1%nat]
    /\ open_calls s' = [0; 1]%nat.
Proof.
  destruct (init_camera_opens_first_available (Nat.eqb 1)
              (Demo.fresh (Some []) None) eq_refl)
    as (s' & Hinit & _ & _ & Hsecond & _).
  destruct (Hsecond eq_refl eq_refl) as (Hcap & Hheld & Hcalls & _).
  exists s'. split; [exact Hinit|]. auto.
Defined.


(** X12: a frame and a failing ledger scheduled after the stop request. *)
Lemma run_ignores_schedule_after_stop_witness :
  Demo.run (Nat.eqb 0)
    ([Demo.frame_tick 0 NoFault]
     ++ Demo.stop_tick :: [Demo.frame_tick 0 OpenFails])
    (Demo.gallery [0%Q] ["Ann"] ∅ None)
  = Demo.run (Nat.eqb 0) ([Demo.frame_tick 0 NoFault] ++ [Demo.stop_tick])
      (Demo.gallery [0%Q] ["Ann"] ∅ None).
Proof.
  apply (run_ignores_schedule_after_stop Demo.face_locations
           Demo.face_encodings Demo.embedding_distance Demo.cvtColor
           Demo.resize Demo.draw_box (Nat.eqb 0)).
  reflexivity.
Defined.

(** X13: the frame 4 is grabbed while the ledger cannot be opened. *)
Lemma loop_body_snapshot_is_raw_frame_witness :
  take_snapshot
    (camera_thread
       (snd (loop_body Demo.face_locations Demo.face_encodings
               Demo.embedding_distance Demo.cvtColor Demo.resize
               Demo.draw_box (Demo.frame_tick 4 OpenFails)
               (Demo.gallery [(4 # 10)%Q] ["Ann"] ∅ None))))
  = Some 4%nat.
Proof.
  apply (proj1 (loop_body_snapshot_is_raw_frame Demo.face_locations
                  Demo.face_encodings Demo.embedding_distance Demo.cvtColor
                  Demo.resize Demo.draw_box (Demo.frame_tick 4 OpenFails)
                  (Demo.gallery [(4 # 10)%Q] ["Ann"] ∅ None))).
  reflexivity.
Defined.

(** X15: three captures, the name corrected before the last one. *)
Lemma registration_collects_three_photos_witness :
  process_capture "Jane" (mkCameraThread true None (Some 1%nat))
    (mkRegistrationWindow [] 0 true)
  = (PhotoCaptured, mkRegistrationWindow [1%nat] 1 true)
  /\ process_capture "Jane" (mkCameraThread true None (Some 2%nat))
       (mkRegistrationWindow [1%nat] 1 true)
     = (PhotoCaptured, mkRegistrationWindow [1; 2]%nat 2 true)
  /\ process_capture " Jane_Doe " (mkCameraThread true None (Some 3%nat))
       (mkRegistrationWindow [1; 2]%nat 2 true)
     = (SaveScheduled (PyStr.strip " Jane_Doe "),
        mkRegistrationWindow [1; 2; 3]%nat 3 false).
Proof.
  apply (proj2 (proj2 (@registration_collects_three_photos nat)));
    reflexivity.
Defined.


(** X17: a frame waits in the queue, Ann was logged since the last poll, and
    the worker logs Ben between the two reads: the count last seen is 1, the
    count shown is 2. *)
Lemma update_frame_polls_queue_witness :
  exists ui',
    _update_frame Demo.resize id
      (fun s => snd (mark_attendance NoFault Demo.noon "Ben" s))
      (mkAppWindow "STATUS: Ready." "TODAY LOGGED: 0" 0 None 0)
      (with_frame_queue (mkQueue 1 [5%nat])
         (Demo.gallery [0%Q] ["Ann"] {[ "Ann" ]} None))
    = (Ok ui',
       snd (mark_attendance NoFault Demo.noon "Ben"
              (with_frame_queue (mkQueue 1 [])
                 (with_frame_queue (mkQueue 1 [5%nat])
                    (Demo.gallery [0%Q] ["Ann"] {[ "Ann" ]} None)))))
    /\ video_image ui' = Some 5%nat
    /\ prev_log_count ui' = 1%nat
    /\ log_count_text ui' = "TODAY LOGGED: 2".
Proof.
  destruct (update_frame_polls_queue (file := nat) (encoding := Q)
              Demo.resize id
              (fun s => snd (mark_attendance NoFault Demo.noon "Ben" s))
              (mkAppWindow "STATUS: Ready." "TODAY LOGGED: 0" 0 None 0)
              (with_frame_queue (mkQueue 1 [5%nat])
                 (Demo.gallery [0%Q] ["Ann"] {[ "Ann" ]} None)))
    as [_ Hpoll].
  destruct (Hpoll 5%nat [] _ eq_refl eq_refl)
    as (ui' & Hrun & Himg & Hprev & _ & Htext & _).
  exists ui'. split; [exact Hrun|]. split; [exact Himg|].
  split; [exact Hprev | exact Htext].
Defined.

(** X18: a start with one photo in the gallery directory and one row of
    today in the ledger, on a machine without camera: before the window reads
    the number of gallery entries the worker has failed to open a camera,
    printed that, and stopped. *)
Lemma app_init_state_witness :
  exists ui s0,
    CTKAttendanceApp_init Demo.load_image_file Demo.face_encodings
      Demo.noon NoReadFault
      (fun s => snd (init_camera (fun _ => false) s)) id id
      (Demo.fresh (Some [("Ann.jpg", 4%nat)])
         (Some (LEDGER_HEADER +:+ "Ann,2024-05-17 09:00:00" +:+ newline)))
    = (Ok ui, snd (init_camera (fun _ => false) s0))
    /\ known_names (data_manager s0) = ["Ann"]
    /\ frame_queue s0 = mkQueue 1 []
    /\ camera_thread s0 = mkCameraThread true None None
    /\ status_text ui = "STATUS: Ready. 1 users loaded."
    /\ prev_log_count ui = 1%nat
    /\ count_shown ui.
Proof.
  destruct (app_init_state Demo.load_image_file Demo.face_encodings
              Demo.noon
              (fun s => snd (init_camera (fun _ => false) s)) id id
              (Demo.fresh (Some [("Ann.jpg", 4%nat)])
                 (Some (LEDGER_HEADER +:+ "Ann,2024-05-17 09:00:00"
                        +:+ newline)))
              [("Ann.jpg", 4%nat)] eq_refl)
    as (ui & s0 & Hrun & Hnames & _ & Hset & Hq & Hcam & _ & Hstatus & Hprev
        & _ & Hshown).
  exists ui, s0. split; [exact Hrun|]. split; [exact Hnames|].
  split; [exact Hq|]. split; [exact Hcam|].
  assert (Hfix : known_names
                   (data_manager (snd (init_camera (fun _ => false) s0)))
                 = ["Ann"]
                 /\ logged_people
                      (data_manager (snd (init_camera (fun _ => false) s0)))
                    = {[ "Ann" ]}).
  { destruct s0 as [dm d o c q h oc]. simpl in Hnames, Hset, Hcam.
    subst c. vm_compute in Hset.
    destruct dm as [e n l]. simpl in Hnames, Hset. subst n l.
    vm_compute. split; reflexivity. }
  destruct Hfix as [Hn Hl].
  split; [|split].
  - rewrite Hstatus. unfold id. rewrite Hn. reflexivity.
  - rewrite Hprev. unfold id. rewrite Hl. reflexivity.
  - apply Hshown. reflexivity.
Defined.

(** ** Further properties: the names of registered faces *)

Lemma rfind_from_absent (c : ascii) (s : string) :
  forall i acc, PyStr.contains c s = false -> PyStr.rfind_from c s i acc = acc.
Proof.
  induction s as [|x s IH]; intros i acc; simpl; [reflexivity|].
  intros H. apply orb_false_iff in H as [Hx Hs].
  rewrite Hx. apply IH. exact Hs.
Qed.

Lemma rfind_from_app_sep (c : ascii) (a b : string) :
  forall i acc,
    PyStr.rfind_from c (a +:+ String c b) i acc
    = PyStr.rfind_from c b (i + Z.of_nat (String.length a) + 1)
        (i + Z.of_nat (String.length a)).
Proof.
  induction a as [|x a IH]; intros i acc.
  - simpl. rewrite Ascii.eqb_refl. f_equal; lia.
  - rewrite string_app_cons. simpl PyStr.rfind_from. rewrite IH.
    simpl String.length. f_equal; lia.
Qed.

Lemma substring_all (s : string) : substring 0 (String.length s) s = s.
Proof. induction s as [|x s IH]; simpl; [reflexivity | rewrite IH; reflexivity]. Qed.

Lemma substring_app_head (a b : string) :
  substring 0 (String.length a) (a +:+ b) = a.
Proof.
  induction a as [|x a IH]; [destruct b; reflexivity|].
  rewrite string_app_cons. simpl. rewrite IH. reflexivity.
Qed.

Lemma substring_app_tail (a b : string) :
  substring (String.length a) (String.length b) (a +:+ b) = b.
Proof.
  induction a as [|x a IH]; [apply substring_all|].
  rewrite string_app_cons. simpl. exact IH.
Qed.

Lemma prefix_dot_false (x : ascii) (s : string) :
  String.prefix "." (String x s) = false -> x <> "."%char.
Proof.
  intros H ->. change (String "." s) with ("." +:+ s) in H.
  rewrite prefix_app in H. discriminate H.
Qed.

Lemma prefix_dot_head (x : ascii) (s s' : string) :
  String.prefix "." (String x s) = String.prefix "." (String x s').
Proof.
  cbn [String.prefix]. destruct (Ascii.ascii_dec "." x); [|reflexivity].
  destruct s, s'; reflexivity.
Qed.

Lemma splitext_jpg (base : string) :
  base <> EmptyString ->
  String.prefix "." base = false ->
  PyStr.contains "/" base = false ->
  PyStr.splitext (base +:+ ".jpg") = (base, ".jpg").
Proof.
  intros Hne Hdot Hsep. unfold PyStr.splitext, PyStr.rfind.
  rewrite (rfind_from_absent "/") by (rewrite contains_app, Hsep; reflexivity).
  change (base +:+ ".jpg") with (base +:+ String "." "jpg").
  rewrite rfind_from_app_sep.
  rewrite (rfind_from_absent "." "jpg") by reflexivity.
  replace (0 + Z.of_nat (String.length base))%Z
    with (Z.of_nat (String.length base)) by lia.
  assert (Hlt : (-1 <? Z.of_nat (String.length base))%Z = true)
    by (apply Z.ltb_lt; lia).
  rewrite Hlt. change (Z.to_nat (-1 + 1)) with 0%nat.
  rewrite Nat2Z.id, Nat.sub_0_r.
  destruct base as [|x base]; [congruence|].
  simpl String.length. cbn [PyStr.splitext_scan].
  assert (Hx : (String.eqb (substring 0 1 (String x base +:+ String "." "jpg"))
                           ".") = false).
  { rewrite string_app_cons. simpl substring.
    apply String.eqb_neq. intros [= H].
    exact (prefix_dot_false x base Hdot H). }
  rewrite Hx. cbn [negb].
  change (S (String.length base)) with (String.length (String x base)).
  rewrite string_length_app.
  replace (String.length (String x base) + String.length (String "." "jpg")
           - String.length (String x base))%nat
    with (String.length (String "." "jpg")) by lia.
  rewrite substring_app_head, substring_app_tail. reflexivity.
Qed.

Lemma replace_app (old new : ascii) (a b : string) :
  PyStr.replace old new (a +:+ b)
  = PyStr.replace old new a +:+ PyStr.replace old new b.
Proof.
  induction a as [|x a IH]; [reflexivity|].
  rewrite string_app_cons. simpl. rewrite IH. reflexivity.
Qed.

Lemma replace_absent (old new : ascii) (s : string) :
  PyStr.contains old s = false -> PyStr.replace old new s = s.
Proof.
  induction s as [|x s IH]; simpl; [reflexivity|].
  intros H. apply orb_false_iff in H as [Hx Hs].
  rewrite Hx, (IH Hs). reflexivity.
Qed.

Lemma lower_app (a b : string) :
  PyStr.lower (a +:+ b) = PyStr.lower a +:+ PyStr.lower b.
Proof.
  induction a as [|x a IH]; [reflexivity|].
  rewrite string_app_cons. simpl. rewrite IH. reflexivity.
Qed.

Lemma endswith_app (a suffix : string) :
  PyStr.endswith (a +:+ suffix) suffix = true.
Proof.
  unfold PyStr.endswith. rewrite string_length_app.
  replace (String.length a + String.length suffix - String.length suffix)%nat
    with (String.length a) by lia.
  rewrite substring_app_tail, String.eqb_refl.
  apply andb_true_iff. split; [apply Nat.leb_le; lia | reflexivity].
Qed.

(** X19.  The names of registered faces.  For a name without path
    separator that does not start with a dot, the file [save_new_face]
    writes for the frame of index [i] is taken as an image by
    [load_known_faces], and its display name is the name with underscores
    replaced by spaces, followed by a space and the number [i+1]: the number
    [save_new_face] appends is never removed again. *)
Theorem registered_file_display_name (name : string) (i : nat) :
  String.prefix "." name = false ->
  PyStr.contains "/" name = false ->
  is_image_fname (photo_fname name i) = true
  /\ name_of_fname (photo_fname name i)
     = PyStr.replace "_" " " name +:+ " " +:+ PyStr.str_of_nat (i + 1).
Proof.
  intros Hdot Hsep. unfold photo_fname.
  assert (Hdigits : forall c, decimal_digit c = false ->
             PyStr.contains c (PyStr.str_of_nat (i + 1)) = false).
  { intros c Hc. apply (contains_all_chars c decimal_digit);
      [exact Hc | apply str_of_nat_digits]. }
  split.
  - unfold is_image_fname.
    replace (name +:+ "_" +:+ PyStr.str_of_nat (i + 1) +:+ ".jpg")
      with ((name +:+ "_" +:+ PyStr.str_of_nat (i + 1)) +:+ ".jpg")
      by (rewrite !string_app_assoc; reflexivity).
    rewrite lower_app.
    change (PyStr.lower ".jpg") with ".jpg".
    rewrite endswith_app. reflexivity.
  - rewrite name_of_fname_replace.
    replace (name +:+ "_" +:+ PyStr.str_of_nat (i + 1) +:+ ".jpg")
      with ((name +:+ "_" +:+ PyStr.str_of_nat (i + 1)) +:+ ".jpg")
      by (rewrite !string_app_assoc; reflexivity).
    rewrite splitext_jpg.
    + simpl fst. rewrite !replace_app.
      rewrite (replace_absent "_" " " (PyStr.str_of_nat (i + 1)))
        by (apply Hdigits; reflexivity).
      reflexivity.
    + destruct name; discriminate.
    + destruct name as [|x name]; [reflexivity|].
      rewrite string_app_cons.
      rewrite (prefix_dot_head x _ name). exact Hdot.
    + rewrite !contains_app, Hsep.
      rewrite (Hdigits "/"%char) by reflexivity. reflexivity.
Qed.

(** X19 for the second photo of Jane_Doe. *)
Lemma registered_file_display_name_witness :
  is_image_fname (photo_fname "Jane_Doe" 1) = true
  /\ name_of_fname (photo_fname "Jane_Doe" 1)
     = PyStr.replace "_" " " "Jane_Doe" +:+ " " +:+ PyStr.str_of_nat (1 + 1).
Proof.
  apply (registered_file_display_name "Jane_Doe" 1); reflexivity.
Defined.

(** ** Further properties: a person already logged *)

Section RecogniseLogged.

Context {file image encoding : Type}.
Variable embedding_distance : encoding -> encoding -> Q.
Implicit Types (s : State file image encoding) (enc : encoding).

(** X20.  Once a person is in the logged-today set, recognising that person
    again touches nothing: when the nearest known embedding is within the
    tolerance and its name is already logged, [recognise] returns the name
    and leaves the whole state as it was, even while the ledger file cannot
    be opened or written. *)
Theorem recognise_logged_person_changes_nothing flt now enc s d name :
  face_distance embedding_distance (known_encodings (data_manager s)) enc
    !! argmin (face_distance embedding_distance
                 (known_encodings (data_manager s)) enc) = Some d ->
  (d <= RECOGNITION_TOLERANCE)%Q ->
  known_names (data_manager s)
    !! argmin (face_distance embedding_distance
                 (known_encodings (data_manager s)) enc) = Some name ->
  name ∈ logged_people (data_manager s) ->
  recognise embedding_distance flt now enc s = (Ok name, s).
Proof.
  intros Hd Hle Hname Hin.
  assert (Hne : known_encodings (data_manager s) <> []).
  { intros Hnil. rewrite Hnil in Hd. discriminate Hd. }
  rewrite (recognise_nonempty embedding_distance flt now enc s d Hne Hd).
  apply Qle_bool_iff in Hle. rewrite Hle, Hname.
  unfold bind. rewrite (mark_attendance_logged flt now name s Hin).
  reflexivity.
Qed.

End RecogniseLogged.

(** X20 at a concrete state: Ann is logged, the ledger cannot be opened. *)
Lemma recognise_logged_person_changes_nothing_witness :
  recognise Demo.embedding_distance OpenFails Demo.noon (1 # 10)%Q
    (Demo.gallery [0%Q; (1 # 2)%Q] ["Ann"; "Ben"] {[ "Ann" ]} None)
  = (Ok "Ann", Demo.gallery [0%Q; (1 # 2)%Q] ["Ann"; "Ben"] {[ "Ann" ]} None).
Proof.
  apply (recognise_logged_person_changes_nothing Demo.embedding_distance
           OpenFails Demo.noon (1 # 10)%Q
           (Demo.gallery [0%Q; (1 # 2)%Q] ["Ann"; "Ben"] {[ "Ann" ]} None)
           (Demo.embedding_distance 0 (1 # 10)) "Ann").
  - reflexivity.
  - vm_compute. discriminate.
  - reflexivity.
  - simpl. apply elem_of_singleton. reflexivity.
Defined.

(** ** Further properties: closing the application (lines 204-205, 365-368) *)

Section Closing.

Context {file image region encoding : Type}.
Variable face_locations : image -> list region.
Variable face_encodings : image -> option (list region) -> list encoding.
Variable embedding_distance : encoding -> encoding -> Q.
Variable cvtColor_BGR2RGB : image -> image.
Variable resize : image -> image.
Variable draw_box : image -> region -> string -> image.
Implicit Types (s : State file image encoding) (t : tick image).

Local Abbreviation loop' :=
  (loop face_locations face_encodings embedding_distance cvtColor_BGR2RGB
        resize draw_box).

Lemma environment_stopped t s :
  running (camera_thread s) = false ->
  exists s1,
    environment t s = (Ok tt, s1)
    /\ running (camera_thread s1) = false
    /\ data_manager s1 = data_manager s /\ disk s1 = disk s
    /\ stdout s1 = stdout s
    /\ latest_frame (camera_thread s1) = latest_frame (camera_thread s)
    /\ device_view s1 = device_view s
    /\ sublist (items (frame_queue s1)) (items (frame_queue s)).
Proof.
  intros Hrun. unfold environment, bind, set_camera, modify, ret, get_nowait.
  destruct (stop_requested t), (consumer_polled t); simpl;
    eexists; (split; [reflexivity|]); simpl;
    (split; [first [reflexivity | exact Hrun]|]);
    do 5 (split; [reflexivity|]);
    destruct (items (frame_queue s)) eqn:E; simpl; rewrite ?E;
    first [reflexivity | apply sublist_cons; reflexivity].
Qed.


End Closing.
